(** * Pectin ion-transport model: the fitting script [model_fitting.py]

    A shallow embedding of the script and the properties its description
    states about it.

    Numbers.  The script computes with numpy [float64] values.  They are
    embedded as exact real numbers extended with the two infinities and
    NaN ([npfloat]); rounding and overflow of the binary format are not
    part of the embedding, the exceptional values that the operations of
    the script produce on exact inputs are.  What is stated about the
    values of the model is stated inside [float64_range], where float64
    neither overflows nor underflows and differs from the exact value by
    rounding only.

    External libraries.  [scipy.optimize.curve_fit] and the two
    [sklearn.metrics] functions are not code of the script; they are the
    fields of a record [externals] over which the script is a function.
    matplotlib is embedded by the list of drawing commands it receives.

    Effects.  A run is a value of [outcome world]: the lines printed and
    the files written, in order, and the exception that ended the run if
    one did.  Writing a file is taken to succeed.

    The first part of the file is the embedding, the second proves facts
    about it, the third states the claims of the description and the
    fourth further properties of the script. *)

From Stdlib Require Import Reals Lra Lia ZArith List String Ascii Bool.
From Stdlib Require Import Permutation.
Import ListNotations.

Local Open Scope R_scope.

(** ** numpy scalars *)

Module Numpy.

(** A [float64] scalar: a finite value, a signed infinity ([Inf true] is
    the negative one) or NaN. *)
Inductive npfloat : Type :=
| Fin (r : R)
| Inf (negative : bool)
| NaN.

Definition Rneg (r : R) : bool := if Rlt_dec r 0 then true else false.

Definition Rzero (r : R) : bool := if Req_dec_T r 0 then true else false.

(** [a * b] *)
Definition np_mul (a b : npfloat) : npfloat :=
  match a, b with
  | NaN, _ | _, NaN => NaN
  | Fin r, Fin s => Fin (r * s)
  | Fin r, Inf n | Inf n, Fin r =>
      if Rzero r then NaN else Inf (xorb n (Rneg r))
  | Inf n, Inf m => Inf (xorb n m)
  end.

(** [b / a] on scalars: a zero divisor gives an infinity or NaN (with a
    RuntimeWarning), never an exception. *)
Definition np_divide (b a : R) : npfloat :=
  if Rzero a then (if Rzero b then NaN else Inf (Rneg b)) else Fin (b / a).

Definition is_integer (t : R) : bool :=
  if Req_dec_T (IZR (Int_part t)) t then true else false.

(** [b ** t] for finite [b] and [t]: the power of a negative base is NaN
    unless the exponent is an integer; a zero base gives 0, 1 or +inf.
    The value is the exact power: float64 gives [inf] instead when it
    exceeds 1.797e308 and [0.0] when it is below 4.94e-324. *)
Definition np_power (b t : R) : npfloat :=
  match total_order_T 0 b with
  | inleft (left _) => Fin (Rpower b t)
  | inleft (right _) =>
      match total_order_T 0 t with
      | inleft (left _) => Fin 0
      | inleft (right _) => Fin 1
      | inright _ => Inf false
      end
  | inright _ =>
      if is_integer t then Fin (powerRZ b (Int_part t)) else NaN
  end.

(** [np.exp].  The value is the exact exponential: float64 gives [inf]
    instead for an argument above 709.78 and [0.0] for one below
    -745.13. *)
Definition np_exp (r : R) : npfloat := Fin (exp r).

(** [np.sqrt] *)
Definition np_sqrt (v : npfloat) : npfloat :=
  match v with
  | Fin r => if Rneg r then NaN else Fin (sqrt r)
  | Inf false => Inf false
  | Inf true => NaN
  | NaN => NaN
  end.

End Numpy.

Import Numpy.

(** ** The percolation model (source lines 9-16) *)

Definition x_c : R := 0.05.

(** Default of the keyword argument [t]. *)
Definition t_default : R := 4.5.

(** [percolation_model_fixed_t(x, A, B, t)] on a numpy scalar [x], an
    element of the arrays that every call of the script passes:
    [A * (x - x_c)**t * np.exp(-B * x)], multiplications associated to
    the left as Python parses them.  (On a plain Python float below the
    threshold [**] would return a complex number instead of NaN.) *)
Definition percolation_model_fixed_t (x A B t : R) : npfloat :=
  np_mul (np_mul (Fin A) (np_power (x - x_c) t)) (np_exp (- B * x)).

(** The same call on an array: numpy applies the expression elementwise. *)
Definition percolation_model_fixed_t_array (xs : list R) (A B t : R)
  : list npfloat :=
  map (fun x => percolation_model_fixed_t x A B t) xs.

(** [lambda x, A, B: percolation_model_fixed_t(x, A, B)] and every other
    call of the script: [t] is left at its default. *)
Definition model (x A B : R) : npfloat :=
  percolation_model_fixed_t x A B t_default.

Definition model_array (xs : list R) (A B : R) : list npfloat :=
  percolation_model_fixed_t_array xs A B t_default.

(** ** Python string formatting (the format specs of the f-strings) *)

Module PyFormat.

Local Open Scope string_scope.

Definition digit_char (d : Z) : ascii :=
  match d with
  | 0%Z => "0" | 1%Z => "1" | 2%Z => "2" | 3%Z => "3" | 4%Z => "4"
  | 5%Z => "5" | 6%Z => "6" | 7%Z => "7" | 8%Z => "8" | _ => "9"
  end%char.

(** The [w] low decimal digits of [n], most significant first. *)
Fixpoint digits (w : nat) (n : Z) : string :=
  match w with
  | O => ""
  | S w' => digits w' (n / 10) ++ String (digit_char (n mod 10)) ""
  end.

Fixpoint ndigits_fuel (fuel : nat) (n : Z) : nat :=
  match fuel with
  | O => 1
  | S f => if (n <? 10)%Z then 1%nat else S (ndigits_fuel f (n / 10))
  end.

(** Number of decimal digits of [n >= 0] (1 for 0). *)
Definition ndigits (n : Z) : nat := ndigits_fuel (S (Z.to_nat (Z.log2 n))) n.

(** [str(n)] for a natural number. *)
Definition str_nat (n : Z) : string := digits (ndigits n) n.

(** [str(z)], the [{charge}] field. *)
Definition str_int (z : Z) : string :=
  if (z <? 0)%Z then "-" ++ str_nat (- z) else str_nat z.

Fixpoint spaces (n : nat) : string :=
  match n with O => "" | S n' => String " " (spaces n') end.

(** [{s:<w}]: left-justified in a field of width [w].  The width counts
    bytes here; for the ASCII names of the registry that is the number of
    characters Python counts. *)
Definition ljust (w : nat) (s : string) : string :=
  s ++ spaces (w - String.length s).

(** Rounding to the nearest integer, ties to even: the correctly rounded
    decimal conversion that CPython's float formatting performs. *)
Definition round_half_even (r : R) : Z :=
  let f := Int_part r in
  match total_order_T (r - IZR f) (/ 2) with
  | inleft (left _) => f
  | inleft (right _) => if Z.even f then f else (f + 1)%Z
  | inright _ => (f + 1)%Z
  end.

Definition sign_str (r : R) : string := if Rneg r then "-" else "".

(** The fractional part of a rendered number: nothing for precision 0. *)
Definition frac_str (prec : nat) (m : Z) : string :=
  match prec with O => "" | _ => "." ++ digits prec m end.

(** [{v:.<prec>f}] *)
Definition format_f (prec : nat) (v : npfloat) : string :=
  match v with
  | NaN => "nan"
  | Inf false => "inf"
  | Inf true => "-inf"
  | Fin r =>
      let m := round_half_even (Rabs r * 10 ^ prec) in
      sign_str r ++ str_nat (m / 10 ^ Z.of_nat prec) ++ frac_str prec m
  end.

(** Decimal exponent of [a > 0]: the [e] with [10^e <= a < 10^(e+1)]. *)
Definition dec_exponent (a : R) : Z := Int_part (ln a / ln 10).

(** Mantissa (an integer of [prec + 1] digits) and exponent of the
    scientific notation of [r] with [prec] decimals. *)
Definition sci_parts (prec : nat) (r : R) : Z * Z :=
  if Rzero r then (0%Z, 0%Z)
  else
    let a := Rabs r in
    let e := dec_exponent a in
    let m := round_half_even (a * powerRZ 10 (Z.of_nat prec - e)) in
    if (m =? 10 ^ Z.of_nat (S prec))%Z
    then ((10 ^ Z.of_nat prec)%Z, (e + 1)%Z)
    else (m, e).

(** The exponent field: a sign and at least two digits. *)
Definition exp_str (e : Z) : string :=
  (if (e <? 0)%Z then "-" else "+")
  ++ digits (Nat.max 2 (ndigits (Z.abs e))) (Z.abs e).

(** [{v:.<prec>e}] *)
Definition format_e (prec : nat) (v : npfloat) : string :=
  match v with
  | NaN => "nan"
  | Inf false => "inf"
  | Inf true => "-inf"
  | Fin r =>
      let (m, e) := sci_parts prec r in
      sign_str r ++ digits 1 (m / 10 ^ Z.of_nat prec) ++ frac_str prec m
      ++ "e" ++ exp_str e
  end.

End PyFormat.

Import PyFormat.

(** ** The data (source lines 22-63) *)

Record dataset : Type := {
  valency : string;
  charge : Z;
  x : list R;
  sigma : list R;
  fit : bool
}.

(** A Python dict with string keys, in insertion order.  The keys of a
    dict are pairwise distinct: [dict_keys_unique]. *)
Definition registry : Type := list (string * dataset).

Definition dict_keys_unique {V : Type} (d : list (string * V)) : Prop :=
  NoDup (map fst d).

Definition data_registry : registry :=
  [ ("LiCl (Li+)"%string,
      {| valency := "Monovalent"; charge := 1;
         x := [0.10; 0.20; 0.30; 0.40; 0.50];
         sigma := [4.98e-7; 3.55e-6; 3.61e-5; 6.61e-4; 2.08e-3];
         fit := true |});
    ("NaN3 (Na+)"%string,
      {| valency := "Monovalent"; charge := 1;
         x := [0.05; 0.10; 0.15; 0.20];
         sigma := [1.85e-7; 2.70e-6; 2.40e-6; 2.20e-6];
         fit := false |});
    ("NH4I (NH4+)"%string,
      {| valency := "Monovalent"; charge := 1;
         x := [0.30; 0.40; 0.50; 0.60; 0.70];
         sigma := [5.1e-6; 9.7e-5; 3.7e-4; 1.2e-3; 4.5e-3];
         fit := true |});
    ("Mg(NO3)2 (Mg2+)"%string,
      {| valency := "Divalent"; charge := 2;
         x := [0.30; 0.40; 0.50; 0.60];
         sigma := [4.86e-6; 6.86e-5; 7.70e-4; 7.53e-4];
         fit := true |});
    ("ZnCl2 (Zn2+)"%string,
      {| valency := "Divalent"; charge := 2;
         x := [0.50; 0.60; 0.70];
         sigma := [6.72e-4; 4.49e-3; 4.21e-3];
         fit := true |}) ].

(** ** Exceptions and the external libraries *)

Inductive exception : Type :=
| LibraryError (message : string)  (* raised inside scipy or sklearn *)
| KeyError (key : string)
| StopIteration.

Inductive result (A : Type) : Type :=
| Ok (a : A)
| Raise (e : exception).

Arguments Ok {A} a.
Arguments Raise {A} e.

Definition bind {A B : Type} (m : result A) (k : A -> result B) : result B :=
  match m with
  | Ok a => k a
  | Raise e => Raise e
  end.

Notation "'let*' p ':=' m 'in' k" :=
  (bind m (fun p => k))
  (at level 10, p pattern, m at level 100, k at level 200).

(** Parameter bounds of [curve_fit]: the lower and the upper corner. *)
Definition bounds : Type := (R * R) * (R * R).

(** The library functions the script calls.  [curve_fit f xdata ydata p0
    bounds maxfev] returns the optimal parameters [popt] (the covariance
    is discarded by the script) or raises. *)
Record externals : Type := {
  curve_fit :
    (list R -> R -> R -> list npfloat) ->
    list R -> list R -> R * R -> bounds -> Z -> result (R * R);
  mean_squared_error : list R -> list npfloat -> result npfloat;
  r2_score : list R -> list npfloat -> result npfloat
}.

Definition p0 : R * R := (0.05, 0.5).

Definition fit_bounds : bounds := ((1e-4, 0.01), (1.0, 10.0)).

Definition maxfev : Z := 30000.

(** The solver keeps its result inside the bounds it is given. *)
Definition respects_bounds (ext : externals) : Prop :=
  forall f xs ys guess (b : bounds) cap A B,
    curve_fit ext f xs ys guess b cap = Ok (A, B) ->
    fst (fst b) <= A <= fst (snd b) /\ snd (fst b) <= B <= snd (snd b).

(** ** Fitting and VPI (source lines 69-108) *)

(** A row of [fit_table]: [[system, charge, A, B, vpi, rmse, r2]]. *)
Record fit_row : Type := {
  row_system : string;
  row_charge : Z;
  row_A : R;
  row_B : R;
  row_vpi : npfloat;
  row_rmse : npfloat;
  row_r2 : npfloat
}.

(** A row of [raw_data_table]: [[system, charge, xi, si]]. *)
Definition raw_row : Type := (string * Z * R * R)%type.

Module Console.

Local Open Scope string_scope.

Fixpoint repeat_str (s : string) (n : nat) : string :=
  match n with O => "" | S n' => s ++ repeat_str s n' end.

Definition newline : string := String (ascii_of_nat 10) "".

Definition rule (c : string) : string := repeat_str c 110.

Definition sep : string := " | ".

(** The two bytes of the UTF-8 encoding of the superscript two. *)
Definition superscript_two : string :=
  String (ascii_of_nat 194) (String (ascii_of_nat 178) "").

(** Source line 73.  The last column title is two characters wide (an R
    and a superscript two), so Python pads it with four spaces. *)
Definition header_line : string :=
  ljust 18 "System" ++ sep ++ ljust 8 "A" ++ sep ++ ljust 6 "B" ++ sep
  ++ ljust 10 "VPI=B/A" ++ sep ++ ljust 10 "RMSE" ++ sep
  ++ "R" ++ superscript_two ++ spaces 4.

(** Source line 83. *)
Definition placeholder_line (system : string) : string :=
  ljust 18 system ++ sep ++ ljust 8 "--" ++ sep ++ ljust 6 "--" ++ sep
  ++ ljust 10 "--" ++ sep ++ ljust 10 "--" ++ sep ++ ljust 6 "--".

(** Source line 106. *)
Definition fitted_line (r : fit_row) : string :=
  ljust 18 (row_system r) ++ sep
  ++ ljust 8 (format_f 3 (Fin (row_A r))) ++ sep
  ++ ljust 6 (format_f 2 (Fin (row_B r))) ++ sep
  ++ ljust 10 (format_f 2 (row_vpi r)) ++ sep
  ++ ljust 10 (format_e 1 (row_rmse r)) ++ sep
  ++ ljust 6 (format_f 3 (row_r2 r)).

End Console.

(** The variables the fitting loop updates, and what it has printed. *)
Record state : Type := {
  fit_table : list fit_row;
  raw_data_table : list raw_row;
  stdout : list string
}.

(** Source lines 69-74: the empty tables and the three header prints. *)
Definition initial_state : state :=
  {| fit_table := [];
     raw_data_table := [];
     stdout := [ (Console.newline ++ Console.rule "=")%string;
                 Console.header_line;
                 Console.rule "-" ] |}.

(** Source lines 79-80. *)
Definition raw_rows (system : string) (d : dataset) : list raw_row :=
  map (fun p => (system, charge d, fst p, snd p)) (combine (x d) (sigma d)).

(** Source lines 86-104 for one dataset: the row appended to [fit_table],
    or the exception a library call raised. *)
Definition fit_dataset (ext : externals) (system : string) (d : dataset)
  : result fit_row :=
  let* popt :=
    curve_fit ext model_array (x d) (sigma d) p0 fit_bounds maxfev in
  let (A, B) := popt in
  let y_fit := model_array (x d) A B in
  let* mse := mean_squared_error ext (sigma d) y_fit in
  let rmse := np_sqrt mse in
  let* r2 := r2_score ext (sigma d) y_fit in
  let vpi := np_divide B A in
  Ok {| row_system := system; row_charge := charge d;
        row_A := A; row_B := B;
        row_vpi := vpi; row_rmse := rmse; row_r2 := r2 |}.

(** A run of a loop: it finishes in a state, or an exception leaves it in
    the state reached so far. *)
Inductive outcome (S : Type) : Type :=
| Finished (s : S)
| Aborted (s : S) (e : exception).

Arguments Finished {S} s.
Arguments Aborted {S} s e.

(** Source lines 76-106: one iteration of the loop body per entry of the
    registry, in insertion order. *)
Fixpoint fitting_loop (ext : externals) (reg : registry) (st : state)
  : outcome state :=
  match reg with
  | [] => Finished st
  | (system, d) :: rest =>
      let st1 :=
        {| fit_table := fit_table st;
           raw_data_table := raw_data_table st ++ raw_rows system d;
           stdout := stdout st |} in
      if negb (fit d) then
        fitting_loop ext rest
          {| fit_table := fit_table st1;
             raw_data_table := raw_data_table st1;
             stdout := stdout st1 ++ [Console.placeholder_line system] |}
      else
        match fit_dataset ext system d with
        | Raise e => Aborted st1 e
        | Ok row =>
            fitting_loop ext rest
              {| fit_table := fit_table st1 ++ [row];
                 raw_data_table := raw_data_table st1;
                 stdout := stdout st1 ++ [Console.fitted_line row] |}
        end
  end.

(** ** The figure (source lines 114-156) *)

Fixpoint lookup {V : Type} (k : string) (d : list (string * V)) : option V :=
  match d with
  | [] => None
  | (k', v) :: rest => if String.eqb k' k then Some v else lookup k rest
  end.

(** [d[k]] *)
Definition getitem {V : Type} (d : list (string * V)) (k : string)
  : result V :=
  match lookup k d with
  | Some v => Ok v
  | None => Raise (KeyError k)
  end.

Definition colors : list (string * string) :=
  [ ("LiCl (Li+)", "red"); ("NaN3 (Na+)", "orange");
    ("NH4I (NH4+)", "gold"); ("Mg(NO3)2 (Mg2+)", "purple");
    ("ZnCl2 (Zn2+)", "brown") ]%string.

Definition markers : list (string * string) :=
  [ ("Monovalent", "o"); ("Divalent", "^") ]%string.

(** [np.linspace(a, b, n)] *)
Definition linspace (a b : R) (n : nat) : list R :=
  map (fun i => a + INR i * ((b - a) / INR (n - 1))) (seq 0 n).

Definition x_smooth : list R := linspace 0.05 0.80 400.

(** What matplotlib is asked to draw. *)
Inductive plot_cmd : Type :=
| Scatter (xs ys : list R) (marker color label : string)
| Curve (xs : list R) (ys : list npfloat) (color : string).

(** [plt.scatter] refuses coordinate arrays of different sizes. *)
Definition scatter (xs ys : list R) (marker color label : string)
  : result plot_cmd :=
  if Nat.eqb (List.length xs) (List.length ys)
  then Ok (Scatter xs ys marker color label)
  else Raise (LibraryError "x and y must be the same size").

(** [next(r for r in fit_table if r[0] == system)] *)
Definition next_row (system : string) (table : list fit_row)
  : result fit_row :=
  match find (fun r => String.eqb (row_system r) system) table with
  | Some r => Ok r
  | None => Raise StopIteration
  end.

(** Source lines 127-146. *)
Fixpoint plot_loop (reg : registry) (table : list fit_row)
  (fig : list plot_cmd) : result (list plot_cmd) :=
  match reg with
  | [] => Ok fig
  | (system, d) :: rest =>
      let* marker := getitem markers (valency d) in
      let* color := getitem colors system in
      let* points := scatter (x d) (sigma d) marker color system in
      if fit d then
        let* row := next_row system table in
        let A := row_A row in
        let B := row_B row in
        let* color' := getitem colors system in
        plot_loop rest table
          (fig ++ [points; Curve x_smooth (model_array x_smooth A B) color'])
      else
        plot_loop rest table (fig ++ [points])
  end.

(** ** The exports (source lines 164-179) *)

Module SIExport.

Local Open Scope string_scope.

Definition newline : string := Console.newline.

Definition raw_header : string :=
  "System,Charge,Salt_Weight_Fraction,Conductivity_S_cm" ++ newline.

(** Source line 168. *)
Definition raw_line (system : string) (d : dataset) (xi si : R) : string :=
  system ++ "," ++ str_int (charge d) ++ "," ++ format_f 2 (Fin xi)
  ++ "," ++ format_e 3 (Fin si) ++ newline.

(** The [f.write] calls of source lines 166-168, in order. *)
Definition raw_lines (reg : registry) : list string :=
  flat_map
    (fun entry : string * dataset =>
       let (system, d) := entry in
       map (fun p => raw_line system d (fst p) (snd p))
           (combine (x d) (sigma d)))
    reg.

Definition params_header : string :=
  "System,Charge,A,B,VPI,RMSE_S_cm,R2" ++ newline.

(** Source lines 174-175. *)
Definition params_line (row : fit_row) : string :=
  row_system row ++ "," ++ str_int (row_charge row)
  ++ "," ++ format_f 4 (Fin (row_A row))
  ++ "," ++ format_f 4 (Fin (row_B row))
  ++ "," ++ format_f 2 (row_vpi row)
  ++ "," ++ format_e 3 (row_rmse row)
  ++ "," ++ format_f 3 (row_r2 row) ++ newline.

Definition params_lines (table : list fit_row) : list string :=
  map params_line table.

(** A text file is the concatenation of what was written to it. *)
Definition file_text (header : string) (lines : list string) : string :=
  header ++ String.concat "" lines.

Definition raw_csv (reg : registry) : string :=
  file_text raw_header (raw_lines reg).

Definition params_csv (table : list fit_row) : string :=
  file_text params_header (params_lines table).

(** The UTF-8 bytes of the bullet that starts the last two prints. *)
Definition bullet : string :=
  String (ascii_of_nat 226) (String (ascii_of_nat 128)
    (String (ascii_of_nat 162) "")).

Definition closing_lines : list string :=
  [ newline ++ "SI FILES GENERATED (NO PANDAS REQUIRED):";
    bullet ++ " SI_Raw_Digitized_Data.csv";
    bullet ++ " SI_Fitted_Parameters_and_VPI.csv" ].

End SIExport.

(** ** The whole script *)

Inductive file_content : Type :=
| Text (s : string)
| Figure (cmds : list plot_cmd).

(** What a run leaves behind: the printed lines and the files written,
    both in order. *)
Record world : Type := {
  printed : list string;
  files : list (string * file_content)
}.

Definition figure_file : string := "Fig1_Salt_Resolved_Conductivity_FINAL.svg".
Definition raw_file : string := "SI_Raw_Digitized_Data.csv".
Definition params_file : string := "SI_Fitted_Parameters_and_VPI.csv".

(** The script over an arbitrary registry. *)
Definition script (ext : externals) (reg : registry) : outcome world :=
  match fitting_loop ext reg initial_state with
  | Aborted st e => Aborted {| printed := stdout st; files := [] |} e
  | Finished st =>
      let out := stdout st ++ [Console.rule "="] in
      match plot_loop reg (fit_table st) [] with
      | Raise e => Aborted {| printed := out; files := [] |} e
      | Ok fig =>
          Finished
            {| printed := out ++ SIExport.closing_lines;
               files :=
                 [ (figure_file, Figure fig);
                   (raw_file, Text (SIExport.raw_csv reg));
                   (params_file, Text (SIExport.params_csv (fit_table st))) ] |}
      end
  end.

(** The script as it is: run on its literal data. *)
Definition main (ext : externals) : outcome world := script ext data_registry.

(** The text of a file of a finished run. *)
Definition file_of (w : world) (name : string) : option string :=
  match lookup name (files w) with
  | Some (Text s) => Some s
  | _ => None
  end.

(** ** Reading the exports back

    The script has no reader.  The round trip of its description is
    stated against this one: a file is split into lines and a line into
    comma-separated fields, and a numeric field is read as Python's
    [float] reads it. *)

Module CsvReader.

Local Open Scope string_scope.

(** The value of a decimal digit: its code point counted from that of
    the digit zero. *)
Definition digit_val (c : ascii) : option Z :=
  let n := (Z.of_N (N_of_ascii c) - 48)%Z in
  if ((0 <=? n) && (n <? 10))%Z then Some n else None.

Fixpoint parse_digits (s : string) (acc : Z) : option Z :=
  match s with
  | "" => Some acc
  | String c s' =>
      match digit_val c with
      | Some d => parse_digits s' (10 * acc + d)
      | None => None
      end
  end.

(** A non-empty run of decimal digits. *)
Definition parse_nat (s : string) : option Z :=
  match s with
  | "" => None
  | _ => parse_digits s 0
  end.

(** The text before and after the first occurrence of [c]. *)
Fixpoint split_first (c : ascii) (s : string) : option (string * string) :=
  match s with
  | "" => None
  | String a s' =>
      if Ascii.eqb a c then Some ("", s')
      else
        match split_first c s' with
        | Some (l, r) => Some (String a l, r)
        | None => None
        end
  end.

(** [s.split(c)] *)
Fixpoint split_on (c : ascii) (s : string) : list string :=
  match s with
  | "" => [""]
  | String a s' =>
      if Ascii.eqb a c then "" :: split_on c s'
      else
        match split_on c s' with
        | h :: t => String a h :: t
        | [] => [String a ""]
        end
  end.

(** An optional sign followed by the rest. *)
Definition strip_sign (s : string) : bool * string :=
  match s with
  | String "-" s' => (true, s')
  | String "+" s' => (false, s')
  | _ => (false, s)
  end.

(** [digits] or [digits.digits], unsigned. *)
Definition parse_decimal (s : string) : option R :=
  match split_first "." s with
  | None => option_map IZR (parse_nat s)
  | Some (ip, fp) =>
      match parse_nat ip, parse_nat fp with
      | Some i, Some f => Some (IZR i + IZR f / 10 ^ String.length fp)
      | _, _ => None
      end
  end.

Definition apply_sign (negative : bool) (r : R) : R :=
  if negative then - r else r.

Definition parse_int (s : string) : option Z :=
  let (negative, body) := strip_sign s in
  option_map (fun n => if negative then (- n)%Z else n) (parse_nat body).

(** [float(s)] for the texts that Python's float formatting produces. *)
Definition parse_float (s : string) : option npfloat :=
  if String.eqb s "nan" then Some NaN
  else if String.eqb s "inf" then Some (Inf false)
  else if String.eqb s "-inf" then Some (Inf true)
  else
    let (negative, body) := strip_sign s in
    match split_first "e" body with
    | None => option_map (fun r => Fin (apply_sign negative r)) (parse_decimal body)
    | Some (mant, ex) =>
        match parse_decimal mant, parse_int ex with
        | Some m, Some e => Some (Fin (apply_sign negative (m * powerRZ 10 e)))
        | _, _ => None
        end
    end.

(** A record of the raw file: the two text columns as they are, the two
    numeric columns read back. *)
Definition raw_record : Type := (string * string * npfloat * npfloat)%type.

Definition parse_raw_line (line : string) : option raw_record :=
  match split_on "," line with
  | [system; chg; frac; cond] =>
      match parse_float frac, parse_float cond with
      | Some f, Some c => Some (system, chg, f, c)
      | _, _ => None
      end
  | _ => None
  end.

Fixpoint parse_all {A B : Type} (f : A -> option B) (l : list A)
  : option (list B) :=
  match l with
  | [] => Some []
  | a :: l' =>
      match f a, parse_all f l' with
      | Some b, Some bs => Some (b :: bs)
      | _, _ => None
      end
  end.

(** The lines of a text that ends each line with a newline. *)
Definition lines_of (text : string) : list string :=
  removelast (split_on (ascii_of_nat 10) text).

(** The records of a raw file: the header line is checked and dropped. *)
Definition parse_raw_csv (text : string) : option (list raw_record) :=
  match lines_of text with
  | header :: rows =>
      if String.eqb header "System,Charge,Salt_Weight_Fraction,Conductivity_S_cm"
      then parse_all parse_raw_line rows
      else None
  | [] => None
  end.

End CsvReader.

(** ** Vocabulary of the statements about texts *)

Section TextVocabulary.

Local Open Scope string_scope.

Import CsvReader.

(** Every character of a string satisfies a test. *)
Fixpoint all_chars (p : ascii -> bool) (s : string) : bool :=
  match s with
  | "" => true
  | String c s' => p c && all_chars p s'
  end.

Definition is_not (c : ascii) : ascii -> bool := fun a => negb (Ascii.eqb a c).

Definition is_digit (c : ascii) : bool :=
  match digit_val c with Some _ => true | None => false end.

Definition newline_char : ascii := ascii_of_nat 10.

(** A character that can stand inside a field of a line: neither the
    separator nor the end of the line. *)
Definition field_char (c : ascii) : bool :=
  is_not "," c && is_not newline_char c.

(** A system name that can be told from its neighbours in a line. *)
Definition name_ok (s : string) : bool := all_chars field_char s.

(** The characters of a formatted finite number. *)
Definition numeric_char (c : ascii) : bool :=
  is_digit c || Ascii.eqb c "." || Ascii.eqb c "-" || Ascii.eqb c "+"
  || Ascii.eqb c "e".

(** A line of the raw file without its newline. *)
Definition raw_line_body (system : string) (d : dataset) (xi si : R)
  : string :=
  system ++ "," ++ str_int (charge d) ++ "," ++ format_f 2 (Fin xi)
  ++ "," ++ format_e 3 (Fin si).

(** The (dataset, point) pairs of the export loop, in its order. *)
Definition points (reg : registry) : list (string * dataset * R * R) :=
  flat_map
    (fun entry : string * dataset =>
       map (fun p => (fst entry, snd entry, fst p, snd p))
           (combine (x (snd entry)) (sigma (snd entry))))
    reg.

Definition point_body (pt : string * dataset * R * R) : string :=
  let '(system, d, xi, si) := pt in raw_line_body system d xi si.

(** A record read back agrees with the point it was written from: the
    fraction to half a hundredth, the conductivity to half a thousandth
    of the number relative to it. *)
Definition agrees (pt : string * dataset * R * R) (rec : raw_record) : Prop :=
  let '(system, d, xi, si) := pt in
  exists x' s',
    rec = (system, str_int (charge d), Fin x', Fin s') /\
    Rabs (x' - xi) <= 0.005 /\
    Rabs (s' - si) <= 0.0005 * Rabs si.

End TextVocabulary.

(** ** One iteration of the fitting loop, seen from outside *)

Section PerEntry.

Variable ext : externals.

(** Whether the iteration for an entry runs to its end. *)
Definition entry_ok (entry : string * dataset) : bool :=
  let (system, d) := entry in
  if fit d then
    match fit_dataset ext system d with Ok _ => true | Raise _ => false end
  else true.

(** What the iteration appends to [fit_table]. *)
Definition entry_rows (entry : string * dataset) : list fit_row :=
  let (system, d) := entry in
  if fit d then
    match fit_dataset ext system d with Ok row => [row] | Raise _ => [] end
  else [].

(** What the iteration prints. *)
Definition entry_lines (entry : string * dataset) : list string :=
  let (system, d) := entry in
  if fit d then
    match fit_dataset ext system d with
    | Ok row => [Console.fitted_line row]
    | Raise _ => []
    end
  else [Console.placeholder_line system].

(** What the iteration appends to [raw_data_table]. *)
Definition entry_raw (entry : string * dataset) : list raw_row :=
  raw_rows (fst entry) (snd entry).

(** The state after the iterations for [done], all run to their end. *)
Definition after (done : registry) (st : state) : state :=
  {| fit_table := fit_table st ++ flat_map entry_rows done;
     raw_data_table := raw_data_table st ++ flat_map entry_raw done;
     stdout := stdout st ++ flat_map entry_lines done |}.

(** The state in which a failing iteration leaves the loop: the raw rows
    of the failing dataset are already appended, nothing else. *)
Definition stopped_at (pre : registry) (entry : string * dataset)
  (st : state) : state :=
  let st' := after pre st in
  {| fit_table := fit_table st';
     raw_data_table := raw_data_table st' ++ entry_raw entry;
     stdout := stdout st' |}.

(** Whether the plotting iteration for an entry runs to its end, given
    the table of fitted rows. *)
Definition entry_plot_ok (table : list fit_row) (entry : string * dataset)
  : bool :=
  let (system, d) := entry in
  match lookup (valency d) markers, lookup system colors with
  | Some _, Some _ =>
      Nat.eqb (List.length (x d)) (List.length (sigma d))
      && (negb (fit d)
          || existsb (fun r => String.eqb (row_system r) system) table)
  | _, _ => false
  end.

(** What the plotting iteration for an entry draws. *)
Definition entry_plot (table : list fit_row) (entry : string * dataset)
  : list plot_cmd :=
  let (system, d) := entry in
  match lookup (valency d) markers, lookup system colors with
  | Some marker, Some color =>
      Scatter (x d) (sigma d) marker color system
      :: (if fit d then
            match find (fun r => String.eqb (row_system r) system) table with
            | Some row =>
                [Curve x_smooth
                   (model_array x_smooth (row_A row) (row_B row)) color]
            | None => []
            end
          else [])
  | _, _ => []
  end.

End PerEntry.

(** The table of fitted rows and the world a run leaves when every
    iteration of both loops runs to its end. *)
Definition table_of (ext : externals) (reg : registry) : list fit_row :=
  flat_map (entry_rows ext) reg.

Definition finished_world (ext : externals) (reg : registry) : world :=
  {| printed :=
       (stdout initial_state ++ flat_map (entry_lines ext) reg
        ++ [Console.rule "="]) ++ SIExport.closing_lines;
     files :=
       [ (figure_file, Figure (flat_map (entry_plot (table_of ext reg)) reg));
         (raw_file, Text (SIExport.raw_csv reg));
         (params_file, Text (SIExport.params_csv (table_of ext reg))) ] |}.

(** ** Stand-ins for the libraries, to run the script on *)

Module Demo.

(** A solver that returns its initial guess moved into the box of the
    bounds, and raises when the box is empty. *)
Definition clamp (lo hi v : R) : R := Rmax lo (Rmin hi v).

Definition curve_fit_clamp
  (f : list R -> R -> R -> list npfloat) (xs ys : list R)
  (guess : R * R) (b : bounds) (cap : Z) : result (R * R) :=
  let '((loA, loB), (hiA, hiB)) := b in
  if Rle_dec loA hiA then
    if Rle_dec loB hiB then
      Ok (clamp loA hiA (fst guess), clamp loB hiB (snd guess))
    else Raise (LibraryError "infeasible bounds")
  else Raise (LibraryError "infeasible bounds").

Definition ext_clamp : externals :=
  {| curve_fit := curve_fit_clamp;
     mean_squared_error := fun _ _ => Ok (Fin 0);
     r2_score := fun _ _ => Ok (Fin 1) |}.

(** A solver that finds [A = 0.3], [B = 0.1] whatever the data. *)
Definition ext_third : externals :=
  {| curve_fit := fun _ _ _ _ _ _ => Ok (0.3, 0.1);
     mean_squared_error := fun _ _ => Ok (Fin 0);
     r2_score := fun _ _ => Ok (Fin 1) |}.

(** A solver that does not converge on data of four points. *)
Definition ext_diverge : externals :=
  {| curve_fit := fun f xs ys guess b cap =>
       if Nat.eqb (List.length xs) 4
       then Raise (LibraryError "Optimal parameters not found")
       else curve_fit_clamp f xs ys guess b cap;
     mean_squared_error := fun _ _ => Ok (Fin 0);
     r2_score := fun _ _ => Ok (Fin 1) |}.

End Demo.

(** ** Vocabulary of the further statements *)

Section FurtherVocabulary.

Local Open Scope string_scope.

(** The value of a finite numpy scalar, 0 for the others. *)
Definition value_of (v : npfloat) : R :=
  match v with Fin r => r | _ => 0 end.

(** Where the curve of the model peaks, for [B > 0]. *)
Definition peak (t B : R) : R := x_c + t / B.

End FurtherVocabulary.

(** ** More stand-ins, to run the script on *)

Module MoreDemo.

Local Open Scope string_scope.

Definition licl_short : dataset :=
  {| valency := "Monovalent"; charge := 1;
     x := [0.10; 0.20]; sigma := [4.98e-7; 3.55e-6]; fit := true |}.

Definition alcl3 : dataset :=
  {| valency := "Trivalent"; charge := 3;
     x := [0.30]; sigma := [1.0e-5]; fit := false |}.

Definition kcl : dataset :=
  {| valency := "Monovalent"; charge := 1;
     x := [0.30]; sigma := [1.0e-5]; fit := false |}.

(** A registry with a dataset of a valency that has no marker. *)
Definition reg_trivalent : registry :=
  [ ("LiCl (Li+)", licl_short); ("AlCl3 (Al3+)", alcl3) ].

(** A registry with a system that has no color. *)
Definition reg_unlisted : registry := [ ("KCl (K+)", kcl) ].

(** A solver that returns [A = 0]. *)
Definition ext_zero : externals :=
  {| curve_fit := fun _ _ _ _ _ _ => Ok (0, 0.5);
     mean_squared_error := fun _ _ => Ok (Fin 0);
     r2_score := fun _ _ => Ok (Fin 1) |}.

(** Metrics that refuse their input. *)
Definition ext_metric_fails : externals :=
  {| curve_fit := fun _ _ _ _ _ _ => Ok (0.3, 0.1);
     mean_squared_error := fun _ _ => Raise (LibraryError "Input contains NaN.");
     r2_score := fun _ _ => Ok (Fin 1) |}.

End MoreDemo.

(** Everything the iterations of the two loops need from an entry to run
    to their end. *)
Definition entry_runs (ext : externals) (entry : string * dataset) : Prop :=
  let (system, d) := entry in
  (fit d = true -> exists row, fit_dataset ext system d = Ok row) /\
  lookup (valency d) markers <> None /\
  lookup system colors <> None /\
  List.length (x d) = List.length (sigma d).

(** What has been printed when the plotting starts. *)
Definition table_printed (ext : externals) (reg : registry) : list string :=
  (stdout initial_state ++ flat_map (entry_lines ext) reg)
  ++ [Console.rule "="].


Section LineVocabulary.

Local Open Scope string_scope.

(** The number of points of a dataset that [zip] pairs up. *)
Definition zipped (d : dataset) : nat :=
  Nat.min (List.length (x d)) (List.length (sigma d)).

End LineVocabulary.


(** ** Reading the parameters file back

    The reader of the raw file, for the seven columns of the parameters
    file: the charge is read as an integer, the five numbers as floats. *)

Module ParamsReader.

Local Open Scope string_scope.

Import CsvReader.

Definition params_record : Type :=
  (string * Z * npfloat * npfloat * npfloat * npfloat * npfloat)%type.

Definition parse_params_line (line : string) : option params_record :=
  match split_on "," line with
  | [system; chg; a; b; v; rm; r2] =>
      match parse_int chg, parse_float a, parse_float b,
            parse_float v, parse_float rm, parse_float r2 with
      | Some c, Some fa, Some fb, Some fv, Some frm, Some fr2 =>
          Some (system, c, fa, fb, fv, frm, fr2)
      | _, _, _, _, _, _ => None
      end
  | _ => None
  end.

Definition parse_params_csv (text : string) : option (list params_record) :=
  match lines_of text with
  | header :: rows =>
      if String.eqb header "System,Charge,A,B,VPI,RMSE_S_cm,R2"
      then parse_all parse_params_line rows
      else None
  | [] => None
  end.

End ParamsReader.

Section RoundingVocabulary.

Local Open Scope string_scope.

(** A value read back from a text with [p] decimals: a finite value is
    met to half a unit of the last decimal, the others exactly. *)
Definition close_f (p : nat) (v v' : npfloat) : Prop :=
  match v, v' with
  | Fin r, Fin r' => Rabs (r' - r) <= / 2 / 10 ^ p
  | Inf n, Inf n' => n = n'
  | NaN, NaN => True
  | _, _ => False
  end.

(** The same for a text in scientific notation with [p] decimals in the
    mantissa: the bound is relative to the value. *)
Definition close_e (p : nat) (v v' : npfloat) : Prop :=
  match v, v' with
  | Fin r, Fin r' => Rabs (r' - r) <= / 2 / 10 ^ p * Rabs r
  | Inf n, Inf n' => n = n'
  | NaN, NaN => True
  | _, _ => False
  end.

(** A record of the parameters file agrees with the row it was written
    from. *)
Definition agrees_row (row : fit_row) (rec : ParamsReader.params_record)
  : Prop :=
  let '(system, chg, a, b, v, rm, r2) := rec in
  system = row_system row /\ chg = row_charge row /\
  close_f 4 (Fin (row_A row)) a /\ close_f 4 (Fin (row_B row)) b /\
  close_f 2 (row_vpi row) v /\ close_e 3 (row_rmse row) rm /\
  close_f 3 (row_r2 row) r2.

(** A line of the parameters file without its newline. *)
Definition params_line_body (row : fit_row) : string :=
  row_system row ++ "," ++ str_int (row_charge row)
  ++ "," ++ format_f 4 (Fin (row_A row))
  ++ "," ++ format_f 4 (Fin (row_B row))
  ++ "," ++ format_f 2 (row_vpi row)
  ++ "," ++ format_e 3 (row_rmse row)
  ++ "," ++ format_f 3 (row_r2 row).

(** A number with at most [p] decimals. *)
Definition decimals (p : nat) (r : R) : Prop :=
  exists z : Z, r * 10 ^ p = IZR z.

(** A number with at most [p + 1] significant digits: zero, or a mantissa
    of [p + 1] digits times a power of ten. *)
Definition significant (p : nat) (r : R) : Prop :=
  r = 0 \/
  exists m e : Z,
    (10 ^ Z.of_nat p <= m < 10 ^ Z.of_nat (S p))%Z /\
    Rabs r = IZR m * powerRZ 10 e.

(** The record a point is read back as when nothing is lost. *)
Definition exact_record (pt : string * dataset * R * R)
  : CsvReader.raw_record :=
  let '(system, d, xi, si) := pt in
  (system, str_int (charge d), Fin xi, Fin si).

End RoundingVocabulary.

(** ** The range of float64

    The evaluator is embedded over exact reals.  float64 follows it up to
    rounding as long as no intermediate result leaves the range of the
    format: [np.exp] gives [inf] above 709.78 and [0.0] below -745.13, a
    power or a product gives [inf] above 1.797e308 and [0.0] below
    4.94e-324.  The statements about the values of the evaluator are made
    inside the range below, where every intermediate result is 0 or has
    a magnitude between 1e-300 and 1e300 ([float64_range_normal]). *)

Section RangeVocabulary.

(** Zero, or a magnitude between 1e-30 and 1e30. *)
Definition moderate (r : R) : Prop := r = 0 \/ 1e-30 <= Rabs r <= 1e30.

(** Zero, or a magnitude that float64 holds as a normal number. *)
Definition normal_or_zero (r : R) : Prop :=
  r = 0 \/ 1e-300 <= Rabs r <= 1e300.

(** Arguments of the evaluator for which float64 neither overflows nor
    underflows: the base of the power and the prefactor are moderate and
    the argument of the exponential is at most 200 in magnitude. *)
Definition float64_range (x A B : R) : Prop :=
  moderate (x - x_c) /\ moderate A /\ Rabs (B * x) <= 200.

(** Parameters inside the box that the script passes to the solver. *)
Definition in_fit_bounds (A B : R) : Prop :=
  fst (fst fit_bounds) <= A <= fst (snd fit_bounds) /\
  snd (fst fit_bounds) <= B <= snd (snd fit_bounds).

(** The formula of the description, [A * (x - x_c)^t * exp(-B * x)] with
    [x_c = 0.05] and [t = 4.5], the power 4.5 written as the fourth power
    times the square root. *)
Definition spec_closed_form (x A B : R) : R :=
  A * ((x - 0.05) ^ 4 * sqrt (x - 0.05)) * exp (- B * x).

(** A string of ASCII characters: one byte each, so that its length in
    bytes is the number of characters that Python pads. *)
Definition ascii_only (s : string) : bool :=
  all_chars (fun c => (N_of_ascii c <? 128)%N) s.

(** A row of [raw_data_table] written the way source line 168 writes a
    point, without the newline. *)
Definition raw_row_body (row : raw_row) : string :=
  (let '(system, chg, xi, si) := row in
   system ++ "," ++ str_int chg ++ "," ++ format_f 2 (Fin xi)
   ++ "," ++ format_e 3 (Fin si))%string.

(** The name of the system in a record of the parameters file. *)
Definition record_system (rec : ParamsReader.params_record) : string :=
  let '(system, _, _, _, _, _, _) := rec in system.

(** The columns A, B and VPI of a record of the parameters file. *)
Definition record_A (rec : ParamsReader.params_record) : npfloat :=
  let '(_, _, a, _, _, _, _) := rec in a.

Definition record_B (rec : ParamsReader.params_record) : npfloat :=
  let '(_, _, _, b, _, _, _) := rec in b.

Definition record_VPI (rec : ParamsReader.params_record) : npfloat :=
  let '(_, _, _, _, v, _, _) := rec in v.

End RangeVocabulary.


(** ** Properties of the model evaluator *)

Section ModelFacts.

Lemma np_power_pos (b t : R) : 0 < b -> np_power b t = Fin (Rpower b t).
Proof.
  intros Hb. unfold np_power.
  destruct (total_order_T 0 b) as [[H | H] | H]; [reflexivity | lra | lra].
Qed.

Lemma np_power_zero (t : R) : 0 < t -> np_power 0 t = Fin 0.
Proof.
  intros Ht. unfold np_power.
  destruct (total_order_T 0 0) as [[H | H] | H]; try lra.
  destruct (total_order_T 0 t) as [[H' | H'] | H']; [reflexivity | lra | lra].
Qed.




(** Above the threshold the model is the real closed form. *)
Lemma model_above (x A B : R) :
  x_c < x ->
  model x A B = Fin (A * Rpower (x - x_c) t_default * exp (- B * x)).
Proof.
  intros Hx. unfold model, percolation_model_fixed_t, np_exp.
  rewrite np_power_pos by lra. reflexivity.
Qed.

Lemma model_at_threshold (A B : R) : model x_c A B = Fin 0.
Proof.
  unfold model, percolation_model_fixed_t, np_exp.
  replace (x_c - x_c) with 0 by lra.
  rewrite np_power_zero by (unfold t_default; lra).
  simpl. f_equal. ring.
Qed.


(** [y ** 4.5] is [y^4 * sqrt y] for a positive base. *)
Lemma Rpower_t_default (y : R) :
  0 < y -> Rpower y t_default = y ^ 4 * sqrt y.
Proof.
  intros Hy. unfold t_default.
  replace 4.5 with (INR 4 + / 2) by (simpl; lra).
  rewrite Rpower_plus, Rpower_pow, Rpower_sqrt by assumption.
  reflexivity.
Qed.

Lemma model_value_pos (x A B : R) :
  x_c < x -> 0 < A ->
  0 < A * Rpower (x - x_c) t_default * exp (- B * x).
Proof.
  intros Hx HA.
  apply Rmult_lt_0_compat; [apply Rmult_lt_0_compat |]; try assumption.
  - unfold Rpower. apply exp_pos.
  - apply exp_pos.
Qed.

End ModelFacts.

(** ** The fitting loop *)

Section LoopFacts.

Variable ext : externals.

Lemma after_nil (st : state) : after ext [] st = st.
Proof.
  destruct st. unfold after. simpl. now rewrite !app_nil_r.
Qed.

Lemma after_cons (entry : string * dataset) (rest : registry) (st : state) :
  after ext (entry :: rest) st = after ext rest (after ext [entry] st).
Proof.
  unfold after. simpl. rewrite !app_nil_r, <- !app_assoc. reflexivity.
Qed.

Lemma after_app (pre rest : registry) (st : state) :
  after ext (pre ++ rest) st = after ext rest (after ext pre st).
Proof.
  unfold after. simpl. rewrite !flat_map_app, !app_assoc. reflexivity.
Qed.

(** The fields of a row come from the call that made it. *)
Lemma fit_dataset_row (system : string) (d : dataset) (row : fit_row) :
  fit_dataset ext system d = Ok row ->
  row_system row = system /\ row_charge row = charge d /\
  row_vpi row = np_divide (row_B row) (row_A row) /\
  curve_fit ext model_array (x d) (sigma d) p0 fit_bounds maxfev
  = Ok (row_A row, row_B row).
Proof.
  unfold fit_dataset, bind.
  destruct (curve_fit ext model_array (x d) (sigma d) p0 fit_bounds maxfev)
    as [[A B] | e]; [| discriminate].
  destruct (mean_squared_error ext (sigma d) (model_array (x d) A B))
    as [mse | e]; [| discriminate].
  destruct (r2_score ext (sigma d) (model_array (x d) A B))
    as [r2 | e]; [| discriminate].
  intros H. injection H as <-. simpl. repeat split; reflexivity.
Qed.

Lemma fit_dataset_solver_raises (system : string) (d : dataset) (e : exception) :
  curve_fit ext model_array (x d) (sigma d) p0 fit_bounds maxfev = Raise e ->
  fit_dataset ext system d = Raise e.
Proof. intros H. unfold fit_dataset. now rewrite H. Qed.

(** An iteration that runs to its end takes [st] to [after [entry] st]. *)
Lemma fitting_loop_step (entry : string * dataset) (rest : registry)
  (st : state) :
  entry_ok ext entry = true ->
  fitting_loop ext (entry :: rest) st
  = fitting_loop ext rest (after ext [entry] st).
Proof.
  destruct entry as [system d]. unfold after, entry_ok. simpl.
  destruct (fit d); simpl.
  - destruct (fit_dataset ext system d) as [row | e]; [| discriminate].
    intros _. simpl. now rewrite !app_nil_r.
  - intros _. now rewrite !app_nil_r.
Qed.

Lemma fitting_loop_app (pre rest : registry) (st : state) :
  forallb (entry_ok ext) pre = true ->
  fitting_loop ext (pre ++ rest) st
  = fitting_loop ext rest (after ext pre st).
Proof.
  revert st. induction pre as [| entry pre IH]; intros st Hok.
  - now rewrite after_nil.
  - simpl in Hok. apply andb_prop in Hok as [Hentry Hpre].
    rewrite <- app_comm_cons, fitting_loop_step by assumption.
    rewrite IH by assumption. now rewrite <- after_cons.
Qed.

Lemma fitting_loop_all_ok (reg : registry) (st : state) :
  forallb (entry_ok ext) reg = true ->
  fitting_loop ext reg st = Finished (after ext reg st).
Proof.
  intros Hok. rewrite <- (app_nil_r reg) at 1.
  now rewrite fitting_loop_app.
Qed.

Lemma fitting_loop_failure (pre post : registry) (system : string)
  (d : dataset) (e : exception) (st : state) :
  forallb (entry_ok ext) pre = true ->
  fit d = true ->
  fit_dataset ext system d = Raise e ->
  fitting_loop ext (pre ++ (system, d) :: post) st
  = Aborted (stopped_at ext pre (system, d) st) e.
Proof.
  intros Hpre Hfit Hraise. rewrite fitting_loop_app by assumption.
  simpl. rewrite Hfit, Hraise. reflexivity.
Qed.

(** A registry either has all its iterations run to their end, or has a
    first one that raises. *)
Lemma first_failure (reg : registry) :
  forallb (entry_ok ext) reg = true \/
  exists pre system d post e,
    reg = pre ++ (system, d) :: post /\
    forallb (entry_ok ext) pre = true /\
    fit d = true /\ fit_dataset ext system d = Raise e.
Proof.
  induction reg as [| [system d] reg IH]; [now left |].
  simpl. destruct (fit d) eqn:Hfit.
  - destruct (fit_dataset ext system d) as [row | e] eqn:Hrow.
    + destruct IH as [Hok | (pre & s' & d' & post & e & -> & Hpre & Hf & Hr)].
      * now left.
      * right. exists ((system, d) :: pre), s', d', post, e.
        repeat split; try assumption.
        simpl. now rewrite Hfit, Hrow.
    + right. exists [], system, d, reg, e. repeat split; assumption.
  - destruct IH as [Hok | (pre & s' & d' & post & e & -> & Hpre & Hf & Hr)].
    + now left.
    + right. exists ((system, d) :: pre), s', d', post, e.
      repeat split; try assumption.
      simpl. now rewrite Hfit.
Qed.

Lemma fitting_loop_finished_inv (reg : registry) (st st' : state) :
  fitting_loop ext reg st = Finished st' ->
  forallb (entry_ok ext) reg = true /\ st' = after ext reg st.
Proof.
  intros Hrun.
  destruct (first_failure reg)
    as [Hok | (pre & s & d & post & e & -> & Hpre & Hf & Hr)].
  - rewrite fitting_loop_all_ok in Hrun by assumption.
    injection Hrun as <-. now split.
  - rewrite (fitting_loop_failure pre post s d e) in Hrun by assumption.
    discriminate.
Qed.

End LoopFacts.

(** ** The plotting loop *)

Section PlotFacts.

Lemma plot_loop_step (table : list fit_row) (entry : string * dataset)
  (rest : registry) (fig : list plot_cmd) :
  entry_plot_ok table entry = true ->
  plot_loop (entry :: rest) table fig
  = plot_loop rest table (fig ++ entry_plot table entry).
Proof.
  destruct entry as [system d]. unfold entry_plot_ok, entry_plot.
  cbn [plot_loop]. unfold getitem, scatter, next_row.
  destruct (lookup (valency d) markers) as [marker |]; [| discriminate].
  destruct (lookup system colors) as [color |]; [| discriminate].
  cbn [bind]. intros H. apply andb_prop in H as [Hlen Hrow].
  rewrite Hlen. cbn [bind]. destruct (fit d); cbn [negb orb] in Hrow.
  - destruct (find (fun r => String.eqb (row_system r) system) table)
      as [row |] eqn:Hfind; [reflexivity |].
    apply existsb_exists in Hrow as (r & Hin & Hr).
    now rewrite (find_none _ _ Hfind r Hin) in Hr.
  - reflexivity.
Qed.

Lemma plot_loop_step_fails (table : list fit_row) (entry : string * dataset)
  (rest : registry) (fig : list plot_cmd) :
  entry_plot_ok table entry = false ->
  exists e, plot_loop (entry :: rest) table fig = Raise e.
Proof.
  destruct entry as [system d]. unfold entry_plot_ok.
  cbn [plot_loop]. unfold getitem, scatter, next_row.
  destruct (lookup (valency d) markers) as [marker |]; [| now eexists].
  destruct (lookup system colors) as [color |]; [| now eexists].
  cbn [bind]. intros H. apply andb_false_iff in H as [Hlen | Hrow].
  - rewrite Hlen. now eexists.
  - destruct (Nat.eqb _ _); [| now eexists]. cbn [bind].
    apply orb_false_iff in Hrow as [Hfit Hrow].
    apply negb_false_iff in Hfit. rewrite Hfit.
    destruct (find (fun r => String.eqb (row_system r) system) table)
      as [row |] eqn:Hfind; [| now eexists].
    apply find_some in Hfind as [Hin Hr].
    assert (Hex : existsb (fun r => String.eqb (row_system r) system) table = true)
      by (apply existsb_exists; now exists row).
    congruence.
Qed.

Lemma plot_loop_all_ok (table : list fit_row) (reg : registry)
  (fig : list plot_cmd) :
  forallb (entry_plot_ok table) reg = true ->
  plot_loop reg table fig = Ok (fig ++ flat_map (entry_plot table) reg).
Proof.
  revert fig. induction reg as [| entry reg IH]; intros fig Hok.
  - simpl. now rewrite app_nil_r.
  - simpl in Hok. apply andb_prop in Hok as [Hentry Hreg].
    rewrite plot_loop_step, IH by assumption.
    simpl. now rewrite <- app_assoc.
Qed.

Lemma plot_loop_ok_inv (table : list fit_row) (reg : registry)
  (fig fig' : list plot_cmd) :
  plot_loop reg table fig = Ok fig' ->
  forallb (entry_plot_ok table) reg = true /\
  fig' = fig ++ flat_map (entry_plot table) reg.
Proof.
  revert fig. induction reg as [| entry reg IH]; intros fig Hrun.
  - cbn in Hrun. injection Hrun as Hrun. subst fig'. cbn.
    now rewrite app_nil_r.
  - destruct (entry_plot_ok table entry) eqn:Hentry.
    + rewrite plot_loop_step in Hrun by assumption.
      apply IH in Hrun as [Hreg ->]. simpl. rewrite Hentry, Hreg.
      now rewrite <- app_assoc.
    + destruct (plot_loop_step_fails table entry reg fig Hentry) as [e He].
      congruence.
Qed.

End PlotFacts.

(** ** The table of fitted rows *)

Section TableFacts.

Variable ext : externals.

Lemma entry_rows_inv (system : string) (d : dataset) (row : fit_row) :
  In row (entry_rows ext (system, d)) ->
  fit d = true /\ fit_dataset ext system d = Ok row /\
  entry_rows ext (system, d) = [row].
Proof.
  unfold entry_rows. destruct (fit d); [| contradiction].
  destruct (fit_dataset ext system d) as [row' | e]; [| contradiction].
  intros [-> | []]. repeat split.
Qed.

Lemma entry_rows_ok (system : string) (d : dataset) :
  fit d = true -> entry_ok ext (system, d) = true ->
  exists row, fit_dataset ext system d = Ok row /\
              entry_rows ext (system, d) = [row].
Proof.
  unfold entry_ok, entry_rows. intros ->.
  destruct (fit_dataset ext system d) as [row | e]; [| discriminate].
  intros _. now exists row.
Qed.

Lemma entry_rows_unfitted (system : string) (d : dataset) :
  fit d = false -> entry_rows ext (system, d) = [].
Proof. unfold entry_rows. now intros ->. Qed.

Lemma table_row_origin (reg : registry) (row : fit_row) :
  In row (table_of ext reg) ->
  exists d, In (row_system row, d) reg /\ fit d = true /\
            fit_dataset ext (row_system row) d = Ok row.
Proof.
  unfold table_of. intros Hin. apply in_flat_map in Hin as ([s d] & Hreg & Hrow).
  apply entry_rows_inv in Hrow as (Hfit & Hcall & _).
  destruct (fit_dataset_row ext s d row Hcall) as (Hsys & _).
  exists d. now rewrite Hsys.
Qed.

Lemma filter_none_other_system (system : string) (rows : list fit_row) :
  (forall r, In r rows -> row_system r <> system) ->
  filter (fun r => String.eqb (row_system r) system) rows = [].
Proof.
  induction rows as [| r rows IH]; intros H; [reflexivity |].
  simpl. destruct (String.eqb_spec (row_system r) system) as [Heq | Hne].
  - exfalso. apply (H r); [now left | assumption].
  - apply IH. intros r' Hr'. apply H. now right.
Qed.

Lemma filter_all_same_system (system : string) (rows : list fit_row) :
  (forall r, In r rows -> row_system r = system) ->
  filter (fun r => String.eqb (row_system r) system) rows = rows.
Proof.
  induction rows as [| r rows IH]; intros H; [reflexivity |].
  simpl. rewrite (proj2 (String.eqb_eq _ _) (H r (or_introl eq_refl))).
  f_equal. apply IH. intros r' Hr'. apply H. now right.
Qed.

Lemma entry_rows_system (system : string) (d : dataset) (r : fit_row) :
  In r (entry_rows ext (system, d)) -> row_system r = system.
Proof.
  intros Hin. apply entry_rows_inv in Hin as (_ & Hcall & _).
  now destruct (fit_dataset_row ext system d r Hcall).
Qed.

(** With distinct keys, the rows of a system in the table are exactly
    those its own iteration appended. *)
Lemma table_filter (reg : registry) (system : string) (d : dataset) :
  dict_keys_unique reg -> In (system, d) reg ->
  filter (fun r => String.eqb (row_system r) system) (table_of ext reg)
  = entry_rows ext (system, d).
Proof.
  unfold dict_keys_unique, table_of.
  induction reg as [| [s0 d0] reg IH]; intros Hnd Hin; [contradiction |].
  simpl in Hnd. inversion Hnd as [| ? ? Hnotin Hnd']; subst.
  simpl. rewrite filter_app. destruct Hin as [Heq | Hin].
  - injection Heq as -> ->.
    rewrite filter_all_same_system
      by (intros r Hr; now apply (entry_rows_system system d)).
    rewrite filter_none_other_system; [now rewrite app_nil_r |].
    intros r Hr Hsys. apply Hnotin.
    destruct (table_row_origin reg r Hr) as (d' & Hd' & _).
    rewrite Hsys in Hd'. now apply (in_map fst) in Hd'.
  - rewrite filter_none_other_system.
    + now apply IH.
    + intros r Hr Hsys. apply Hnotin.
      rewrite <- (entry_rows_system s0 d0 r Hr), Hsys.
      now apply (in_map fst) in Hin.
Qed.

End TableFacts.

(** ** The script as a whole *)

Section ScriptFacts.

Variable ext : externals.

Lemma fit_table_after_initial (reg : registry) :
  fit_table (after ext reg initial_state) = table_of ext reg.
Proof. reflexivity. Qed.

Lemma script_all_ok (reg : registry) :
  forallb (entry_ok ext) reg = true ->
  forallb (entry_plot_ok (table_of ext reg)) reg = true ->
  script ext reg = Finished (finished_world ext reg).
Proof.
  intros Hfit Hplot. unfold script.
  rewrite fitting_loop_all_ok by assumption.
  rewrite fit_table_after_initial.
  rewrite plot_loop_all_ok by assumption.
  unfold finished_world. cbn [stdout after app]. reflexivity.
Qed.

Lemma script_finished_inv (reg : registry) (w : world) :
  script ext reg = Finished w ->
  forallb (entry_ok ext) reg = true /\
  forallb (entry_plot_ok (table_of ext reg)) reg = true /\
  w = finished_world ext reg.
Proof.
  unfold script. intros Hrun.
  destruct (fitting_loop ext reg initial_state) as [st | st e] eqn:Hloop;
    [| discriminate].
  apply fitting_loop_finished_inv in Hloop as [Hfit ->].
  rewrite fit_table_after_initial in Hrun.
  destruct (plot_loop reg (table_of ext reg) []) as [fig | e] eqn:Hplot;
    [| discriminate].
  apply plot_loop_ok_inv in Hplot as [Hplot ->].
  injection Hrun as <-. repeat split; assumption.
Qed.

(** The first fit that raises ends the run: what was printed before is
    all that is left. *)
Lemma script_fit_failure (pre post : registry) (system : string)
  (d : dataset) (e : exception) :
  forallb (entry_ok ext) pre = true ->
  fit d = true ->
  fit_dataset ext system d = Raise e ->
  script ext (pre ++ (system, d) :: post)
  = Aborted
      {| printed := stdout initial_state ++ flat_map (entry_lines ext) pre;
         files := [] |} e.
Proof.
  intros Hpre Hfit Hraise. unfold script.
  rewrite (fitting_loop_failure ext pre post system d e) by assumption.
  reflexivity.
Qed.

End ScriptFacts.

(** ** The stand-in libraries *)

Section DemoFacts.

Import Demo.

Lemma clamp_in_box (lo hi v : R) : lo <= hi -> lo <= clamp lo hi v <= hi.
Proof.
  intros Hbox. unfold clamp, Rmax, Rmin.
  destruct (Rle_dec hi v); destruct (Rle_dec lo _); lra.
Qed.

Lemma clamp_inside (lo hi v : R) : lo <= v <= hi -> clamp lo hi v = v.
Proof.
  intros Hv. unfold clamp, Rmax, Rmin.
  destruct (Rle_dec hi v); destruct (Rle_dec lo _); lra.
Qed.

Lemma ext_clamp_respects_bounds : respects_bounds ext_clamp.
Proof.
  intros f xs ys guess [[loA loB] [hiA hiB]] cap A B. simpl.
  unfold curve_fit_clamp.
  destruct (Rle_dec loA hiA) as [HA |]; [| discriminate].
  destruct (Rle_dec loB hiB) as [HB |]; [| discriminate].
  intros H. injection H as <- <-. split; now apply clamp_in_box.
Qed.

Lemma curve_fit_clamp_script f xs ys :
  curve_fit_clamp f xs ys p0 fit_bounds maxfev = Ok (0.05, 0.5).
Proof.
  unfold curve_fit_clamp, fit_bounds, p0. cbn [fst snd].
  destruct (Rle_dec 1e-4 1.0) as [_ | H]; [| exfalso; lra].
  destruct (Rle_dec 0.01 10.0) as [_ | H]; [| exfalso; lra].
  rewrite !clamp_inside by lra. reflexivity.
Qed.

Lemma fit_dataset_clamp (system : string) (d : dataset) :
  fit_dataset ext_clamp system d
  = Ok {| row_system := system; row_charge := charge d;
          row_A := 0.05; row_B := 0.5;
          row_vpi := np_divide 0.5 0.05;
          row_rmse := np_sqrt (Fin 0); row_r2 := Fin 1 |}.
Proof.
  unfold fit_dataset. cbn [curve_fit ext_clamp].
  rewrite curve_fit_clamp_script. reflexivity.
Qed.

Lemma entry_ok_clamp (entry : string * dataset) :
  entry_ok ext_clamp entry = true.
Proof.
  destruct entry as [system d]. unfold entry_ok.
  rewrite fit_dataset_clamp. now destruct (fit d).
Qed.

Lemma all_ok_clamp (reg : registry) : forallb (entry_ok ext_clamp) reg = true.
Proof. apply forallb_forall. intros e _. apply entry_ok_clamp. Qed.

Lemma entry_ok_third (entry : string * dataset) :
  entry_ok ext_third entry = true.
Proof. destruct entry as [system d]. unfold entry_ok. now destruct (fit d). Qed.

Lemma all_ok_third (reg : registry) : forallb (entry_ok ext_third) reg = true.
Proof. apply forallb_forall. intros e _. apply entry_ok_third. Qed.

Lemma data_registry_keys_unique : dict_keys_unique data_registry.
Proof.
  unfold dict_keys_unique, data_registry. cbn [map fst].
  repeat (constructor; [cbn [In]; intuition discriminate |]).
  constructor.
Qed.

(** The plotting loop finds a marker and a color for every dataset of the
    script, and a row for every fitted one as soon as the fits succeed. *)
Lemma data_registry_plot_ok (ext : externals) :
  forallb (entry_ok ext) data_registry = true ->
  forallb (entry_plot_ok (table_of ext data_registry)) data_registry = true.
Proof.
  intros Hok. apply forallb_forall. intros [system d] Hin.
  assert (Hentry : entry_ok ext (system, d) = true)
    by (now apply (proj1 (forallb_forall _ _) Hok)).
  assert (Hrow : negb (fit d)
                 || existsb (fun r => String.eqb (row_system r) system)
                      (table_of ext data_registry) = true).
  { destruct (fit d) eqn:Hfit; [| reflexivity]. cbn [negb orb].
    destruct (entry_rows_ok ext system d Hfit Hentry) as (row & Hcall & Hrows).
    apply existsb_exists. exists row. split.
    - unfold table_of. apply in_flat_map. exists (system, d).
      split; [assumption |]. rewrite Hrows. now left.
    - destruct (fit_dataset_row ext system d row Hcall) as [-> _].
      apply String.eqb_refl. }
  unfold entry_plot_ok. revert Hrow.
  generalize (table_of ext data_registry). intros table Hrow.
  unfold data_registry in Hin. cbv [In] in Hin.
  repeat (destruct Hin as [Heq | Hin];
          [ injection Heq as <- <-; cbn [valency x sigma fit] in *;
            cbn [lookup markers colors String.eqb Ascii.eqb Bool.eqb];
            cbn [List.length Nat.eqb andb]; exact Hrow | ]).
  contradiction.
Qed.

End DemoFacts.

(** ** Runs of the script on the stand-in libraries *)

Lemma find_filter_head {A : Type} (f : A -> bool) (l : list A) (a : A) :
  filter f l = [a] -> find f l = Some a.
Proof.
  induction l as [| b l IH]; simpl; [discriminate |].
  destruct (f b); [| exact IH]. now intros [= ->].
Qed.

Lemma script_clamp_finishes :
  main Demo.ext_clamp = Finished (finished_world Demo.ext_clamp data_registry).
Proof.
  apply script_all_ok; [apply all_ok_clamp |].
  apply data_registry_plot_ok, all_ok_clamp.
Qed.

Lemma diverge_on_four_points f (xs ys : list R) :
  List.length xs = 4%nat ->
  curve_fit Demo.ext_diverge f xs ys p0 fit_bounds maxfev
  = Raise (LibraryError "Optimal parameters not found").
Proof. intros H. cbn [curve_fit Demo.ext_diverge]. now rewrite H. Qed.

(** With the solver that fails on four points, the run ends at the
    magnesium dataset: the header and the lines of the three datasets
    before it were printed, and no file exists. *)
Example main_diverge_aborts :
  exists w,
    main Demo.ext_diverge
    = Aborted w (LibraryError "Optimal parameters not found") /\
    files w = [] /\
    List.length (printed w) = 6%nat /\
    nth 4 (printed w) ""%string = Console.placeholder_line "NaN3 (Na+)".
Proof.
  eexists. split.
  - unfold main, data_registry.
    apply (script_fit_failure Demo.ext_diverge
             [ (_, _); (_, _); (_, _) ] [ (_, _) ] "Mg(NO3)2 (Mg2+)").
    + cbn [forallb entry_ok fit]. unfold fit_dataset.
      cbn [curve_fit Demo.ext_diverge x List.length Nat.eqb
           mean_squared_error r2_score bind].
      rewrite !curve_fit_clamp_script. reflexivity.
    + reflexivity.
    + apply fit_dataset_solver_raises, diverge_on_four_points. reflexivity.
  - cbn [files printed]. split; [reflexivity |].
    cbn [flat_map entry_lines fit]. unfold fit_dataset.
    cbn [curve_fit Demo.ext_diverge x List.length Nat.eqb
         mean_squared_error r2_score bind].
    rewrite !curve_fit_clamp_script. split; reflexivity.
Qed.

(** ** Order of the rows *)

Section OrderFacts.

Variable ext : externals.

Lemma forallb_perm {A : Type} (f : A -> bool) (l l' : list A) :
  Permutation l l' -> forallb f l = true -> forallb f l' = true.
Proof.
  intros Hperm Hall. apply forallb_forall. intros a Ha.
  apply (proj1 (forallb_forall f l) Hall).
  apply Permutation_in with (l := l'); [now apply Permutation_sym | exact Ha].
Qed.

Lemma flat_map_ext_in {A B : Type} (f g : A -> list B) (l : list A) :
  (forall a, In a l -> f a = g a) -> flat_map f l = flat_map g l.
Proof.
  induction l as [| a l IH]; intros H; [reflexivity |].
  simpl. rewrite (H a (or_introl eq_refl)), IH; [reflexivity |].
  intros b Hb. apply H. now right.
Qed.

Lemma find_hd_filter {A : Type} (f : A -> bool) (l : list A) :
  find f l = hd_error (filter f l).
Proof.
  induction l as [| a l IH]; [reflexivity |].
  simpl. now destruct (f a).
Qed.

Lemma keys_unique_perm (reg reg' : registry) :
  Permutation reg reg' -> dict_keys_unique reg -> dict_keys_unique reg'.
Proof.
  unfold dict_keys_unique. intros Hperm.
  apply Permutation_NoDup. now apply Permutation_map.
Qed.

(** The row the plotter looks up does not depend on the order. *)
Lemma entry_plot_perm (reg reg' : registry) (entry : string * dataset) :
  dict_keys_unique reg -> Permutation reg reg' -> In entry reg ->
  entry_plot (table_of ext reg) entry = entry_plot (table_of ext reg') entry.
Proof.
  intros Hkeys Hperm Hin. destruct entry as [system d]. unfold entry_plot.
  rewrite !find_hd_filter.
  rewrite (table_filter ext reg system d Hkeys Hin).
  rewrite (table_filter ext reg' system d);
    [reflexivity | now apply (keys_unique_perm reg) |].
  now apply Permutation_in with (l := reg).
Qed.

Lemma entry_plot_ok_perm (table table' : list fit_row)
  (entry : string * dataset) :
  Permutation table table' ->
  entry_plot_ok table entry = true -> entry_plot_ok table' entry = true.
Proof.
  intros Hperm. destruct entry as [system d]. unfold entry_plot_ok.
  destruct (lookup (valency d) markers); [| discriminate].
  destruct (lookup system colors); [| discriminate].
  intros H. apply andb_prop in H as [Hlen Hrow]. rewrite Hlen. cbn [andb].
  apply orb_prop in Hrow as [Hunfit | Hrow]; [now rewrite Hunfit |].
  apply orb_true_intro. right.
  apply existsb_exists in Hrow as (r & Hr & Hsys).
  apply existsb_exists. exists r. split; [| exact Hsys].
  now apply Permutation_in with (l := table).
Qed.

Lemma table_perm (reg reg' : registry) :
  Permutation reg reg' -> Permutation (table_of ext reg) (table_of ext reg').
Proof. intros Hperm. unfold table_of. now apply Permutation_flat_map. Qed.

Lemma raw_lines_perm (reg reg' : registry) :
  Permutation reg reg' ->
  Permutation (SIExport.raw_lines reg) (SIExport.raw_lines reg').
Proof.
  intros Hperm. unfold SIExport.raw_lines. now apply Permutation_flat_map.
Qed.

(** A run over a reordered registry finishes when the run over the
    registry does. *)
Lemma script_perm_finished (reg reg' : registry) (w : world) :
  Permutation reg reg' ->
  script ext reg = Finished w ->
  script ext reg' = Finished (finished_world ext reg').
Proof.
  intros Hperm Hrun.
  apply script_finished_inv in Hrun as (Hok & Hplot & _).
  apply script_all_ok.
  - now apply (forallb_perm _ reg).
  - apply (forallb_perm _ reg); [assumption |].
    apply forallb_forall. intros entry Hin.
    apply (entry_plot_ok_perm (table_of ext reg)); [now apply table_perm |].
    now apply (proj1 (forallb_forall _ _) Hplot).
Qed.

(** The lines the loop prints, one per entry of the registry. *)
Lemma entry_lines_forall2 (reg : registry) :
  forallb (entry_ok ext) reg = true ->
  Forall2
    (fun entry line =>
       (fit (snd entry) = false /\
        line = Console.placeholder_line (fst entry)) \/
       (exists row,
           fit_dataset ext (fst entry) (snd entry) = Ok row /\
           line = Console.fitted_line row))
    reg (flat_map (entry_lines ext) reg).
Proof.
  induction reg as [| [system d] reg IH]; intros Hok; [constructor |].
  simpl in Hok. apply andb_prop in Hok as [Hentry Hreg].
  cbn [flat_map]. unfold entry_lines at 1.
  destruct (fit d) eqn:Hfit.
  - destruct (fit_dataset ext system d) as [row | e] eqn:Hcall;
      [| discriminate].
    constructor; [| now apply IH]. right. exists row. now split.
  - constructor; [| now apply IH]. left. now split.
Qed.

(** The rows of the table, one per fitted entry of the registry. *)
Lemma table_forall2 (reg : registry) :
  forallb (entry_ok ext) reg = true ->
  Forall2
    (fun entry row => fit_dataset ext (fst entry) (snd entry) = Ok row)
    (filter (fun entry => fit (snd entry)) reg) (table_of ext reg).
Proof.
  unfold table_of.
  induction reg as [| [system d] reg IH]; intros Hok; [constructor |].
  simpl in Hok. apply andb_prop in Hok as [Hentry Hreg].
  cbn [flat_map filter snd]. unfold entry_rows at 1.
  destruct (fit d) eqn:Hfit; [| now apply IH].
  destruct (fit_dataset ext system d) as [row | e] eqn:Hcall;
    [| discriminate].
  constructor; [exact Hcall | now apply IH].
Qed.

End OrderFacts.

(** ** Strings *)

Section StringFacts.

Local Open Scope string_scope.

Lemma str_app_assoc (a b c : string) : (a ++ b) ++ c = a ++ (b ++ c).
Proof. induction a as [| ch a IH]; simpl; [reflexivity | now rewrite IH]. Qed.

Lemma str_app_nil_r (a : string) : a ++ "" = a.
Proof. induction a as [| ch a IH]; simpl; [reflexivity | now rewrite IH]. Qed.

Lemma str_length_app (a b : string) :
  String.length (a ++ b) = (String.length a + String.length b)%nat.
Proof. induction a as [| ch a IH]; simpl; [reflexivity | now rewrite IH]. Qed.

Lemma all_chars_app (p : ascii -> bool) (a b : string) :
  all_chars p (a ++ b) = all_chars p a && all_chars p b.
Proof.
  induction a as [| ch a IH]; simpl; [reflexivity |].
  now rewrite IH, andb_assoc.
Qed.

Lemma all_chars_weaken (p q : ascii -> bool) (s : string) :
  (forall c, p c = true -> q c = true) ->
  all_chars p s = true -> all_chars q s = true.
Proof.
  intros Hpq. induction s as [| ch s IH]; simpl; [reflexivity |].
  intros H. apply andb_prop in H as [Hc Hs].
  now rewrite (Hpq ch Hc), IH.
Qed.

Import CsvReader.

Lemma split_first_absent (c : ascii) (s : string) :
  all_chars (is_not c) s = true -> split_first c s = None.
Proof.
  induction s as [| a s IH]; simpl; [reflexivity |].
  unfold is_not at 1. intros H. apply andb_prop in H as [Ha Hs].
  apply negb_true_iff in Ha. now rewrite Ha, IH.
Qed.

Lemma split_first_app (c : ascii) (a b : string) :
  all_chars (is_not c) a = true ->
  split_first c (a ++ String c b) = Some (a, b).
Proof.
  induction a as [| ch a IH]; simpl.
  - now rewrite Ascii.eqb_refl.
  - unfold is_not at 1. intros H. apply andb_prop in H as [Ha Hs].
    apply negb_true_iff in Ha. now rewrite Ha, IH.
Qed.

Lemma split_on_absent (c : ascii) (s : string) :
  all_chars (is_not c) s = true -> split_on c s = [s].
Proof.
  induction s as [| a s IH]; simpl; [reflexivity |].
  unfold is_not at 1. intros H. apply andb_prop in H as [Ha Hs].
  apply negb_true_iff in Ha. now rewrite Ha, IH.
Qed.

Lemma split_on_app (c : ascii) (a b : string) :
  all_chars (is_not c) a = true ->
  split_on c (a ++ String c b) = a :: split_on c b.
Proof.
  induction a as [| ch a IH]; simpl.
  - now rewrite Ascii.eqb_refl.
  - unfold is_not at 1. intros H. apply andb_prop in H as [Ha Hs].
    apply negb_true_iff in Ha. now rewrite Ha, IH.
Qed.

End StringFacts.

(** ** Decimal digits *)

Section DigitFacts.

Local Open Scope string_scope.

Local Open Scope Z_scope.

Import CsvReader.

Lemma digit_cases (d : Z) :
  0 <= d < 10 ->
  d = 0 \/ d = 1 \/ d = 2 \/ d = 3 \/ d = 4 \/
  d = 5 \/ d = 6 \/ d = 7 \/ d = 8 \/ d = 9.
Proof. lia. Qed.

Lemma digit_val_char (d : Z) :
  0 <= d < 10 -> digit_val (digit_char d) = Some d.
Proof.
  intros H. destruct (digit_cases d H) as
    [-> | [-> | [-> | [-> | [-> | [-> | [-> | [-> | [-> | ->]]]]]]]]];
    reflexivity.
Qed.

Lemma is_digit_char (d : Z) : 0 <= d < 10 -> is_digit (digit_char d) = true.
Proof. intros H. unfold is_digit. now rewrite digit_val_char. Qed.

Lemma mod10_range (n : Z) : 0 <= n mod 10 < 10.
Proof. apply Z.mod_pos_bound. lia. Qed.

Lemma digits_all_digit (w : nat) (n : Z) :
  all_chars is_digit (digits w n) = true.
Proof.
  revert n. induction w as [| w IH]; intros n; [reflexivity |].
  cbn [digits]. rewrite all_chars_app, IH. cbn [all_chars andb].
  rewrite is_digit_char by apply mod10_range. reflexivity.
Qed.

Lemma digits_length (w : nat) (n : Z) : String.length (digits w n) = w.
Proof.
  revert n. induction w as [| w IH]; intros n; [reflexivity |].
  cbn [digits]. rewrite str_length_app, IH. simpl. lia.
Qed.

Lemma parse_digits_app (a b : string) (acc : Z) :
  parse_digits (a ++ b) acc
  = match parse_digits a acc with
    | Some v => parse_digits b v
    | None => None
    end.
Proof.
  revert acc. induction a as [| ch a IH]; intros acc; simpl; [reflexivity |].
  destruct (digit_val ch); [apply IH | reflexivity].
Qed.

Lemma parse_digits_digits (w : nat) (n acc : Z) :
  0 <= n ->
  parse_digits (digits w n) acc
  = Some (acc * 10 ^ Z.of_nat w + n mod 10 ^ Z.of_nat w).
Proof.
  revert n. induction w as [| w IH]; intros n Hn.
  - cbn [digits parse_digits]. f_equal. change (10 ^ Z.of_nat 0) with 1.
    rewrite Z.mod_1_r. lia.
  - cbn [digits]. rewrite parse_digits_app, IH by (apply Z.div_pos; lia).
    cbn [parse_digits]. rewrite digit_val_char by apply mod10_range.
    f_equal. rewrite Nat2Z.inj_succ, Z.pow_succ_r by lia.
    assert (Hp : 0 < 10 ^ Z.of_nat w) by (apply Z.pow_pos_nonneg; lia).
    rewrite Z.rem_mul_r by lia.
    lia.
Qed.

Lemma digits_nonempty (w : nat) (n : Z) : (0 < w)%nat -> digits w n <> "".
Proof.
  intros Hw Heq. apply (f_equal String.length) in Heq.
  rewrite digits_length in Heq. simpl in Heq. lia.
Qed.

Lemma parse_nat_digits (w : nat) (n : Z) :
  (0 < w)%nat -> 0 <= n ->
  parse_nat (digits w n) = Some (n mod 10 ^ Z.of_nat w).
Proof.
  intros Hw Hn. unfold parse_nat.
  destruct (digits w n) eqn:Hd; [now apply digits_nonempty in Hd |].
  rewrite <- Hd, parse_digits_digits by assumption. f_equal.
Qed.

Lemma ndigits_fuel_pos (fuel : nat) (n : Z) : (0 < ndigits_fuel fuel n)%nat.
Proof.
  destruct fuel; simpl; [lia |]. destruct (n <? 10); lia.
Qed.

Lemma ndigits_fuel_bound (fuel : nat) (n : Z) :
  0 <= n < 2 ^ Z.of_nat fuel ->
  n < 10 ^ Z.of_nat (ndigits_fuel fuel n).
Proof.
  revert n. induction fuel as [| fuel IH]; intros n Hn.
  - simpl in *. lia.
  - cbn [ndigits_fuel]. destruct (Z.ltb_spec n 10) as [Hlt | Hge].
    + simpl. lia.
    + rewrite Nat2Z.inj_succ, Z.pow_succ_r by lia.
      assert (Hdiv : n / 10 < 10 ^ Z.of_nat (ndigits_fuel fuel (n / 10))).
      { apply IH. split; [apply Z.div_pos; lia |].
        rewrite Nat2Z.inj_succ, Z.pow_succ_r in Hn by lia.
        apply Z.div_lt_upper_bound; lia. }
      pose proof (Z.div_mod n 10 ltac:(lia)) as Hdm.
      pose proof (mod10_range n). lia.
Qed.

Lemma ndigits_pos (n : Z) : (0 < ndigits n)%nat.
Proof. apply ndigits_fuel_pos. Qed.

Lemma ndigits_bound (n : Z) : 0 <= n -> n < 10 ^ Z.of_nat (ndigits n).
Proof.
  intros Hn. apply ndigits_fuel_bound. split; [assumption |].
  destruct (Z.eq_dec n 0) as [-> | Hne]; [simpl; lia |].
  rewrite Nat2Z.inj_succ, Z2Nat.id by apply Z.log2_nonneg.
  apply Z.log2_spec. lia.
Qed.

Lemma parse_nat_str_nat (n : Z) : 0 <= n -> parse_nat (str_nat n) = Some n.
Proof.
  intros Hn. unfold str_nat.
  rewrite parse_nat_digits by (try apply ndigits_pos; assumption).
  f_equal. apply Z.mod_small. split; [assumption | now apply ndigits_bound].
Qed.

Lemma str_nat_all_digit (n : Z) : all_chars is_digit (str_nat n) = true.
Proof. apply digits_all_digit. Qed.

End DigitFacts.

(** ** Rounding *)

Section RoundingFacts.

Lemma floor_bounds (r : R) : IZR (Int_part r) <= r < IZR (Int_part r) + 1.
Proof. destruct (base_Int_part r). lra. Qed.

Lemma round_half_even_cases (r : R) :
  round_half_even r = Int_part r /\ r - IZR (Int_part r) <= / 2 \/
  round_half_even r = (Int_part r + 1)%Z /\ / 2 <= r - IZR (Int_part r).
Proof.
  unfold round_half_even.
  destruct (total_order_T (r - IZR (Int_part r)) (/ 2)) as [[H | H] | H].
  - left. split; [reflexivity | lra].
  - destruct (Z.even (Int_part r)); [left | right]; split;
      try reflexivity; lra.
  - right. split; [reflexivity | lra].
Qed.

Lemma round_half_even_error (r : R) :
  - / 2 <= IZR (round_half_even r) - r <= / 2.
Proof.
  pose proof (floor_bounds r) as Hf.
  destruct (round_half_even_cases r) as [[-> H] | [-> H]].
  - lra.
  - rewrite plus_IZR. lra.
Qed.

Lemma round_half_even_near (z : Z) (r : R) :
  IZR z - / 2 < r < IZR z + / 2 -> round_half_even r = z.
Proof.
  intros Hr. pose proof (round_half_even_error r) as He.
  assert (H1 : (round_half_even r < z + 1)%Z)
    by (apply lt_IZR; rewrite plus_IZR; lra).
  assert (H2 : (z < round_half_even r + 1)%Z)
    by (apply lt_IZR; rewrite plus_IZR; lra).
  lia.
Qed.

Lemma round_half_even_ge (z : Z) (r : R) :
  IZR z <= r -> (z <= round_half_even r)%Z.
Proof.
  intros Hr. pose proof (floor_bounds r) as Hf.
  assert (Hz : (z < Int_part r + 1)%Z)
    by (apply lt_IZR; rewrite plus_IZR; lra).
  destruct (round_half_even_cases r) as [[-> _] | [-> _]]; lia.
Qed.

Lemma round_half_even_le (z : Z) (r : R) :
  r <= IZR z -> (round_half_even r <= z)%Z.
Proof.
  intros Hr. pose proof (floor_bounds r) as Hf.
  destruct (round_half_even_cases r) as [[-> _] | [-> H]].
  - apply le_IZR. lra.
  - assert (Hz : (Int_part r < z)%Z) by (apply lt_IZR; lra). lia.
Qed.

Lemma pow10_pos (n : nat) : 0 < 10 ^ n.
Proof. apply pow_lt. lra. Qed.

Lemma pow10_IZR (n : nat) : 10 ^ n = IZR (10 ^ Z.of_nat n).
Proof. now rewrite <- pow_IZR. Qed.

Lemma Zpow10_pos (n : nat) : (0 < 10 ^ Z.of_nat n)%Z.
Proof. apply Z.pow_pos_nonneg; lia. Qed.

(** An integer of tenths, hundredths, ... split at the decimal point and
    put together again. *)
Lemma decimal_recombine (m : Z) (prec : nat) :
  IZR (m / 10 ^ Z.of_nat prec)
  + IZR (m mod 10 ^ Z.of_nat prec) / 10 ^ prec
  = IZR m / 10 ^ prec.
Proof.
  pose proof (pow10_pos prec) as Hp. pose proof (Zpow10_pos prec) as Hz.
  rewrite (Z.div_mod m (10 ^ Z.of_nat prec)) at 3 by lia.
  rewrite plus_IZR, mult_IZR, <- pow10_IZR. field. lra.
Qed.

End RoundingFacts.

(** ** Reading formatted numbers back *)

Section ReadBackFacts.

Local Open Scope string_scope.

Import CsvReader.

Lemma digit_is_not (c0 c : ascii) :
  is_digit c0 = false -> is_digit c = true -> is_not c0 c = true.
Proof.
  intros H0 Hc. unfold is_not.
  destruct (Ascii.eqb_spec c c0) as [-> | _]; [congruence | reflexivity].
Qed.

Lemma digits_without (c0 : ascii) (s : string) :
  is_digit c0 = false ->
  all_chars is_digit s = true -> all_chars (is_not c0) s = true.
Proof.
  intros H0. apply all_chars_weaken. intros c. now apply digit_is_not.
Qed.

Lemma str_nat_head (n : Z) :
  exists c rest, str_nat n = String c rest /\ is_digit c = true.
Proof.
  pose proof (str_nat_all_digit n) as Hall.
  destruct (str_nat n) as [| c rest] eqn:Hs.
  - exfalso. unfold str_nat in Hs.
    now apply digits_nonempty in Hs; [| apply ndigits_pos].
  - exists c, rest. split; [reflexivity |].
    simpl in Hall. now apply andb_prop in Hall as [Hc _].
Qed.

Lemma digits_head (w : nat) (n : Z) :
  exists c rest, digits (S w) n = String c rest /\ is_digit c = true.
Proof.
  pose proof (digits_all_digit (S w) n) as Hall.
  destruct (digits (S w) n) as [| c rest] eqn:Hs.
  - exfalso. now apply digits_nonempty in Hs; [| lia].
  - exists c, rest. split; [reflexivity |].
    simpl in Hall. now apply andb_prop in Hall as [Hc _].
Qed.

(** A text that starts with a digit, possibly after a minus sign, is not
    one of the three words and loses only its sign. *)
Lemma parse_float_signed (negative : bool) (c : ascii) (rest : string) :
  is_digit c = true ->
  parse_float ((if negative then "-" else "") ++ String c rest)
  = match split_first "e" (String c rest) with
    | None =>
        option_map (fun r => Fin (apply_sign negative r))
          (parse_decimal (String c rest))
    | Some (mant, ex) =>
        match parse_decimal mant, parse_int ex with
        | Some m, Some e => Some (Fin (apply_sign negative (m * powerRZ 10 e)))
        | _, _ => None
        end
    end.
Proof.
  intros Hc.
  destruct c as [b0 b1 b2 b3 b4 b5 b6 b7].
  destruct negative, b0, b1, b2, b3, b4, b5, b6, b7;
    try discriminate Hc; reflexivity.
Qed.

Lemma parse_int_exp_str (e : Z) : parse_int (exp_str e) = Some e.
Proof.
  unfold exp_str, parse_int.
  set (w := Nat.max 2 (ndigits (Z.abs e))).
  assert (Hw : (0 < w)%nat) by (unfold w; lia).
  assert (Hbound : (Z.abs e < 10 ^ Z.of_nat w)%Z).
  { pose proof (ndigits_bound (Z.abs e) (Z.abs_nonneg e)) as Hb.
    eapply Z.lt_le_trans; [exact Hb |].
    apply Z.pow_le_mono_r; unfold w; lia. }
  assert (Hparse : parse_nat (digits w (Z.abs e)) = Some (Z.abs e)).
  { rewrite parse_nat_digits by (try assumption; apply Z.abs_nonneg).
    f_equal. apply Z.mod_small. split; [apply Z.abs_nonneg | assumption]. }
  destruct (Z.ltb_spec e 0) as [Hneg | Hpos]; cbn [append strip_sign];
    rewrite Hparse; cbn [option_map]; f_equal; lia.
Qed.

End ReadBackFacts.

(** ** The fixed-point format *)

Section FixedFormatFacts.

Local Open Scope string_scope.

Import CsvReader.

Lemma Rneg_true (r : R) : Rneg r = true -> r < 0.
Proof. unfold Rneg. now destruct (Rlt_dec r 0). Qed.

Lemma Rneg_false (r : R) : Rneg r = false -> 0 <= r.
Proof. unfold Rneg. destruct (Rlt_dec r 0); [discriminate | lra]. Qed.

Lemma Rabs_apply_sign (r : R) : apply_sign (Rneg r) (Rabs r) = r.
Proof.
  unfold apply_sign. destruct (Rneg r) eqn:Hs.
  - apply Rneg_true in Hs. rewrite Rabs_left by assumption. lra.
  - apply Rneg_false in Hs. now rewrite Rabs_pos_eq.
Qed.

Lemma apply_sign_diff (negative : bool) (a b : R) :
  apply_sign negative a - apply_sign negative b
  = apply_sign negative (a - b).
Proof. unfold apply_sign. destruct negative; lra. Qed.

Lemma Rabs_apply_sign_le (negative : bool) (a bound : R) :
  - bound <= a <= bound -> Rabs (apply_sign negative a) <= bound.
Proof.
  intros H. apply Rabs_le. unfold apply_sign. destruct negative; lra.
Qed.

Lemma scaled_nonneg (r : R) (prec : nat) : 0 <= Rabs r * 10 ^ prec.
Proof.
  apply Rmult_le_pos; [apply Rabs_pos | left; apply pow10_pos].
Qed.

(** The text of a fixed-point number, read back: the rounded integer of
    its last decimal, moved back behind the point, with the sign. *)
Lemma format_f_read (p : nat) (r : R) :
  parse_float (format_f (S p) (Fin r))
  = Some (Fin (apply_sign (Rneg r)
                 (IZR (round_half_even (Rabs r * 10 ^ S p)) / 10 ^ S p))).
Proof.
  unfold format_f, sign_str.
  set (m := round_half_even (Rabs r * 10 ^ S p)).
  assert (Hm : (0 <= m)%Z)
    by (apply (round_half_even_ge 0); apply scaled_nonneg).
  pose proof (Zpow10_pos (S p)) as Hz.
  assert (Hip : (0 <= m / 10 ^ Z.of_nat (S p))%Z) by (apply Z.div_pos; lia).
  destruct (str_nat_head (m / 10 ^ Z.of_nat (S p))) as (c & rest & Hs & Hc).
  assert (Hshape :
            (if Rneg r then "-" else "")
            ++ str_nat (m / 10 ^ Z.of_nat (S p)) ++ frac_str (S p) m
            = (if Rneg r then "-" else "")
              ++ String c (rest ++ frac_str (S p) m))
    by (now rewrite Hs).
  rewrite Hshape, parse_float_signed by assumption.
  change (String c (rest ++ frac_str (S p) m))
    with (String c rest ++ frac_str (S p) m).
  rewrite <- Hs. unfold frac_str.
  change ("." ++ digits (S p) m) with (String "." (digits (S p) m)).
  rewrite split_first_absent.
  - unfold parse_decimal.
    rewrite split_first_app
      by (apply digits_without; [reflexivity | apply str_nat_all_digit]).
    rewrite parse_nat_str_nat by assumption.
    rewrite parse_nat_digits by (try assumption; lia).
    rewrite digits_length, decimal_recombine. reflexivity.
  - rewrite all_chars_app. cbn [all_chars].
    rewrite !digits_without;
      try reflexivity; try apply str_nat_all_digit; apply digits_all_digit.
Qed.

(** Reading a fixed-point text back gives the number up to half a unit
    of the last decimal written. *)
Lemma format_f_roundtrip (p : nat) (r : R) :
  exists r',
    parse_float (format_f (S p) (Fin r)) = Some (Fin r') /\
    Rabs (r' - r) <= / 2 / 10 ^ S p.
Proof.
  eexists. split; [apply format_f_read |].
  pose proof (round_half_even_error (Rabs r * 10 ^ S p)) as He.
  pose proof (pow10_pos (S p)) as Hp.
  set (m := IZR (round_half_even (Rabs r * 10 ^ S p))) in *.
  set (q := 10 ^ S p) in *.
  assert (Hdiff : apply_sign (Rneg r) (m / q) - r
                  = apply_sign (Rneg r) (m / q - Rabs r))
    by (now rewrite <- apply_sign_diff, Rabs_apply_sign).
  rewrite Hdiff. apply Rabs_apply_sign_le.
  assert (Heq : m / q - Rabs r = (m - Rabs r * q) / q) by (field; lra).
  rewrite Heq.
  assert (Hq : 0 < / q) by now apply Rinv_0_lt_compat.
  unfold Rdiv. split; nra.
Qed.

(** The text of a non-negative number whose scaled value is next to the
    integer [m]. *)
Lemma format_f_value (prec : nat) (r : R) (m : Z) :
  0 <= r ->
  IZR m - / 2 < r * 10 ^ prec < IZR m + / 2 ->
  format_f prec (Fin r)
  = str_nat (m / 10 ^ Z.of_nat prec) ++ frac_str prec m.
Proof.
  intros Hr Hm. unfold format_f, sign_str.
  rewrite Rabs_pos_eq by assumption.
  rewrite (round_half_even_near m) by assumption.
  unfold Rneg. destruct (Rlt_dec r 0); [lra | reflexivity].
Qed.

End FixedFormatFacts.

(** ** The scientific format *)

Section SciFormatFacts.

Local Open Scope string_scope.

Import CsvReader.

Lemma ln_10_pos : 0 < ln 10.
Proof. rewrite <- ln_1. apply ln_increasing; lra. Qed.

Lemma powerRZ_10_exp (z : Z) : powerRZ 10 z = exp (IZR z * ln 10).
Proof. rewrite powerRZ_Rpower by lra. reflexivity. Qed.

Lemma exp_le (a b : R) : a <= b -> exp a <= exp b.
Proof.
  intros [Hlt | ->]; [left; now apply exp_increasing | right; reflexivity].
Qed.

(** The decimal exponent brackets a positive number between two
    consecutive powers of ten. *)
Lemma dec_exponent_spec (a : R) :
  0 < a ->
  powerRZ 10 (dec_exponent a) <= a < powerRZ 10 (dec_exponent a + 1).
Proof.
  intros Ha. unfold dec_exponent.
  pose proof ln_10_pos as Hl.
  pose proof (floor_bounds (ln a / ln 10)) as [Hlo Hhi].
  set (e := Int_part (ln a / ln 10)) in *.
  assert (Hq : ln a = ln a / ln 10 * ln 10) by (field; lra).
  rewrite !powerRZ_10_exp, plus_IZR. split.
  - rewrite <- (exp_ln a Ha) at 1. apply exp_le.
    rewrite Hq. apply Rmult_le_compat_r; lra.
  - rewrite <- (exp_ln a Ha) at 1. apply exp_increasing.
    rewrite Hq. apply Rmult_lt_compat_r; lra.
Qed.

Lemma dec_exponent_unique (a : R) (e : Z) :
  powerRZ 10 e <= a < powerRZ 10 (e + 1) -> dec_exponent a = e.
Proof.
  intros [Hlo Hhi].
  assert (Ha : 0 < a)
    by (apply Rlt_le_trans with (powerRZ 10 e);
        [apply powerRZ_lt; lra | exact Hlo]).
  pose proof ln_10_pos as Hl.
  unfold dec_exponent. symmetry. apply Int_part_spec.
  rewrite powerRZ_10_exp in Hlo, Hhi. rewrite plus_IZR in Hhi.
  rewrite <- (exp_ln a Ha) in Hlo, Hhi.
  assert (H1 : IZR e * ln 10 <= ln a).
  { destruct (Rle_or_lt (IZR e * ln 10) (ln a)) as [H | H]; [exact H |].
    apply exp_increasing in H. lra. }
  assert (H2 : ln a < (IZR e + 1) * ln 10) by now apply exp_lt_inv.
  assert (Hq : ln a / ln 10 * ln 10 = ln a) by (field; lra).
  assert (H3 : ln a / ln 10 < IZR e + 1)
    by (apply (Rmult_lt_reg_r (ln 10)); [assumption | rewrite Hq; lra]).
  assert (H4 : IZR e <= ln a / ln 10)
    by (apply (Rmult_le_reg_r (ln 10)); [assumption | rewrite Hq; lra]).
  split; lra.
Qed.

Lemma powerRZ_10_pos (z : Z) : 0 < powerRZ 10 z.
Proof. apply powerRZ_lt. lra. Qed.

Lemma powerRZ_10_add (a b : Z) :
  powerRZ 10 (a + b) = powerRZ 10 a * powerRZ 10 b.
Proof. apply powerRZ_add. lra. Qed.

Lemma powerRZ_10_nat (n : nat) : powerRZ 10 (Z.of_nat n) = 10 ^ n.
Proof. now rewrite <- pow_powerRZ. Qed.

Lemma powerRZ_10_sub (a b : Z) :
  powerRZ 10 (a - b) = powerRZ 10 a / powerRZ 10 b.
Proof.
  pose proof (powerRZ_10_pos b) as Hb.
  replace (powerRZ 10 a) with (powerRZ 10 (a - b) * powerRZ 10 b)
    by (rewrite <- powerRZ_10_add; f_equal; lia).
  field. lra.
Qed.

(** The scaled value of a positive number lies in one decade. *)
Lemma scaled_range (prec : nat) (a : R) :
  0 < a ->
  10 ^ prec
  <= a * powerRZ 10 (Z.of_nat prec - dec_exponent a)
  < 10 ^ S prec.
Proof.
  intros Ha. destruct (dec_exponent_spec a Ha) as [Hlo Hhi].
  set (e := dec_exponent a) in *.
  pose proof (powerRZ_10_pos (Z.of_nat prec - e)) as Hs.
  assert (H1 : 10 ^ prec = powerRZ 10 e * powerRZ 10 (Z.of_nat prec - e)).
  { rewrite <- powerRZ_10_add, <- powerRZ_10_nat. f_equal. lia. }
  assert (H2 : 10 ^ S prec
               = powerRZ 10 (e + 1) * powerRZ 10 (Z.of_nat prec - e)).
  { rewrite <- powerRZ_10_add, <- powerRZ_10_nat. f_equal. lia. }
  rewrite H1, H2. split.
  - now apply Rmult_le_compat_r; [left |].
  - now apply Rmult_lt_compat_r.
Qed.

(** The mantissa has [prec + 1] digits at most, and mantissa and exponent
    give the number back up to half a unit of the last decimal of the
    mantissa. *)
Lemma sci_parts_spec (prec : nat) (r : R) :
  let (m, e) := sci_parts prec r in
  (0 <= m < 10 ^ Z.of_nat (S prec))%Z /\
  Rabs (IZR m / 10 ^ prec * powerRZ 10 e - Rabs r)
  <= / 2 / 10 ^ prec * Rabs r.
Proof.
  unfold sci_parts, Rzero.
  destruct (Req_dec_T r 0) as [-> | Hr].
  - split; [split; [lia | apply Zpow10_pos] |].
    rewrite Rabs_R0. unfold Rdiv. rewrite !Rmult_0_l, Rmult_0_r, Rminus_0_r.
    rewrite Rabs_R0. lra.
  - assert (Ha : 0 < Rabs r) by now apply Rabs_pos_lt.
    set (a := Rabs r) in *. set (e := dec_exponent a).
    set (s := a * powerRZ 10 (Z.of_nat prec - e)).
    destruct (scaled_range prec a Ha) as [Hlo Hhi]. fold e s in Hlo, Hhi.
    pose proof (round_half_even_error s) as Herr.
    assert (Hmlo : (10 ^ Z.of_nat prec <= round_half_even s)%Z)
      by (apply round_half_even_ge; now rewrite <- pow10_IZR).
    assert (Hmhi : (round_half_even s <= 10 ^ Z.of_nat (S prec))%Z)
      by (apply round_half_even_le; rewrite <- pow10_IZR; lra).
    pose proof (Zpow10_pos prec) as Hz. pose proof (pow10_pos prec) as Hp.
    (* the value [m / 10^prec * 10^e] of both branches *)
    assert (Hval : forall m : R,
               m / 10 ^ prec * powerRZ 10 e - a
               = (m - s) * powerRZ 10 (e - Z.of_nat prec)).
    { intros m. unfold s.
      rewrite !powerRZ_10_sub, powerRZ_10_nat.
      pose proof (powerRZ_10_pos e). field. lra. }
    assert (Hscale : powerRZ 10 (e - Z.of_nat prec) <= a / 10 ^ prec).
    { destruct (dec_exponent_spec a Ha) as [Hae _]. fold e in Hae.
      rewrite powerRZ_10_sub, powerRZ_10_nat.
      unfold Rdiv. apply Rmult_le_compat_r; [| assumption].
      left. now apply Rinv_0_lt_compat. }
    pose proof (powerRZ_10_pos (e - Z.of_nat prec)) as Hpos.
    assert (Hbound : forall m : R,
               - / 2 <= m - s <= / 2 ->
               Rabs (m / 10 ^ prec * powerRZ 10 e - a)
               <= / 2 / 10 ^ prec * a).
    { intros m Hm. rewrite Hval. apply Rabs_le.
      assert (Hlim : / 2 * powerRZ 10 (e - Z.of_nat prec)
                     <= / 2 / 10 ^ prec * a)
        by (unfold Rdiv in *; lra).
      split; nra. }
    destruct (Z.eqb_spec (round_half_even s) (10 ^ Z.of_nat (S prec)))
      as [Htop | Hnot].
    + split.
      * split; [lia |]. apply Z.pow_lt_mono_r; lia.
      * (* 10^prec / 10^prec * 10^(e+1) is the rounded value *)
        rewrite <- pow10_IZR.
        replace (10 ^ prec / 10 ^ prec * powerRZ 10 (e + 1))
          with (IZR (round_half_even s) / 10 ^ prec * powerRZ 10 e).
        -- now apply Hbound.
        -- rewrite Htop, <- pow10_IZR, powerRZ_10_add.
           change (powerRZ 10 1) with (10 * 1). simpl. field. lra.
    + split; [lia |]. now apply Hbound.
Qed.

End SciFormatFacts.

Section SciReadBackFacts.

Local Open Scope string_scope.

Import CsvReader.

(** The text of a number in scientific notation, read back: mantissa and
    exponent as [sci_parts] gives them, with the sign. *)
Lemma format_e_read (p : nat) (r : R) :
  parse_float (format_e (S p) (Fin r))
  = Some (Fin (apply_sign (Rneg r)
                 (IZR (fst (sci_parts (S p) r)) / 10 ^ S p
                  * powerRZ 10 (snd (sci_parts (S p) r))))).
Proof.
  unfold format_e, sign_str.
  pose proof (sci_parts_spec (S p) r) as Hspec.
  destruct (sci_parts (S p) r) as [m e]. destruct Hspec as [[Hm0 Hm1] _].
  cbn [fst snd].
  pose proof (Zpow10_pos (S p)) as Hz.
  set (d := (m / 10 ^ Z.of_nat (S p))%Z).
  assert (Hd : (0 <= d < 10)%Z).
  { unfold d. split; [apply Z.div_pos; lia |].
    apply Z.div_lt_upper_bound; [lia |].
    rewrite (Nat2Z.inj_succ (S p)), Z.pow_succ_r in Hm1 by lia. lia. }
  set (mant := digits 1 d ++ String "." (digits (S p) m)).
  assert (Hshape :
            (if Rneg r then "-" else "")
            ++ digits 1 d ++ frac_str (S p) m ++ "e" ++ exp_str e
            = (if Rneg r then "-" else "") ++ mant ++ String "e" (exp_str e)).
  { unfold mant, frac_str. reflexivity. }
  rewrite Hshape.
  destruct (digits_head 0 d) as (c & rest & Hhead & Hc).
  assert (Hmant : mant ++ String "e" (exp_str e)
                  = String c ((rest ++ String "." (digits (S p) m))
                              ++ String "e" (exp_str e)))
    by (unfold mant; now rewrite Hhead).
  rewrite Hmant, parse_float_signed by assumption. rewrite <- Hmant.
  rewrite split_first_app.
  - unfold mant at 1, parse_decimal.
    rewrite split_first_app
      by (apply digits_without; [reflexivity | apply digits_all_digit]).
    rewrite !parse_nat_digits by lia.
    rewrite digits_length, parse_int_exp_str.
    change (10 ^ Z.of_nat 1)%Z with 10%Z.
    rewrite (Z.mod_small d 10) by assumption.
    unfold d. rewrite decimal_recombine. reflexivity.
  - unfold mant. rewrite all_chars_app. cbn [all_chars].
    rewrite !digits_without; try reflexivity; apply digits_all_digit.
Qed.

(** Reading a text in scientific notation back gives the number up to
    half a unit of the last decimal of the mantissa, relative to the
    number. *)
Lemma format_e_roundtrip (p : nat) (r : R) :
  exists r',
    parse_float (format_e (S p) (Fin r)) = Some (Fin r') /\
    Rabs (r' - r) <= / 2 / 10 ^ S p * Rabs r.
Proof.
  eexists. split; [apply format_e_read |].
  pose proof (sci_parts_spec (S p) r) as Hspec.
  destruct (sci_parts (S p) r) as [m e]. destruct Hspec as [_ Herr].
  cbn [fst snd].
  set (v := IZR m / 10 ^ S p * powerRZ 10 e) in *.
  assert (Hdiff : apply_sign (Rneg r) v - r
                  = apply_sign (Rneg r) (v - Rabs r))
    by (now rewrite <- apply_sign_diff, Rabs_apply_sign).
  rewrite Hdiff. unfold apply_sign.
  destruct (Rneg r); [rewrite Rabs_Ropp |]; exact Herr.
Qed.

End SciReadBackFacts.

(** ** The raw file, line by line *)

Section RawFileFacts.

Local Open Scope string_scope.

Import CsvReader.

Lemma numeric_field_char (c : ascii) :
  numeric_char c = true -> field_char c = true.
Proof.
  destruct c as [b0 b1 b2 b3 b4 b5 b6 b7].
  destruct b0, b1, b2, b3, b4, b5, b6, b7; intros H;
    try discriminate H; reflexivity.
Qed.

Lemma digit_numeric (s : string) :
  all_chars is_digit s = true -> all_chars numeric_char s = true.
Proof.
  apply all_chars_weaken. intros c Hc. unfold numeric_char. now rewrite Hc.
Qed.

Lemma sign_str_numeric (r : R) : all_chars numeric_char (sign_str r) = true.
Proof. unfold sign_str. now destruct (Rneg r). Qed.

Lemma frac_str_numeric (prec : nat) (m : Z) :
  all_chars numeric_char (frac_str prec m) = true.
Proof.
  destruct prec; [reflexivity |]. unfold frac_str.
  rewrite all_chars_app. rewrite (digit_numeric (digits _ _))
    by apply digits_all_digit.
  reflexivity.
Qed.

Lemma format_f_numeric (prec : nat) (r : R) :
  all_chars numeric_char (format_f prec (Fin r)) = true.
Proof.
  unfold format_f. rewrite !all_chars_app.
  rewrite sign_str_numeric, frac_str_numeric.
  rewrite (digit_numeric (str_nat _)) by apply str_nat_all_digit.
  reflexivity.
Qed.

Lemma exp_str_numeric (e : Z) : all_chars numeric_char (exp_str e) = true.
Proof.
  unfold exp_str. rewrite all_chars_app.
  rewrite (digit_numeric (digits _ _)) by apply digits_all_digit.
  now destruct (e <? 0)%Z.
Qed.

Lemma format_e_numeric (prec : nat) (r : R) :
  all_chars numeric_char (format_e prec (Fin r)) = true.
Proof.
  unfold format_e. destruct (sci_parts prec r) as [m e].
  rewrite !all_chars_app.
  rewrite sign_str_numeric, frac_str_numeric, exp_str_numeric.
  rewrite (digit_numeric (digits _ _)) by apply digits_all_digit.
  reflexivity.
Qed.

Lemma str_int_numeric (z : Z) : all_chars numeric_char (str_int z) = true.
Proof.
  unfold str_int. destruct (z <? 0)%Z.
  - rewrite all_chars_app.
    rewrite (digit_numeric (str_nat _)) by apply str_nat_all_digit.
    reflexivity.
  - apply digit_numeric, str_nat_all_digit.
Qed.

Lemma field_no_comma (s : string) :
  all_chars field_char s = true -> all_chars (is_not ",") s = true.
Proof.
  apply all_chars_weaken. intros c H. unfold field_char in H.
  now apply andb_prop in H as [H _].
Qed.

Lemma field_no_newline (s : string) :
  all_chars field_char s = true -> all_chars (is_not newline_char) s = true.
Proof.
  apply all_chars_weaken. intros c H. unfold field_char in H.
  now apply andb_prop in H as [_ H].
Qed.

Lemma numeric_field (s : string) :
  all_chars numeric_char s = true -> all_chars field_char s = true.
Proof. apply all_chars_weaken, numeric_field_char. Qed.

Lemma raw_line_split (system : string) (d : dataset) (xi si : R) :
  SIExport.raw_line system d xi si
  = raw_line_body system d xi si ++ SIExport.newline.
Proof.
  unfold SIExport.raw_line, raw_line_body.
  now rewrite !str_app_assoc.
Qed.

Lemma raw_line_body_fields (system : string) (d : dataset) (xi si : R) :
  name_ok system = true ->
  split_on "," (raw_line_body system d xi si)
  = [system; str_int (charge d); format_f 2 (Fin xi); format_e 3 (Fin si)].
Proof.
  intros Hname. unfold raw_line_body.
  change ("," ++ ?s) with (String "," s).
  rewrite split_on_app by now apply field_no_comma.
  change ("," ++ ?s) with (String "," s).
  rewrite split_on_app
    by apply field_no_comma, numeric_field, str_int_numeric.
  change ("," ++ ?s) with (String "," s).
  rewrite split_on_app
    by apply field_no_comma, numeric_field, format_f_numeric.
  rewrite split_on_absent
    by apply field_no_comma, numeric_field, format_e_numeric.
  reflexivity.
Qed.

Lemma raw_line_body_field_chars (system : string) (d : dataset) (xi si : R) :
  name_ok system = true ->
  all_chars (is_not newline_char) (raw_line_body system d xi si) = true.
Proof.
  intros Hname. apply field_no_newline in Hname as Hnl.
  unfold raw_line_body. rewrite !all_chars_app, Hnl.
  rewrite !(field_no_newline (str_int _))
    by apply numeric_field, str_int_numeric.
  rewrite !(field_no_newline (format_f _ _))
    by apply numeric_field, format_f_numeric.
  rewrite !(field_no_newline (format_e _ _))
    by apply numeric_field, format_e_numeric.
  reflexivity.
Qed.

End RawFileFacts.

(** ** The raw file as a whole *)

Section RawRoundTrip.

Local Open Scope string_scope.

Import CsvReader.

Lemma concat_cons (a : string) (l : list string) :
  String.concat "" (a :: l) = a ++ String.concat "" l.
Proof.
  destruct l as [| b l]; simpl; [now rewrite str_app_nil_r | reflexivity].
Qed.

Lemma raw_lines_points (reg : registry) :
  SIExport.raw_lines reg
  = map (fun pt => point_body pt ++ SIExport.newline) (points reg).
Proof.
  unfold SIExport.raw_lines, points.
  induction reg as [| [system d] reg IH]; [reflexivity |].
  cbn [flat_map]. rewrite map_app, IH. f_equal.
  rewrite map_map. apply map_ext. intros [xi si]. apply raw_line_split.
Qed.

Lemma points_names (reg : registry) :
  Forall (fun entry => name_ok (fst entry) = true) reg ->
  Forall (fun pt => name_ok (fst (fst (fst pt))) = true) (points reg).
Proof.
  intros Hnames. apply Forall_forall. intros pt Hpt.
  unfold points in Hpt. apply in_flat_map in Hpt as (entry & Hentry & Hpt).
  apply in_map_iff in Hpt as (p & <- & _). cbn [fst].
  exact (proj1 (Forall_forall _ _) Hnames entry Hentry).
Qed.

Lemma split_on_text (bodies : list string) :
  Forall (fun b => all_chars (is_not newline_char) b = true) bodies ->
  split_on newline_char
    (String.concat "" (map (fun b => b ++ SIExport.newline) bodies))
  = (bodies ++ [""])%list.
Proof.
  induction bodies as [| b bodies IH]; intros Hall; [reflexivity |].
  inversion Hall as [| ? ? Hb Hrest]; subst.
  cbn [map]. rewrite concat_cons, str_app_assoc.
  change (SIExport.newline ++ ?s) with (String newline_char s).
  rewrite split_on_app by assumption. now rewrite IH.
Qed.

Lemma parse_point (pt : string * dataset * R * R) :
  name_ok (fst (fst (fst pt))) = true ->
  exists rec, parse_raw_line (point_body pt) = Some rec /\ agrees pt rec.
Proof.
  destruct pt as [[[system d] xi] si]. cbn [fst point_body]. intros Hname.
  unfold parse_raw_line. rewrite raw_line_body_fields by assumption.
  destruct (format_f_roundtrip 1 xi) as (x' & Hx & Hxerr).
  destruct (format_e_roundtrip 2 si) as (s' & Hs & Hserr).
  rewrite Hx, Hs. eexists. split; [reflexivity |].
  exists x', s'. split; [reflexivity |].
  simpl in Hxerr, Hserr. split; [lra |].
  eapply Rle_trans; [exact Hserr |].
  apply Rmult_le_compat_r; [apply Rabs_pos | lra].
Qed.

Lemma parse_points (pts : list (string * dataset * R * R)) :
  Forall (fun pt => name_ok (fst (fst (fst pt))) = true) pts ->
  exists recs,
    parse_all parse_raw_line (map point_body pts) = Some recs /\
    Forall2 agrees pts recs.
Proof.
  induction pts as [| pt pts IH]; intros Hnames.
  - exists []. split; [reflexivity | constructor].
  - inversion Hnames as [| ? ? Hpt Hrest]; subst.
    destruct (parse_point pt Hpt) as (rec & Hrec & Hagree).
    destruct (IH Hrest) as (recs & Hrecs & Hall).
    exists (rec :: recs). split; [| now constructor].
    cbn [map parse_all]. now rewrite Hrec, Hrecs.
Qed.

Lemma raw_csv_lines (reg : registry) :
  Forall (fun entry => name_ok (fst entry) = true) reg ->
  lines_of (SIExport.raw_csv reg)
  = "System,Charge,Salt_Weight_Fraction,Conductivity_S_cm"
    :: map point_body (points reg).
Proof.
  intros Hnames. unfold lines_of, SIExport.raw_csv, SIExport.file_text.
  assert (Hmap : SIExport.raw_lines reg
                 = map (fun b => b ++ SIExport.newline)
                       (map point_body (points reg)))
    by (now rewrite raw_lines_points, map_map).
  rewrite Hmap. unfold SIExport.raw_header. rewrite <- concat_cons.
  change ((?h ++ SIExport.newline) :: map ?f ?l) with (map f (h :: l)).
  rewrite split_on_text.
  - now rewrite removelast_last.
  - constructor; [reflexivity |].
    apply Forall_forall. intros b Hb.
    apply in_map_iff in Hb as ([[[system d] xi] si] & <- & Hpt).
    apply raw_line_body_field_chars.
    now apply (proj1 (Forall_forall _ _) (points_names reg Hnames)) in Hpt.
Qed.

Lemma combine_arrays {A B : Type} (l : list A) (l' : list B) :
  List.length l = List.length l' ->
  map fst (combine l l') = l /\ map snd (combine l l') = l'.
Proof.
  revert l'. induction l as [| a l IH]; intros [| b l'] Hlen;
    try discriminate; [now split |].
  injection Hlen as Hlen. destruct (IH l' Hlen) as [H1 H2].
  simpl. now rewrite H1, H2.
Qed.

End RawRoundTrip.

Lemma data_registry_names_ok :
  Forall (fun entry => name_ok (fst entry) = true) data_registry.
Proof. repeat constructor. Qed.

(** ** The parameters file *)

Section ParamsFileFacts.

Local Open Scope string_scope.

Import CsvReader.

Lemma np_divide_nonzero (b a : R) : a <> 0 -> np_divide b a = Fin (b / a).
Proof.
  intros Ha. unfold np_divide, Rzero.
  destruct (Req_dec_T a 0); [contradiction | reflexivity].
Qed.

Lemma np_sqrt_zero : np_sqrt (Fin 0) = Fin 0.
Proof.
  unfold np_sqrt, Rneg. destruct (Rlt_dec 0 0); [lra |]. now rewrite sqrt_0.
Qed.

Lemma format_e_zero (prec : nat) :
  format_e prec (Fin 0)
  = digits 1 0 ++ frac_str prec 0 ++ "e" ++ exp_str 0.
Proof.
  unfold format_e, sci_parts, sign_str, Rzero, Rneg.
  destruct (Req_dec_T 0 0) as [_ | H]; [| contradiction].
  destruct (Rlt_dec 0 0); [lra |]. reflexivity.
Qed.

(** The row the constant solver produces, whatever the dataset. *)
Lemma fit_dataset_third (system : string) (d : dataset) :
  fit_dataset Demo.ext_third system d
  = Ok {| row_system := system; row_charge := charge d;
          row_A := 0.3; row_B := 0.1;
          row_vpi := Fin (0.1 / 0.3);
          row_rmse := Fin 0; row_r2 := Fin 1 |}.
Proof.
  unfold fit_dataset. cbn [curve_fit mean_squared_error r2_score
                             Demo.ext_third bind].
  rewrite np_sqrt_zero, np_divide_nonzero by lra. reflexivity.
Qed.

Lemma third_line (system : string) (d : dataset) :
  SIExport.params_line
    {| row_system := system; row_charge := charge d;
       row_A := 0.3; row_B := 0.1;
       row_vpi := Fin (0.1 / 0.3);
       row_rmse := Fin 0; row_r2 := Fin 1 |}
  = system ++ "," ++ str_int (charge d)
    ++ ",0.3000,0.1000,0.33,0.000e+00,1.000" ++ SIExport.newline.
Proof.
  unfold SIExport.params_line.
  cbn [row_system row_charge row_A row_B row_vpi row_rmse row_r2].
  rewrite (format_f_value 4 0.3 3000) by lra.
  rewrite (format_f_value 4 0.1 1000) by lra.
  rewrite (format_f_value 2 (0.1 / 0.3) 33) by lra.
  rewrite (format_f_value 3 1 1000) by lra.
  rewrite format_e_zero. reflexivity.
Qed.

Lemma read_third_fields :
  parse_float "0.3000" = Some (Fin 0.3) /\
  parse_float "0.1000" = Some (Fin 0.1) /\
  parse_float "0.33" = Some (Fin 0.33).
Proof.
  change (parse_float "0.3000") with (Some (Fin (0 + 3000 / 10 ^ 4))).
  change (parse_float "0.1000") with (Some (Fin (0 + 1000 / 10 ^ 4))).
  change (parse_float "0.33") with (Some (Fin (0 + 33 / 10 ^ 2))).
  repeat split; do 2 f_equal; lra.
Qed.

End ParamsFileFacts.

(** ** The formats on concrete numbers *)

Section FormatExamples.

Local Open Scope string_scope.

Lemma Int_part_IZR_half (z : Z) : Int_part (IZR z + / 2) = z.
Proof. symmetry. apply Int_part_spec. lra. Qed.

Lemma round_half_even_tie (z : Z) :
  round_half_even (IZR z + / 2) = if Z.even z then z else (z + 1)%Z.
Proof.
  unfold round_half_even. rewrite Int_part_IZR_half.
  destruct (total_order_T (IZR z + / 2 - IZR z) (/ 2)) as [[H | H] | H];
    [lra | reflexivity | lra].
Qed.

Lemma sci_parts_value (prec : nat) (r : R) (m e : Z) :
  0 < r ->
  powerRZ 10 e <= r < powerRZ 10 (e + 1) ->
  IZR m - / 2 < r * powerRZ 10 (Z.of_nat prec - e) < IZR m + / 2 ->
  m <> (10 ^ Z.of_nat (S prec))%Z ->
  sci_parts prec r = (m, e).
Proof.
  intros Hr He Hm Hne. unfold sci_parts, Rzero.
  destruct (Req_dec_T r 0); [lra |].
  rewrite Rabs_pos_eq by lra.
  rewrite (dec_exponent_unique r e He).
  rewrite (round_half_even_near m) by assumption.
  destruct (Z.eqb_spec m (10 ^ Z.of_nat (S prec))); [contradiction |].
  reflexivity.
Qed.

Lemma format_e_value (prec : nat) (r : R) (m e : Z) :
  0 < r ->
  powerRZ 10 e <= r < powerRZ 10 (e + 1) ->
  IZR m - / 2 < r * powerRZ 10 (Z.of_nat prec - e) < IZR m + / 2 ->
  m <> (10 ^ Z.of_nat (S prec))%Z ->
  format_e prec (Fin r)
  = digits 1 (m / 10 ^ Z.of_nat prec) ++ frac_str prec m ++ "e" ++ exp_str e.
Proof.
  intros Hr He Hm Hne. unfold format_e, sign_str, Rneg.
  rewrite (sci_parts_value prec r m e) by assumption.
  destruct (Rlt_dec r 0); [lra | reflexivity].
Qed.

(** The first data line of the raw file. *)
Example raw_line_first :
  hd_error (SIExport.raw_lines data_registry)
  = Some ("LiCl (Li+),1,0.10,4.980e-07" ++ SIExport.newline).
Proof.
  unfold SIExport.raw_lines, data_registry.
  cbn [flat_map map combine x sigma fst snd app hd_error].
  unfold SIExport.raw_line. cbn [charge].
  rewrite (format_f_value 2 0.10 10) by lra.
  rewrite (format_e_value 3 4.98e-7 4980 (-7)).
  - reflexivity.
  - lra.
  - change (powerRZ 10 (-7)) with (/ 10 ^ 7).
    change (powerRZ 10 (-7 + 1)) with (/ 10 ^ 6). lra.
  - change (powerRZ 10 (Z.of_nat 3 - (-7))) with (10 ^ 10). lra.
  - discriminate.
Qed.

(** Ties go to the even neighbour. *)
Example format_f_ties :
  format_f 2 (Fin 0.125) = "0.12" /\ format_f 2 (Fin 0.375) = "0.38".
Proof.
  unfold format_f, sign_str, Rneg.
  destruct (Rlt_dec 0.125 0); [lra |]. destruct (Rlt_dec 0.375 0); [lra |].
  rewrite !Rabs_pos_eq by lra.
  replace (0.125 * 10 ^ 2) with (IZR 12 + / 2) by lra.
  replace (0.375 * 10 ^ 2) with (IZR 37 + / 2) by lra.
  rewrite !round_half_even_tie. split; reflexivity.
Qed.

(** A mantissa that rounds up to ten moves to the next exponent. *)
Example format_e_carry : format_e 3 (Fin 9.9996) = "1.000e+01".
Proof.
  unfold format_e, sci_parts, sign_str, Rneg, Rzero.
  destruct (Req_dec_T 9.9996 0); [lra |].
  destruct (Rlt_dec 9.9996 0); [lra |].
  rewrite Rabs_pos_eq by lra.
  rewrite (dec_exponent_unique 9.9996 0)
    by (change (powerRZ 10 0) with 1; change (powerRZ 10 (0 + 1)) with (10 ^ 1);
        lra).
  change (powerRZ 10 (Z.of_nat 3 - 0)) with (10 ^ 3).
  rewrite (round_half_even_near 10000) by lra.
  reflexivity.
Qed.

(** The line printed for the dataset that is not fitted. *)
Example placeholder_line_NaN3 :
  Console.placeholder_line "NaN3 (Na+)"
  = "NaN3 (Na+)         | --       | --     | --         | --         | --    ".
Proof. reflexivity. Qed.

(** The line printed for a fit with [A = 0.3], [B = 0.1]. *)
Example fitted_line_third :
  Console.fitted_line
    {| row_system := "LiCl (Li+)"; row_charge := 1;
       row_A := 0.3; row_B := 0.1; row_vpi := Fin (0.1 / 0.3);
       row_rmse := Fin 0; row_r2 := Fin 1 |}
  = "LiCl (Li+)         | 0.300    | 0.10   | 0.33       | 0.0e+00    | 1.000 ".
Proof.
  unfold Console.fitted_line.
  cbn [row_system row_A row_B row_vpi row_rmse row_r2].
  rewrite (format_f_value 3 0.3 300) by lra.
  rewrite (format_f_value 2 0.1 10) by lra.
  rewrite (format_f_value 2 (0.1 / 0.3) 33) by lra.
  rewrite (format_f_value 3 1 1000) by lra.
  rewrite format_e_zero. reflexivity.
Qed.

Lemma format_e_value_neg (prec : nat) (r : R) (m : Z) (k : nat) :
  / 10 ^ S k <= r < / 10 ^ k ->
  IZR m - / 2 < r * 10 ^ (prec + S k) < IZR m + / 2 ->
  m <> (10 ^ Z.of_nat (S prec))%Z ->
  format_e prec (Fin r)
  = digits 1 (m / 10 ^ Z.of_nat prec) ++ frac_str prec m
    ++ "e" ++ exp_str (- Z.of_nat (S k)).
Proof.
  intros Hr Hm Hne.
  assert (Hinv : forall n : nat, powerRZ 10 (- Z.of_nat n) = / 10 ^ n).
  { intros n. replace (- Z.of_nat n)%Z with (0 - Z.of_nat n)%Z by lia.
    rewrite powerRZ_10_sub, powerRZ_10_nat. change (powerRZ 10 0) with 1.
    unfold Rdiv. lra. }
  assert (Hpos : 0 < / 10 ^ S k) by (apply Rinv_0_lt_compat, pow10_pos).
  apply format_e_value; try assumption.
  - lra.
  - replace (- Z.of_nat (S k) + 1)%Z with (- Z.of_nat k)%Z by lia.
    now rewrite !Hinv.
  - replace (Z.of_nat prec - - Z.of_nat (S k))%Z
      with (Z.of_nat (prec + S k)) by lia.
    now rewrite powerRZ_10_nat.
Qed.

(** The text of the raw file of the script: it depends on the data only. *)
Example raw_csv_text :
  SIExport.raw_csv data_registry
  = String.concat SIExport.newline
      [ "System,Charge,Salt_Weight_Fraction,Conductivity_S_cm";
        "LiCl (Li+),1,0.10,4.980e-07";
        "LiCl (Li+),1,0.20,3.550e-06";
        "LiCl (Li+),1,0.30,3.610e-05";
        "LiCl (Li+),1,0.40,6.610e-04";
        "LiCl (Li+),1,0.50,2.080e-03";
        "NaN3 (Na+),1,0.05,1.850e-07";
        "NaN3 (Na+),1,0.10,2.700e-06";
        "NaN3 (Na+),1,0.15,2.400e-06";
        "NaN3 (Na+),1,0.20,2.200e-06";
        "NH4I (NH4+),1,0.30,5.100e-06";
        "NH4I (NH4+),1,0.40,9.700e-05";
        "NH4I (NH4+),1,0.50,3.700e-04";
        "NH4I (NH4+),1,0.60,1.200e-03";
        "NH4I (NH4+),1,0.70,4.500e-03";
        "Mg(NO3)2 (Mg2+),2,0.30,4.860e-06";
        "Mg(NO3)2 (Mg2+),2,0.40,6.860e-05";
        "Mg(NO3)2 (Mg2+),2,0.50,7.700e-04";
        "Mg(NO3)2 (Mg2+),2,0.60,7.530e-04";
        "ZnCl2 (Zn2+),2,0.50,6.720e-04";
        "ZnCl2 (Zn2+),2,0.60,4.490e-03";
        "ZnCl2 (Zn2+),2,0.70,4.210e-03";
        "" ].
Proof.
  unfold SIExport.raw_csv, SIExport.file_text, SIExport.raw_lines,
    data_registry.
  cbn [flat_map map combine x sigma fst snd app].
  unfold SIExport.raw_line. cbn [charge].
  rewrite (format_f_value 2 0.05 5) by lra.
  rewrite !(format_f_value 2 0.10 10) by lra.
  rewrite (format_f_value 2 0.15 15) by lra.
  rewrite !(format_f_value 2 0.20 20) by lra.
  rewrite !(format_f_value 2 0.30 30) by lra.
  rewrite !(format_f_value 2 0.40 40) by lra.
  rewrite !(format_f_value 2 0.50 50) by lra.
  rewrite !(format_f_value 2 0.60 60) by lra.
  rewrite !(format_f_value 2 0.70 70) by lra.
  rewrite (format_e_value_neg 3 4.98e-7 4980 6)
    by (cbn [Nat.add]; first [lra | discriminate]).
  rewrite (format_e_value_neg 3 3.55e-6 3550 5)
    by (cbn [Nat.add]; first [lra | discriminate]).
  rewrite (format_e_value_neg 3 3.61e-5 3610 4)
    by (cbn [Nat.add]; first [lra | discriminate]).
  rewrite (format_e_value_neg 3 6.61e-4 6610 3)
    by (cbn [Nat.add]; first [lra | discriminate]).
  rewrite (format_e_value_neg 3 2.08e-3 2080 2)
    by (cbn [Nat.add]; first [lra | discriminate]).
  rewrite (format_e_value_neg 3 1.85e-7 1850 6)
    by (cbn [Nat.add]; first [lra | discriminate]).
  rewrite (format_e_value_neg 3 2.70e-6 2700 5)
    by (cbn [Nat.add]; first [lra | discriminate]).
  rewrite (format_e_value_neg 3 2.40e-6 2400 5)
    by (cbn [Nat.add]; first [lra | discriminate]).
  rewrite (format_e_value_neg 3 2.20e-6 2200 5)
    by (cbn [Nat.add]; first [lra | discriminate]).
  rewrite (format_e_value_neg 3 5.1e-6 5100 5)
    by (cbn [Nat.add]; first [lra | discriminate]).
  rewrite (format_e_value_neg 3 9.7e-5 9700 4)
    by (cbn [Nat.add]; first [lra | discriminate]).
  rewrite (format_e_value_neg 3 3.7e-4 3700 3)
    by (cbn [Nat.add]; first [lra | discriminate]).
  rewrite (format_e_value_neg 3 1.2e-3 1200 2)
    by (cbn [Nat.add]; first [lra | discriminate]).
  rewrite (format_e_value_neg 3 4.5e-3 4500 2)
    by (cbn [Nat.add]; first [lra | discriminate]).
  rewrite (format_e_value_neg 3 4.86e-6 4860 5)
    by (cbn [Nat.add]; first [lra | discriminate]).
  rewrite (format_e_value_neg 3 6.86e-5 6860 4)
    by (cbn [Nat.add]; first [lra | discriminate]).
  rewrite (format_e_value_neg 3 7.70e-4 7700 3)
    by (cbn [Nat.add]; first [lra | discriminate]).
  rewrite (format_e_value_neg 3 7.53e-4 7530 3)
    by (cbn [Nat.add]; first [lra | discriminate]).
  rewrite (format_e_value_neg 3 6.72e-4 6720 3)
    by (cbn [Nat.add]; first [lra | discriminate]).
  rewrite (format_e_value_neg 3 4.49e-3 4490 2)
    by (cbn [Nat.add]; first [lra | discriminate]).
  rewrite (format_e_value_neg 3 4.21e-3 4210 2)
    by (cbn [Nat.add]; first [lra | discriminate]).
  reflexivity.
Qed.

(** The text of the parameters file when every fit finds [A = 0.3] and
    [B = 0.1]. *)
Example params_csv_third :
  SIExport.params_csv (table_of Demo.ext_third data_registry)
  = String.concat SIExport.newline
      [ "System,Charge,A,B,VPI,RMSE_S_cm,R2";
        "LiCl (Li+),1,0.3000,0.1000,0.33,0.000e+00,1.000";
        "NH4I (NH4+),1,0.3000,0.1000,0.33,0.000e+00,1.000";
        "Mg(NO3)2 (Mg2+),2,0.3000,0.1000,0.33,0.000e+00,1.000";
        "ZnCl2 (Zn2+),2,0.3000,0.1000,0.33,0.000e+00,1.000";
        "" ].
Proof.
  unfold SIExport.params_csv, SIExport.file_text, SIExport.params_lines,
    table_of, data_registry.
  cbn [flat_map entry_rows fit]. rewrite !fit_dataset_third.
  cbn [app map]. rewrite !third_line. reflexivity.
Qed.

End FormatExamples.
(** ** Further properties of the model evaluator *)

Section ModelShape.

Lemma ln_below_line (y : R) : 0 < y -> y <> 1 -> ln y < y - 1.
Proof.
  intros Hy Hne.
  assert (Hln : ln y <> 0).
  { intros H0. apply Hne. rewrite <- (exp_ln y Hy), H0. apply exp_0. }
  pose proof (exp_ineq1 (ln y) Hln) as H. rewrite exp_ln in H by assumption.
  lra.
Qed.

(** Above the threshold, for any exponent, the result is the real closed
    form. *)
Lemma percolation_above (x A B t : R) :
  x_c < x ->
  percolation_model_fixed_t x A B t
  = Fin (A * Rpower (x - x_c) t * exp (- B * x)).
Proof.
  intros Hx. unfold percolation_model_fixed_t, np_exp.
  rewrite np_power_pos by lra. reflexivity.
Qed.

Lemma percolation_at_threshold (A B t : R) :
  0 < t -> percolation_model_fixed_t x_c A B t = Fin 0.
Proof.
  intros Ht. unfold percolation_model_fixed_t, np_exp.
  replace (x_c - x_c) with 0 by lra.
  rewrite np_power_zero by assumption. simpl. f_equal. ring.
Qed.

(** The closed form as one exponential. *)
Lemma closed_form_exp (u A B t c : R) :
  0 < u ->
  A * Rpower u t * exp (- B * (u + c))
  = A * exp (t * ln u - B * u - B * c).
Proof.
  intros Hu. unfold Rpower. rewrite Rmult_assoc, <- exp_plus.
  do 2 f_equal. ring.
Qed.

(** The exponent [t * ln u - B * u] rises up to [u = t / B]. *)
Lemma exponent_rises (t B u1 u2 : R) :
  0 < t -> 0 < B -> 0 < u1 -> u1 < u2 -> u2 <= t / B ->
  t * ln u1 - B * u1 < t * ln u2 - B * u2.
Proof.
  intros Ht HB Hu1 Hlt Hu2.
  assert (Hy : 0 < u1 / u2) by (apply Rdiv_lt_0_compat; lra).
  assert (Hne : u1 / u2 <> 1).
  { intros H. apply (Rmult_eq_compat_r u2) in H.
    unfold Rdiv in H. rewrite Rmult_assoc, Rinv_l in H by lra. lra. }
  pose proof (ln_below_line (u1 / u2) Hy Hne) as Hln.
  unfold Rdiv in Hln at 1. rewrite ln_mult, ln_Rinv in Hln
    by (try apply Rinv_0_lt_compat; lra).
  assert (Hslope : B * (u2 - u1) <= t * ((u2 - u1) / u2)).
  { assert (HBu : B * u2 <= t).
    { apply (Rmult_le_compat_l B) in Hu2; [| lra].
      replace (B * (t / B)) with t in Hu2 by (field; lra). exact Hu2. }
    replace (t * ((u2 - u1) / u2)) with ((t / u2) * (u2 - u1))
      by (field; lra).
    apply Rmult_le_compat_r; [lra |].
    apply (Rmult_le_reg_r u2); [lra |].
    replace (t / u2 * u2) with t by (field; lra). exact HBu. }
  assert (Hgap : (u2 - u1) / u2 = 1 - u1 / u2) by (field; lra).
  rewrite Hgap in Hslope.
  assert (Ht' : t * (ln u1 - ln u2) < t * (u1 / u2 - 1))
    by (apply Rmult_lt_compat_l; lra).
  lra.
Qed.

(** It falls from [u = t / B] on. *)
Lemma exponent_falls (t B u1 u2 : R) :
  0 < t -> 0 < B -> t / B <= u1 -> u1 < u2 ->
  t * ln u2 - B * u2 < t * ln u1 - B * u1.
Proof.
  intros Ht HB Hu1 Hlt.
  assert (Hpos : 0 < t / B) by (apply Rdiv_lt_0_compat; lra).
  assert (Hy : 0 < u2 / u1) by (apply Rdiv_lt_0_compat; lra).
  assert (Hne : u2 / u1 <> 1).
  { intros H. apply (Rmult_eq_compat_r u1) in H.
    unfold Rdiv in H. rewrite Rmult_assoc, Rinv_l in H by lra. lra. }
  pose proof (ln_below_line (u2 / u1) Hy Hne) as Hln.
  unfold Rdiv in Hln at 1. rewrite ln_mult, ln_Rinv in Hln
    by (try apply Rinv_0_lt_compat; lra).
  assert (Hslope : t * ((u2 - u1) / u1) <= B * (u2 - u1)).
  { assert (HBu : t <= B * u1).
    { apply (Rmult_le_compat_l B) in Hu1; [| lra].
      replace (B * (t / B)) with t in Hu1 by (field; lra). exact Hu1. }
    replace (t * ((u2 - u1) / u1)) with ((t / u1) * (u2 - u1))
      by (field; lra).
    apply Rmult_le_compat_r; [lra |].
    apply (Rmult_le_reg_r u1); [lra |].
    replace (t / u1 * u1) with t by (field; lra). exact HBu. }
  assert (Hgap : (u2 - u1) / u1 = u2 / u1 - 1) by (field; lra).
  rewrite Hgap in Hslope.
  assert (Ht' : t * (ln u2 - ln u1) < t * (u2 / u1 - 1))
    by (apply Rmult_lt_compat_l; lra).
  lra.
Qed.

Lemma value_above (x A B t : R) :
  x_c < x ->
  value_of (percolation_model_fixed_t x A B t)
  = A * exp (t * ln (x - x_c) - B * (x - x_c) - B * x_c).
Proof.
  intros Hx. rewrite percolation_above by assumption. cbn [value_of].
  rewrite <- closed_form_exp by lra. do 3 f_equal. ring.
Qed.

End ModelShape.


(** ** The grid of the curves *)

Section GridFacts.

Lemma nth_map_in {A B : Type} (f : A -> B) (l : list A) (i : nat)
  (d : B) (d' : A) :
  (i < List.length l)%nat -> nth i (map f l) d = f (nth i l d').
Proof.
  revert i. induction l as [| a l IH]; intros i Hi; [simpl in Hi; lia |].
  destruct i as [| i]; [reflexivity |]. simpl in *. apply IH. lia.
Qed.

Lemma linspace_length (a b : R) (n : nat) : List.length (linspace a b n) = n.
Proof. unfold linspace. now rewrite length_map, length_seq. Qed.

Lemma linspace_nth (a b : R) (n i : nat) :
  (i < n)%nat ->
  nth i (linspace a b n) 0 = a + INR i * ((b - a) / INR (n - 1)).
Proof.
  intros Hi. unfold linspace.
  rewrite (nth_map_in _ _ _ _ O) by (now rewrite length_seq).
  rewrite seq_nth by assumption. reflexivity.
Qed.

Lemma INR_399 : INR 399 = 399.
Proof. rewrite INR_IZR_INZ. reflexivity. Qed.

Lemma x_smooth_nth (i : nat) :
  (i < 400)%nat -> nth i x_smooth 0 = 0.05 + INR i * (0.75 / 399).
Proof.
  intros Hi. unfold x_smooth. rewrite linspace_nth by assumption.
  change (400 - 1)%nat with 399%nat. rewrite INR_399. lra.
Qed.

Lemma x_smooth_in (xv : R) :
  In xv x_smooth -> exists i, (i < 400)%nat /\ xv = 0.05 + INR i * (0.75 / 399).
Proof.
  intros Hin. apply (In_nth _ _ 0) in Hin as (i & Hi & <-).
  unfold x_smooth in Hi. rewrite linspace_length in Hi.
  exists i. split; [assumption | now apply x_smooth_nth].
Qed.

End GridFacts.

(** ** More runs on the stand-in libraries *)

Lemma script_clamp_registry :
  script Demo.ext_clamp data_registry
  = Finished (finished_world Demo.ext_clamp data_registry).
Proof.
  apply script_all_ok; [apply all_ok_clamp |].
  apply data_registry_plot_ok, all_ok_clamp.
Qed.

(** ** Failures of the plotting loop *)

Section PlotFailures.

Variable ext : externals.

Lemma plot_loop_app (table : list fit_row) (pre rest : registry)
  (fig : list plot_cmd) :
  forallb (entry_plot_ok table) pre = true ->
  plot_loop (pre ++ rest) table fig
  = plot_loop rest table (fig ++ flat_map (entry_plot table) pre).
Proof.
  revert fig. induction pre as [| entry pre IH]; intros fig Hok.
  - simpl. now rewrite app_nil_r.
  - simpl in Hok. apply andb_prop in Hok as [Hentry Hpre].
    rewrite <- app_comm_cons, plot_loop_step, IH by assumption.
    simpl. now rewrite <- app_assoc.
Qed.

Lemma plot_loop_no_marker (table : list fit_row) (system : string)
  (d : dataset) (rest : registry) (fig : list plot_cmd) :
  lookup (valency d) markers = None ->
  plot_loop ((system, d) :: rest) table fig = Raise (KeyError (valency d)).
Proof.
  intros Hm. cbn [plot_loop]. unfold getitem. now rewrite Hm.
Qed.

Lemma plot_loop_no_color (table : list fit_row) (system : string)
  (d : dataset) (rest : registry) (fig : list plot_cmd) :
  lookup (valency d) markers <> None ->
  lookup system colors = None ->
  plot_loop ((system, d) :: rest) table fig = Raise (KeyError system).
Proof.
  intros Hm Hc. cbn [plot_loop]. unfold getitem.
  destruct (lookup (valency d) markers); [| contradiction].
  cbn [bind]. now rewrite Hc.
Qed.

Lemma script_plot_failure (reg : registry) (e : exception) :
  forallb (entry_ok ext) reg = true ->
  plot_loop reg (table_of ext reg) [] = Raise e ->
  script ext reg
  = Aborted {| printed := table_printed ext reg; files := [] |} e.
Proof.
  intros Hok Hplot. unfold script.
  rewrite fitting_loop_all_ok by assumption.
  rewrite fit_table_after_initial, Hplot. reflexivity.
Qed.

End PlotFailures.

(** ** When a run finishes *)

Section RunsThrough.

Variable ext : externals.

Lemma lookup_some {V : Type} (k : string) (l : list (string * V)) :
  lookup k l <> None -> exists v, lookup k l = Some v.
Proof. destruct (lookup k l) as [v |]; [now exists v | contradiction]. Qed.

Lemma entry_runs_ok (entry : string * dataset) :
  entry_runs ext entry -> entry_ok ext entry = true.
Proof.
  destruct entry as [system d]. intros (Hfit & _). unfold entry_ok.
  destruct (fit d); [| reflexivity].
  destruct (Hfit eq_refl) as (row & ->). reflexivity.
Qed.

Lemma entry_runs_plot_ok (reg : registry) (entry : string * dataset) :
  In entry reg -> entry_runs ext entry ->
  entry_plot_ok (table_of ext reg) entry = true.
Proof.
  destruct entry as [system d]. intros Hin (Hfit & Hm & Hc & Hlen).
  unfold entry_plot_ok.
  destruct (lookup_some _ _ Hm) as (marker & ->).
  destruct (lookup_some _ _ Hc) as (color & ->).
  rewrite Hlen, Nat.eqb_refl. cbn [andb].
  destruct (fit d) eqn:Hflag; [| reflexivity]. cbn [negb orb].
  destruct (Hfit eq_refl) as (row & Hcall).
  apply existsb_exists. exists row. split.
  - unfold table_of. apply in_flat_map. exists (system, d).
    split; [assumption |]. unfold entry_rows. rewrite Hflag, Hcall. now left.
  - destruct (fit_dataset_row ext system d row Hcall) as [-> _].
    apply String.eqb_refl.
Qed.

Lemma entry_ok_runs (table : list fit_row) (entry : string * dataset) :
  entry_ok ext entry = true -> entry_plot_ok table entry = true ->
  entry_runs ext entry.
Proof.
  destruct entry as [system d]. unfold entry_ok, entry_plot_ok, entry_runs.
  intros Hok Hplot.
  destruct (lookup (valency d) markers) as [marker |]; [| discriminate].
  destruct (lookup system colors) as [color |]; [| discriminate].
  apply andb_prop in Hplot as [Hlen _]. apply Nat.eqb_eq in Hlen.
  repeat split; try discriminate; try assumption.
  intros Hfit. rewrite Hfit in Hok.
  destruct (fit_dataset ext system d) as [row |]; [now exists row | discriminate].
Qed.

End RunsThrough.

(** ** The table of raw rows *)

Section RawTableFacts.

Variable ext : externals.

Lemma raw_rows_length (system : string) (d : dataset) :
  List.length (raw_rows system d) = zipped d.
Proof. unfold raw_rows, zipped. now rewrite length_map, length_combine. Qed.

Lemma raw_table_length (reg : registry) :
  List.length (flat_map entry_raw reg)
  = list_sum (map (fun entry => zipped (snd entry)) reg).
Proof.
  induction reg as [| [system d] reg IH]; [reflexivity |].
  cbn [flat_map map snd]. rewrite length_app, IH.
  change (list_sum (?a :: ?l)) with (a + list_sum l)%nat. f_equal.
  apply raw_rows_length.
Qed.

End RawTableFacts.


(** ** A zero prefactor *)

Section ZeroDivisor.

Local Open Scope string_scope.

Lemma np_divide_zero (b : R) :
  (b = 0 /\ np_divide b 0 = NaN) \/
  (0 < b /\ np_divide b 0 = Inf false) \/
  (b < 0 /\ np_divide b 0 = Inf true).
Proof.
  unfold np_divide, Rzero, Rneg.
  destruct (Req_dec_T 0 0) as [_ | H]; [| contradiction].
  destruct (Req_dec_T b 0) as [Hb | Hb]; [now left |].
  destruct (Rlt_dec b 0) as [Hneg | Hpos]; right; [right | left];
    split; try reflexivity; lra.
Qed.

End ZeroDivisor.

(** ** Values that are written without loss *)

Section ExactFacts.

Local Open Scope string_scope.

Import CsvReader.

Lemma round_half_even_IZR (z : Z) : round_half_even (IZR z) = z.
Proof. apply round_half_even_near. lra. Qed.

Lemma format_f_exact (p : nat) (r : R) :
  decimals (S p) r ->
  parse_float (format_f (S p) (Fin r)) = Some (Fin r).
Proof.
  intros (z & Hz). rewrite format_f_read. do 2 f_equal.
  pose proof (pow10_pos (S p)) as Hp.
  assert (Hs : Rabs r * 10 ^ S p = IZR (Z.abs z)).
  { rewrite abs_IZR, <- Hz, Rabs_mult. f_equal.
    symmetry. apply Rabs_pos_eq. lra. }
  rewrite Hs, round_half_even_IZR, <- Hs.
  replace (Rabs r * 10 ^ S p / 10 ^ S p) with (Rabs r) by (field; lra).
  apply Rabs_apply_sign.
Qed.

Lemma sci_parts_exact (p : nat) (r : R) (m e : Z) :
  (10 ^ Z.of_nat p <= m < 10 ^ Z.of_nat (S p))%Z ->
  Rabs r = IZR m * powerRZ 10 e ->
  sci_parts p r = (m, (e + Z.of_nat p)%Z).
Proof.
  intros [Hlo Hhi] Hr.
  pose proof (Zpow10_pos p) as Hz. pose proof (pow10_pos p) as Hp.
  pose proof (powerRZ_10_pos e) as He.
  assert (Hm : IZR (10 ^ Z.of_nat p) <= IZR m < IZR (10 ^ Z.of_nat (S p)))
    by (split; [apply IZR_le | apply IZR_lt]; assumption).
  rewrite <- !pow10_IZR in Hm.
  assert (Hpos : 0 < Rabs r) by (rewrite Hr; nra).
  assert (Hne : r <> 0) by (intros ->; rewrite Rabs_R0 in Hpos; lra).
  unfold sci_parts, Rzero. destruct (Req_dec_T r 0); [contradiction |].
  assert (Hexp : dec_exponent (Rabs r) = (e + Z.of_nat p)%Z).
  { apply dec_exponent_unique. rewrite Hr.
    replace (e + Z.of_nat p + 1)%Z with (e + Z.of_nat (S p))%Z by lia.
    rewrite !powerRZ_10_add, !powerRZ_10_nat. nra. }
  rewrite Hexp.
  assert (Hscaled : Rabs r * powerRZ 10 (Z.of_nat p - (e + Z.of_nat p))
                    = IZR m).
  { rewrite Hr. replace (Z.of_nat p - (e + Z.of_nat p))%Z with (0 - e)%Z by lia.
    rewrite powerRZ_10_sub. change (powerRZ 10 0) with 1. field. lra. }
  rewrite Hscaled, round_half_even_IZR.
  destruct (Z.eqb_spec m (10 ^ Z.of_nat (S p))); [lia | reflexivity].
Qed.

Lemma format_e_exact (p : nat) (r : R) :
  significant (S p) r ->
  parse_float (format_e (S p) (Fin r)) = Some (Fin r).
Proof.
  intros Hsig. rewrite format_e_read. do 2 f_equal.
  destruct Hsig as [-> | (m & e & Hm & Hr)].
  - unfold sci_parts, Rzero. destruct (Req_dec_T 0 0); [| contradiction].
    cbn [fst snd]. unfold apply_sign. destruct (Rneg 0); unfold Rdiv; ring.
  - rewrite (sci_parts_exact (S p) r m e Hm Hr). cbn [fst snd].
    pose proof (pow10_pos (S p)) as Hp.
    rewrite powerRZ_10_add, powerRZ_10_nat.
    replace (IZR m / 10 ^ S p * (powerRZ 10 e * 10 ^ S p)) with (Rabs r)
      by (rewrite Hr; field; lra).
    apply Rabs_apply_sign.
Qed.

Lemma parse_point_exact (pt : string * dataset * R * R) :
  name_ok (fst (fst (fst pt))) = true ->
  decimals 2 (snd (fst pt)) -> significant 3 (snd pt) ->
  parse_raw_line (point_body pt) = Some (exact_record pt).
Proof.
  destruct pt as [[[system d] xi] si]. cbn [fst snd point_body exact_record].
  intros Hname Hx Hs. unfold parse_raw_line.
  rewrite raw_line_body_fields by assumption.
  now rewrite (format_f_exact 1), (format_e_exact 2).
Qed.

Lemma parse_points_exact (pts : list (string * dataset * R * R)) :
  Forall (fun pt => name_ok (fst (fst (fst pt))) = true /\
                    decimals 2 (snd (fst pt)) /\ significant 3 (snd pt)) pts ->
  parse_all parse_raw_line (map point_body pts) = Some (map exact_record pts).
Proof.
  induction pts as [| pt pts IH]; intros Hall; [reflexivity |].
  inversion Hall as [| ? ? (Hn & Hx & Hs) Hrest]; subst.
  cbn [map parse_all]. now rewrite parse_point_exact, IH.
Qed.

Lemma points_values (reg : registry) :
  Forall (fun entry => name_ok (fst entry) = true /\
                       Forall (decimals 2) (x (snd entry)) /\
                       Forall (significant 3) (sigma (snd entry))) reg ->
  Forall (fun pt => name_ok (fst (fst (fst pt))) = true /\
                    decimals 2 (snd (fst pt)) /\ significant 3 (snd pt))
         (points reg).
Proof.
  intros Hreg. apply Forall_forall. intros pt Hpt.
  unfold points in Hpt. apply in_flat_map in Hpt as (entry & Hentry & Hpt).
  apply in_map_iff in Hpt as ([xi si] & <- & Hin). cbn [fst snd].
  destruct (proj1 (Forall_forall _ _) Hreg entry Hentry) as (Hn & Hx & Hs).
  split; [assumption |]. split.
  - apply (proj1 (Forall_forall _ _) Hx). now apply in_combine_l in Hin.
  - apply (proj1 (Forall_forall _ _) Hs). now apply in_combine_r in Hin.
Qed.

End ExactFacts.

Section RegistryValues.

Lemma decimals_intro (p : nat) (r : R) (z : Z) :
  r * 10 ^ p = IZR z -> decimals p r.
Proof. intros H. now exists z. Qed.

Lemma significant_intro (r : R) (m : Z) (k : nat) :
  (1000 <= m < 10000)%Z -> 0 <= r -> r * 10 ^ k = IZR m ->
  significant 3 r.
Proof.
  intros Hm Hr Heq. right. exists m, (- Z.of_nat k)%Z. split; [exact Hm |].
  rewrite Rabs_pos_eq by assumption.
  replace (- Z.of_nat k)%Z with (0 - Z.of_nat k)%Z by lia.
  rewrite powerRZ_10_sub, powerRZ_10_nat. change (powerRZ 10 0) with 1.
  pose proof (pow10_pos k). rewrite <- Heq. field. lra.
Qed.

Lemma data_registry_values :
  Forall (fun entry => name_ok (fst entry) = true /\
                       Forall (decimals 2) (x (snd entry)) /\
                       Forall (significant 3) (sigma (snd entry)))
         data_registry.
Proof.
  unfold data_registry.
  repeat (constructor; [cbn [fst snd x sigma]; split; [reflexivity |] |]).
  - split.
    + repeat apply Forall_cons;
        [ apply (decimals_intro 2 _ 10) | apply (decimals_intro 2 _ 20)
        | apply (decimals_intro 2 _ 30) | apply (decimals_intro 2 _ 40)
        | apply (decimals_intro 2 _ 50)
        | apply Forall_nil ]; lra.
    + repeat apply Forall_cons;
        [ apply (significant_intro _ 4980 10)
        | apply (significant_intro _ 3550 9)
        | apply (significant_intro _ 3610 8)
        | apply (significant_intro _ 6610 7)
        | apply (significant_intro _ 2080 6)
        | apply Forall_nil ]; first [lia | lra].
  - split.
    + repeat apply Forall_cons;
        [ apply (decimals_intro 2 _ 5) | apply (decimals_intro 2 _ 10)
        | apply (decimals_intro 2 _ 15) | apply (decimals_intro 2 _ 20)
        | apply Forall_nil ]; lra.
    + repeat apply Forall_cons;
        [ apply (significant_intro _ 1850 10)
        | apply (significant_intro _ 2700 9)
        | apply (significant_intro _ 2400 9)
        | apply (significant_intro _ 2200 9)
        | apply Forall_nil ]; first [lia | lra].
  - split.
    + repeat apply Forall_cons;
        [ apply (decimals_intro 2 _ 30) | apply (decimals_intro 2 _ 40)
        | apply (decimals_intro 2 _ 50) | apply (decimals_intro 2 _ 60)
        | apply (decimals_intro 2 _ 70)
        | apply Forall_nil ]; lra.
    + repeat apply Forall_cons;
        [ apply (significant_intro _ 5100 9)
        | apply (significant_intro _ 9700 8)
        | apply (significant_intro _ 3700 7)
        | apply (significant_intro _ 1200 6)
        | apply (significant_intro _ 4500 6)
        | apply Forall_nil ]; first [lia | lra].
  - split.
    + repeat apply Forall_cons;
        [ apply (decimals_intro 2 _ 30) | apply (decimals_intro 2 _ 40)
        | apply (decimals_intro 2 _ 50) | apply (decimals_intro 2 _ 60)
        | apply Forall_nil ]; lra.
    + repeat apply Forall_cons;
        [ apply (significant_intro _ 4860 9)
        | apply (significant_intro _ 6860 8)
        | apply (significant_intro _ 7700 7)
        | apply (significant_intro _ 7530 7)
        | apply Forall_nil ]; first [lia | lra].
  - split.
    + repeat apply Forall_cons;
        [ apply (decimals_intro 2 _ 50) | apply (decimals_intro 2 _ 60)
        | apply (decimals_intro 2 _ 70)
        | apply Forall_nil ]; lra.
    + repeat apply Forall_cons;
        [ apply (significant_intro _ 6720 7)
        | apply (significant_intro _ 4490 6)
        | apply (significant_intro _ 4210 6)
        | apply Forall_nil ]; first [lia | lra].
  - constructor.
Qed.

End RegistryValues.

(** ** The parameters file as a whole *)

Section ParamsRoundTrip.

Local Open Scope string_scope.

Import CsvReader ParamsReader.

Lemma strip_sign_digit (c : ascii) (rest : string) :
  is_digit c = true -> strip_sign (String c rest) = (false, String c rest).
Proof.
  intros Hc. destruct c as [b0 b1 b2 b3 b4 b5 b6 b7].
  destruct b0, b1, b2, b3, b4, b5, b6, b7; try discriminate Hc; reflexivity.
Qed.

(** The charge column is read back as the integer it was written from. *)
Lemma parse_int_str_int (z : Z) : parse_int (str_int z) = Some z.
Proof.
  unfold str_int, parse_int. destruct (Z.ltb_spec z 0) as [Hneg | Hpos].
  - cbn [append strip_sign]. rewrite parse_nat_str_nat by lia.
    cbn [option_map]. f_equal. lia.
  - destruct (str_nat_head z) as (c & rest & Hs & Hc).
    rewrite Hs, strip_sign_digit by assumption. rewrite <- Hs.
    rewrite parse_nat_str_nat by assumption. reflexivity.
Qed.

Lemma format_f_close (p : nat) (v : npfloat) :
  exists v', parse_float (format_f (S p) v) = Some v' /\ close_f (S p) v v'.
Proof.
  destruct v as [r | [|] |].
  - destruct (format_f_roundtrip p r) as (r' & Hparse & Herr).
    exists (Fin r'). now split.
  - exists (Inf true). now split.
  - exists (Inf false). now split.
  - exists NaN. now split.
Qed.

Lemma format_e_close (p : nat) (v : npfloat) :
  exists v', parse_float (format_e (S p) v) = Some v' /\ close_e (S p) v v'.
Proof.
  destruct v as [r | [|] |].
  - destruct (format_e_roundtrip p r) as (r' & Hparse & Herr).
    exists (Fin r'). now split.
  - exists (Inf true). now split.
  - exists (Inf false). now split.
  - exists NaN. now split.
Qed.

Lemma format_f_field (prec : nat) (v : npfloat) :
  all_chars field_char (format_f prec v) = true.
Proof.
  destruct v as [r | [|] |]; try reflexivity.
  apply numeric_field, format_f_numeric.
Qed.

Lemma format_e_field (prec : nat) (v : npfloat) :
  all_chars field_char (format_e prec v) = true.
Proof.
  destruct v as [r | [|] |]; try reflexivity.
  apply numeric_field, format_e_numeric.
Qed.

Lemma str_int_field (z : Z) : all_chars field_char (str_int z) = true.
Proof. apply numeric_field, str_int_numeric. Qed.

Lemma params_line_split (row : fit_row) :
  SIExport.params_line row = params_line_body row ++ SIExport.newline.
Proof.
  unfold SIExport.params_line, params_line_body.
  now rewrite !str_app_assoc.
Qed.

Lemma params_line_fields (row : fit_row) :
  name_ok (row_system row) = true ->
  split_on "," (params_line_body row)
  = [ row_system row; str_int (row_charge row);
      format_f 4 (Fin (row_A row)); format_f 4 (Fin (row_B row));
      format_f 2 (row_vpi row); format_e 3 (row_rmse row);
      format_f 3 (row_r2 row) ].
Proof.
  intros Hname. unfold params_line_body.
  change ("," ++ ?s) with (String "," s).
  rewrite split_on_app by now apply field_no_comma.
  change ("," ++ ?s) with (String "," s).
  rewrite split_on_app by apply field_no_comma, str_int_field.
  change ("," ++ ?s) with (String "," s).
  rewrite split_on_app by apply field_no_comma, format_f_field.
  change ("," ++ ?s) with (String "," s).
  rewrite split_on_app by apply field_no_comma, format_f_field.
  change ("," ++ ?s) with (String "," s).
  rewrite split_on_app by apply field_no_comma, format_f_field.
  change ("," ++ ?s) with (String "," s).
  rewrite split_on_app by apply field_no_comma, format_e_field.
  rewrite split_on_absent by apply field_no_comma, format_f_field.
  reflexivity.
Qed.

Lemma params_line_no_newline (row : fit_row) :
  name_ok (row_system row) = true ->
  all_chars (is_not newline_char) (params_line_body row) = true.
Proof.
  intros Hname. apply field_no_newline in Hname as Hnl.
  unfold params_line_body. rewrite !all_chars_app, Hnl.
  rewrite (field_no_newline (str_int _)) by apply str_int_field.
  rewrite !(field_no_newline (format_f _ _)) by apply format_f_field.
  rewrite (field_no_newline (format_e _ _)) by apply format_e_field.
  reflexivity.
Qed.

Lemma parse_row (row : fit_row) :
  name_ok (row_system row) = true ->
  exists rec,
    parse_params_line (params_line_body row) = Some rec /\
    agrees_row row rec.
Proof.
  intros Hname. unfold parse_params_line.
  rewrite params_line_fields by assumption.
  rewrite parse_int_str_int.
  destruct (format_f_close 3 (Fin (row_A row))) as (a & -> & Ha).
  destruct (format_f_close 3 (Fin (row_B row))) as (b & -> & Hb).
  destruct (format_f_close 1 (row_vpi row)) as (v & -> & Hv).
  destruct (format_e_close 2 (row_rmse row)) as (rm & -> & Hrm).
  destruct (format_f_close 2 (row_r2 row)) as (r2 & -> & Hr2).
  eexists. split; [reflexivity |].
  unfold agrees_row. repeat split; assumption.
Qed.

Lemma parse_rows (table : list fit_row) :
  Forall (fun row => name_ok (row_system row) = true) table ->
  exists recs,
    parse_all parse_params_line (map params_line_body table) = Some recs /\
    Forall2 agrees_row table recs.
Proof.
  induction table as [| row table IH]; intros Hnames.
  - exists []. split; [reflexivity | constructor].
  - inversion Hnames as [| ? ? Hrow Hrest]; subst.
    destruct (parse_row row Hrow) as (rec & Hrec & Hagree).
    destruct (IH Hrest) as (recs & Hrecs & Hall).
    exists (rec :: recs). split; [| now constructor].
    cbn [map parse_all]. now rewrite Hrec, Hrecs.
Qed.

Lemma params_csv_lines (table : list fit_row) :
  Forall (fun row => name_ok (row_system row) = true) table ->
  lines_of (SIExport.params_csv table)
  = "System,Charge,A,B,VPI,RMSE_S_cm,R2" :: map params_line_body table.
Proof.
  intros Hnames.
  unfold lines_of, SIExport.params_csv, SIExport.file_text,
    SIExport.params_lines.
  assert (Hmap : map SIExport.params_line table
                 = map (fun b => b ++ SIExport.newline)
                       (map params_line_body table)).
  { rewrite map_map. apply map_ext. apply params_line_split. }
  rewrite Hmap. unfold SIExport.params_header. rewrite <- concat_cons.
  change ((?h ++ SIExport.newline) :: map ?f ?l) with (map f (h :: l)).
  rewrite split_on_text.
  - now rewrite removelast_last.
  - constructor; [reflexivity |].
    apply Forall_forall. intros b Hb.
    apply in_map_iff in Hb as (row & <- & Hrow).
    apply params_line_no_newline.
    now apply (proj1 (Forall_forall _ _) Hnames).
Qed.

Lemma table_names (ext : externals) (reg : registry) :
  Forall (fun entry => name_ok (fst entry) = true) reg ->
  Forall (fun row => name_ok (row_system row) = true) (table_of ext reg).
Proof.
  intros Hnames. apply Forall_forall. intros row Hrow.
  destruct (table_row_origin ext reg row Hrow) as (d & Hin & _).
  exact (proj1 (Forall_forall _ _) Hnames _ Hin).
Qed.

End ParamsRoundTrip.

(** ** What the bounds of the solver imply *)

Section BoundsFacts.

Local Open Scope string_scope.

Lemma quotient_range (A B : R) :
  1e-4 <= A <= 1.0 -> 0.01 <= B <= 10.0 -> 0.01 <= B / A <= 100000.
Proof.
  intros HA HB.
  assert (Hpos : 0 < A) by lra.
  assert (Hinv : 0 < / A) by now apply Rinv_0_lt_compat.
  assert (H1 : A * / A = 1) by (apply Rinv_r; lra).
  unfold Rdiv. split; nra.
Qed.

Lemma spaces_length (n : nat) : String.length (spaces n) = n.
Proof. induction n as [| n IH]; simpl; [reflexivity | now rewrite IH]. Qed.

Lemma ljust_length (w : nat) (s : string) :
  String.length (ljust w s) = Nat.max w (String.length s).
Proof. unfold ljust. rewrite str_length_app, spaces_length. lia. Qed.

Lemma ndigits_fuel_le (fuel k : nat) (n : Z) :
  (0 <= n < 10 ^ Z.of_nat (S k))%Z -> (ndigits_fuel fuel n <= S k)%nat.
Proof.
  revert k n. induction fuel as [| fuel IH]; intros k n Hn;
    [simpl; lia |].
  cbn [ndigits_fuel]. destruct (Z.ltb_spec n 10) as [Hlt | Hge]; [lia |].
  destruct k as [| k]; [simpl in Hn; lia |].
  apply le_n_S, IH. split; [apply Z.div_pos; lia |].
  apply Z.div_lt_upper_bound; [lia |].
  rewrite (Nat2Z.inj_succ (S k)), Z.pow_succ_r in Hn by lia. lia.
Qed.

Lemma str_nat_length_le (k : nat) (n : Z) :
  (0 <= n < 10 ^ Z.of_nat (S k))%Z -> (String.length (str_nat n) <= S k)%nat.
Proof.
  intros Hn. unfold str_nat. rewrite digits_length.
  now apply ndigits_fuel_le.
Qed.

(** The text of a number between 0 and [10^(k+1) - 1] with [p + 1]
    decimals has at most [k + p + 3] characters. *)
Lemma format_f_length_le (p k : nat) (r : R) :
  0 <= r <= IZR (10 ^ Z.of_nat (S k) - 1) ->
  (String.length (format_f (S p) (Fin r)) <= S k + 1 + S p)%nat.
Proof.
  intros [Hlo Hhi]. unfold format_f, sign_str, Rneg.
  destruct (Rlt_dec r 0); [lra |]. rewrite Rabs_pos_eq by assumption.
  set (m := round_half_even (r * 10 ^ S p)).
  pose proof (Zpow10_pos (S p)) as Hz. pose proof (pow10_pos (S p)) as Hp.
  assert (Hm0 : (0 <= m)%Z) by (apply (round_half_even_ge 0); nra).
  assert (Hm1 : (m <= (10 ^ Z.of_nat (S k) - 1) * 10 ^ Z.of_nat (S p))%Z).
  { apply round_half_even_le. rewrite mult_IZR, <- pow10_IZR.
    apply Rmult_le_compat_r; lra. }
  assert (Hip : (0 <= m / 10 ^ Z.of_nat (S p) < 10 ^ Z.of_nat (S k))%Z).
  { split; [apply Z.div_pos; lia |].
    apply Z.div_lt_upper_bound; [lia |]. nia. }
  cbn [append]. rewrite str_length_app. unfold frac_str.
  change ("." ++ digits (S p) m) with (String "." (digits (S p) m)).
  cbn [String.length]. rewrite digits_length.
  pose proof (str_nat_length_le k _ Hip). lia.
Qed.

(** The row of a fit with a solver that keeps inside its bounds. *)
Lemma fit_row_bounds (ext : externals) (system : string) (d : dataset)
  (row : fit_row) :
  respects_bounds ext ->
  fit_dataset ext system d = Ok row ->
  1e-4 <= row_A row <= 1 /\ 0.01 <= row_B row <= 10 /\
  (exists v, row_vpi row = Fin v /\ 0.01 <= v <= 100000).
Proof.
  intros Hbounds Hcall.
  destruct (fit_dataset_row ext system d row Hcall) as (_ & _ & Hvpi & Hfit).
  apply Hbounds in Hfit as [HA HB]. cbn [fit_bounds fst snd] in HA, HB.
  split; [lra |]. split; [lra |].
  exists (row_B row / row_A row). split.
  - rewrite Hvpi. unfold np_divide, Rzero.
    destruct (Req_dec_T (row_A row) 0); [lra | reflexivity].
  - now apply quotient_range.
Qed.

End BoundsFacts.


(** ** Inside the range of float64 *)

Section RangeFacts.

Lemma Rabs_le_bounds (u c : R) : Rabs u <= c -> - c <= u <= c.
Proof. unfold Rabs. destruct (Rcase_abs u); lra. Qed.

Lemma exp_INR (n : nat) : exp (INR n) = exp 1 ^ n.
Proof.
  induction n as [| n IH]; [simpl; apply exp_0 |].
  rewrite S_INR, exp_plus, IH. simpl. ring.
Qed.

Lemma exp_200 : exp 200 <= 1e100.
Proof.
  replace 200 with (INR 200) by (rewrite INR_IZR_INZ; reflexivity).
  rewrite exp_INR.
  apply Rle_trans with (3 ^ 200).
  - apply pow_incr. split; [left; apply exp_pos | apply exp_le_3].
  - change 200%nat with (2 * 100)%nat. rewrite pow_mult.
    apply Rle_trans with (10 ^ 100); [| lra].
    apply pow_incr. lra.
Qed.

(** The exponential of an argument of magnitude at most 200. *)
Lemma exp_moderate (u : R) :
  Rabs u <= 200 -> 1e-100 <= exp u <= 1e100.
Proof.
  intros Hu. apply Rabs_le_bounds in Hu.
  pose proof exp_200 as H200.
  assert (Hinv : exp (- 200) = / exp 200) by apply exp_Ropp.
  pose proof (exp_pos 200) as Hpos.
  split.
  - apply Rle_trans with (exp (- 200)).
    + rewrite Hinv.
      replace 1e-100 with (/ 1e100) by lra.
      apply Rinv_le_contravar; assumption.
    + destruct (Req_dec_T (- 200) u) as [<- | Hne]; [lra |].
      left. apply exp_increasing. lra.
  - apply Rle_trans with (exp 200); [| assumption].
    destruct (Req_dec_T u 200) as [-> | Hne]; [lra |].
    left. apply exp_increasing. lra.
Qed.


Lemma sqrt_1e30 : sqrt 1e30 = 1e15.
Proof. replace 1e30 with (1e15 * 1e15) by lra. apply sqrt_square. lra. Qed.

Lemma sqrt_1e_30 : sqrt 1e-30 = 1e-15.
Proof. replace 1e-30 with (1e-15 * 1e-15) by lra. apply sqrt_square. lra. Qed.

(** The power 4.5 of a moderate base. *)
Lemma power_moderate (b : R) :
  1e-30 <= b <= 1e30 -> 1e-135 <= b ^ 4 * sqrt b <= 1e135.
Proof.
  intros [Hlo Hhi].
  assert (Hs : 1e-15 <= sqrt b <= 1e15).
  { split.
    - rewrite <- sqrt_1e_30. apply sqrt_le_1; lra.
    - rewrite <- sqrt_1e30. apply sqrt_le_1; lra. }
  assert (Hp : 1e-120 <= b ^ 4 <= 1e120).
  { split.
    - apply Rle_trans with (1e-30 ^ 4); [lra |]. apply pow_incr. lra.
    - apply Rle_trans with (1e30 ^ 4); [| lra]. apply pow_incr. lra. }
  split.
  - apply Rle_trans with (1e-120 * 1e-15); [lra |].
    apply Rmult_le_compat; lra.
  - apply Rle_trans with (1e120 * 1e15); [| lra].
    apply Rmult_le_compat; lra.
Qed.

(** From the threshold on the evaluator returns the formula of the
    description. *)
Lemma model_closed_form (x A B : R) :
  x_c <= x -> model x A B = Fin (spec_closed_form x A B).
Proof.
  intros Hx. unfold spec_closed_form. change 0.05 with x_c.
  destruct (Req_dec_T x x_c) as [-> | Hne].
  - rewrite model_at_threshold. f_equal.
    replace (x_c - x_c) with 0 by lra. rewrite sqrt_0. ring.
  - rewrite model_above by lra. now rewrite Rpower_t_default by lra.
Qed.

Lemma normal_or_zero_mult (a b la ha lb hb : R) :
  0 < la -> 0 < lb ->
  1e-300 <= la * lb -> ha * hb <= 1e300 ->
  (a = 0 \/ la <= Rabs a <= ha) ->
  (b = 0 \/ lb <= Rabs b <= hb) ->
  a * b = 0 \/ la * lb <= Rabs (a * b) <= ha * hb.
Proof.
  intros Hla Hlb _ _ [-> | Ha] [-> | Hb];
    [left; ring | left; ring | left; ring |].
  right. rewrite Rabs_mult. split; apply Rmult_le_compat; lra.
Qed.

(** Inside the range no intermediate result of the evaluator leaves the
    magnitudes that float64 holds as normal numbers: the power, its
    product with the prefactor, the exponential and the result. *)
Lemma float64_range_normal (x A B : R) :
  x_c <= x -> float64_range x A B ->
  normal_or_zero ((x - 0.05) ^ 4 * sqrt (x - 0.05)) /\
  normal_or_zero (A * ((x - 0.05) ^ 4 * sqrt (x - 0.05))) /\
  normal_or_zero (exp (- B * x)) /\
  normal_or_zero (spec_closed_form x A B).
Proof.
  intros Hx (Hb & HA & HE). change 0.05 with x_c.
  assert (Hp : (x - x_c) ^ 4 * sqrt (x - x_c) = 0 \/
               1e-135 <= Rabs ((x - x_c) ^ 4 * sqrt (x - x_c)) <= 1e135).
  { destruct Hb as [-> | Hb]; [left; rewrite sqrt_0; ring | right].
    rewrite Rabs_pos_eq in Hb by lra.
    pose proof (power_moderate _ Hb) as Hpow.
    rewrite Rabs_pos_eq by lra. exact Hpow. }
  assert (He : exp (- B * x) = 0 \/ 1e-100 <= Rabs (exp (- B * x)) <= 1e100).
  { right. rewrite Rabs_pos_eq by (left; apply exp_pos).
    apply exp_moderate. replace (- B * x) with (- (B * x)) by ring.
    now rewrite Rabs_Ropp. }
  assert (HAp : A * ((x - x_c) ^ 4 * sqrt (x - x_c)) = 0 \/
                1e-30 * 1e-135
                <= Rabs (A * ((x - x_c) ^ 4 * sqrt (x - x_c)))
                <= 1e30 * 1e135)
    by (apply normal_or_zero_mult; try assumption; lra).
  assert (Hv : A * ((x - x_c) ^ 4 * sqrt (x - x_c)) * exp (- B * x) = 0 \/
               1e-30 * 1e-135 * 1e-100
               <= Rabs (A * ((x - x_c) ^ 4 * sqrt (x - x_c)) * exp (- B * x))
               <= 1e30 * 1e135 * 1e100)
    by (apply normal_or_zero_mult; try assumption; lra).
  unfold normal_or_zero, spec_closed_form. change 0.05 with x_c.
  repeat split.
  - destruct Hp as [Hp | Hp]; [now left | right; lra].
  - destruct HAp as [H | H]; [now left | right; lra].
  - destruct He as [H | H]; [now left | right; lra].
  - destruct Hv as [H | H]; [now left | right; lra].
Qed.

(** Every parameter pair inside the solver's box and every fraction from
    the threshold to 1 that float64 tells from the threshold is inside
    the range. *)
Lemma fit_bounds_in_range (x A B : R) :
  in_fit_bounds A B -> x = x_c \/ x_c + 1e-17 <= x <= 1 ->
  float64_range x A B.
Proof.
  unfold in_fit_bounds, fit_bounds, float64_range, moderate, x_c.
  cbn [fst snd]. intros [HA HB] Hx.
  split; [| split].
  - destruct Hx as [-> | Hx]; [left; lra | right].
    rewrite Rabs_pos_eq by lra. lra.
  - right. rewrite Rabs_pos_eq by lra. lra.
  - rewrite Rabs_pos_eq by nra. nra.
Qed.

End RangeFacts.

(** ** The files of a finished run *)

Section FinishedRunFacts.

Local Open Scope string_scope.

Import CsvReader ParamsReader.

(** The keys of [colors] are names without a comma or a newline. *)
Lemma color_names_ok (system : string) :
  lookup system colors <> None -> name_ok system = true.
Proof.
  unfold colors. cbn [lookup]. intros Hcolor.
  repeat match type of Hcolor with
         | context [String.eqb ?k system] =>
             let Heq := fresh "Heq" in
             destruct (String.eqb k system) eqn:Heq;
             [apply String.eqb_eq in Heq; subst system; reflexivity |]
         end.
  now contradiction Hcolor.
Qed.

Lemma entry_plot_ok_color (table : list fit_row) (system : string)
  (d : dataset) :
  entry_plot_ok table (system, d) = true -> lookup system colors <> None.
Proof.
  unfold entry_plot_ok.
  destruct (lookup (valency d) markers); [| discriminate].
  destruct (lookup system colors); [discriminate | discriminate].
Qed.

Lemma entry_plot_ok_lengths (table : list fit_row) (system : string)
  (d : dataset) :
  entry_plot_ok table (system, d) = true ->
  List.length (x d) = List.length (sigma d).
Proof.
  unfold entry_plot_ok.
  destruct (lookup (valency d) markers); [| discriminate].
  destruct (lookup system colors); [| discriminate].
  intros H. apply andb_prop in H as [H _]. now apply Nat.eqb_eq.
Qed.

(** A run finishes only over a registry whose names are keys of
    [colors]: every other name ends it at the plotting. *)
Lemma finished_names_ok (ext : externals) (reg : registry) (w : world) :
  script ext reg = Finished w ->
  Forall (fun entry => name_ok (fst entry) = true) reg.
Proof.
  intros Hrun. apply script_finished_inv in Hrun as (_ & Hplot & _).
  apply Forall_forall. intros [system d] Hin. cbn [fst].
  apply color_names_ok, (entry_plot_ok_color (table_of ext reg) system d).
  exact (proj1 (forallb_forall _ _) Hplot _ Hin).
Qed.

Lemma finished_lengths (ext : externals) (reg : registry) (w : world) :
  script ext reg = Finished w ->
  Forall (fun entry =>
            List.length (x (snd entry)) = List.length (sigma (snd entry)))
         reg.
Proof.
  intros Hrun. apply script_finished_inv in Hrun as (_ & Hplot & _).
  apply Forall_forall. intros [system d] Hin. cbn [snd].
  apply (entry_plot_ok_lengths (table_of ext reg) system d).
  exact (proj1 (forallb_forall _ _) Hplot _ Hin).
Qed.

(** The lines of the raw file of a finished run. *)
Lemma finished_raw_file (ext : externals) (reg : registry) (w : world) :
  script ext reg = Finished w ->
  exists text,
    file_of w raw_file = Some text /\
    lines_of text
    = "System,Charge,Salt_Weight_Fraction,Conductivity_S_cm"
      :: map point_body (points reg).
Proof.
  intros Hrun. pose proof (finished_names_ok _ _ _ Hrun) as Hnames.
  apply script_finished_inv in Hrun as (_ & _ & ->).
  exists (SIExport.raw_csv reg). split; [reflexivity |].
  now apply raw_csv_lines.
Qed.

(** The lines of the parameters file of a finished run. *)
Lemma finished_params_file (ext : externals) (reg : registry) (w : world) :
  script ext reg = Finished w ->
  exists text,
    file_of w params_file = Some text /\
    lines_of text
    = "System,Charge,A,B,VPI,RMSE_S_cm,R2"
      :: map params_line_body (table_of ext reg).
Proof.
  intros Hrun. pose proof (finished_names_ok _ _ _ Hrun) as Hnames.
  apply script_finished_inv in Hrun as (_ & _ & ->).
  exists (SIExport.params_csv (table_of ext reg)). split; [reflexivity |].
  now apply params_csv_lines, table_names.
Qed.

(** The records of the parameters file of a finished run. *)
Lemma finished_params_records (ext : externals) (reg : registry) (w : world) :
  script ext reg = Finished w ->
  exists text recs,
    file_of w params_file = Some text /\
    parse_params_csv text = Some recs /\
    Forall2 agrees_row (table_of ext reg) recs.
Proof.
  intros Hrun. pose proof (finished_names_ok _ _ _ Hrun) as Hnames.
  destruct (finished_params_file _ _ _ Hrun) as (text & Hfile & Hlines).
  destruct (parse_rows (table_of ext reg) (table_names ext reg Hnames))
    as (recs & Hparse & Hall).
  exists text, recs. split; [assumption |]. split; [| assumption].
  unfold parse_params_csv. rewrite Hlines. exact Hparse.
Qed.

(** The records of the raw file of a finished run. *)
Lemma finished_raw_records (ext : externals) (reg : registry) (w : world) :
  script ext reg = Finished w ->
  exists text recs,
    file_of w raw_file = Some text /\
    parse_raw_csv text = Some recs /\
    Forall2 agrees (points reg) recs.
Proof.
  intros Hrun. pose proof (finished_names_ok _ _ _ Hrun) as Hnames.
  destruct (finished_raw_file _ _ _ Hrun) as (text & Hfile & Hlines).
  destruct (parse_points (points reg) (points_names reg Hnames))
    as (recs & Hparse & Hall).
  exists text, recs. split; [assumption |]. split; [| assumption].
  unfold parse_raw_csv. rewrite Hlines. exact Hparse.
Qed.

Lemma Forall2_filter {A B : Type} (R : A -> B -> Prop) (f : A -> bool)
  (g : B -> bool) (l : list A) (l' : list B) :
  (forall a b, R a b -> f a = g b) ->
  Forall2 R l l' -> Forall2 R (filter f l) (filter g l').
Proof.
  intros Hfg Hall. induction Hall as [| a b l l' Hab Hall IH];
    [constructor |].
  cbn [filter]. rewrite <- (Hfg a b Hab).
  destruct (f a); [now constructor | assumption].
Qed.

Lemma Forall2_in_left {A B : Type} (R : A -> B -> Prop) (l : list A)
  (l' : list B) (a : A) :
  Forall2 R l l' -> In a l -> exists b, In b l' /\ R a b.
Proof.
  intros Hall. induction Hall as [| a0 b0 l l' Hab Hall IH];
    [contradiction |].
  intros [<- | Hin].
  - exists b0. split; [now left | assumption].
  - destruct (IH Hin) as (b & Hb & HR). exists b. split; [now right | assumption].
Qed.

Lemma agrees_row_system (row : fit_row) (rec : params_record) :
  agrees_row row rec -> record_system rec = row_system row.
Proof.
  destruct rec as [[[[[[system chg] a] b] v] rm] r2].
  now intros (-> & _).
Qed.

(** The point of a dataset is one of the points of the export loop. *)
Lemma point_in_points (reg : registry) (system : string) (d : dataset)
  (xi si : R) :
  In (system, d) reg -> In (xi, si) (combine (x d) (sigma d)) ->
  In (system, d, xi, si) (points reg).
Proof.
  intros Hin Hpoint. unfold points. apply in_flat_map.
  exists (system, d). split; [assumption |].
  apply (in_map (fun p => (system, d, fst p, snd p))) in Hpoint.
  exact Hpoint.
Qed.

Lemma points_perm (reg reg' : registry) :
  Permutation reg reg' -> Permutation (points reg) (points reg').
Proof. intros Hperm. unfold points. now apply Permutation_flat_map. Qed.

End FinishedRunFacts.

Section ListPairs.

Lemma Forall2_impl_in {A B : Type} (R Q : A -> B -> Prop) (l : list A)
  (l' : list B) :
  (forall a b, In a l -> R a b -> Q a b) ->
  Forall2 R l l' -> Forall2 Q l l'.
Proof.
  intros Himp Hall. induction Hall as [| a b l l' Hab Hall IH];
    [constructor |].
  constructor.
  - apply Himp; [now left | assumption].
  - apply IH. intros a' b' Hin. apply Himp. now right.
Qed.

Lemma Forall2_nil_left {A B : Type} (R : A -> B -> Prop) (l' : list B) :
  Forall2 R [] l' -> l' = [].
Proof. intros H. now inversion H. Qed.

Lemma Forall2_one_left {A B : Type} (R : A -> B -> Prop) (a : A)
  (l' : list B) :
  Forall2 R [a] l' -> exists b, l' = [b] /\ R a b.
Proof.
  intros H. inversion H as [| ? b ? l'' Hab Hrest]; subst.
  apply Forall2_nil_left in Hrest as ->. now exists b.
Qed.

End ListPairs.

(** ** The raw table and the raw file *)

Section RawTableFile.

Local Open Scope string_scope.

Lemma raw_table_bodies (reg : registry) :
  map raw_row_body (flat_map entry_raw reg) = map point_body (points reg).
Proof.
  unfold points.
  induction reg as [| [system d] reg IH]; [reflexivity |].
  cbn [flat_map]. rewrite !map_app, IH. f_equal.
  unfold entry_raw, raw_rows. cbn [fst snd]. rewrite !map_map.
  reflexivity.
Qed.

Lemma raw_table_length_arrays (reg : registry) :
  Forall (fun entry =>
            List.length (x (snd entry)) = List.length (sigma (snd entry)))
         reg ->
  List.length (flat_map entry_raw reg)
  = list_sum (map (fun entry => List.length (x (snd entry))) reg).
Proof.
  intros Hlen. rewrite raw_table_length. f_equal.
  apply map_ext_in. intros entry Hin.
  pose proof (proj1 (Forall_forall _ _) Hlen entry Hin) as Heq.
  cbv beta in *. unfold zipped. rewrite Heq. apply Nat.min_id.
Qed.

Lemma ascii_only_app (a b : string) :
  ascii_only (a ++ b) = ascii_only a && ascii_only b.
Proof. apply all_chars_app. Qed.

Lemma ascii_only_spaces (n : nat) : ascii_only (spaces n) = true.
Proof. induction n as [| n IH]; [reflexivity | exact IH]. Qed.

Lemma ascii_only_ljust (w : nat) (s : string) :
  ascii_only s = true -> ascii_only (ljust w s) = true.
Proof.
  intros Hs. unfold ljust.
  now rewrite ascii_only_app, Hs, ascii_only_spaces.
Qed.

End RawTableFile.

(** ** The claims of the description *)

(** C1.  With the threshold 0.05 and the default exponent 4.5, the
    evaluator returns [A * (x - 0.05)^4.5 * exp(-B * x)], elementwise on
    an array, for every input [x] from the threshold on and parameters
    [A], [B] inside the range in which float64 neither overflows nor
    underflows; the value is 0 or a number that float64 holds as a normal
    number. *)
Theorem C1_model_closed_form (xs : list R) (A B : R) :
  Forall (fun x => x_c <= x /\ float64_range x A B) xs ->
  model_array xs A B = map (fun x => Fin (spec_closed_form x A B)) xs /\
  Forall
    (fun x =>
       model x A B = Fin (spec_closed_form x A B) /\
       normal_or_zero (spec_closed_form x A B) /\
       (0.05 < x ->
        spec_closed_form x A B
        = A * Rpower (x - 0.05) 4.5 * exp (- B * x)))
    xs.
Proof.
  intros Hxs. split.
  - unfold model_array, percolation_model_fixed_t_array.
    apply map_ext_in. intros xv Hin.
    destruct (proj1 (Forall_forall _ _) Hxs xv Hin) as [Hx _].
    now apply model_closed_form.
  - apply Forall_forall. intros xv Hin.
    destruct (proj1 (Forall_forall _ _) Hxs xv Hin) as [Hx Hrange].
    split; [now apply model_closed_form |]. split.
    + now apply float64_range_normal.
    + intros Hgt. unfold spec_closed_form.
      change 4.5 with t_default. now rewrite Rpower_t_default by lra.
Qed.

(** The threshold and a fraction above it, with [A = B = 1]. *)
Lemma C1_witness :
  model_array [0.05; 0.1] 1 1
  = map (fun x => Fin (spec_closed_form x 1 1)) [0.05; 0.1] /\
  Forall
    (fun x =>
       model x 1 1 = Fin (spec_closed_form x 1 1) /\
       normal_or_zero (spec_closed_form x 1 1) /\
       (0.05 < x ->
        spec_closed_form x 1 1 = 1 * Rpower (x - 0.05) 4.5 * exp (- 1 * x)))
    [0.05; 0.1].
Proof.
  apply (C1_model_closed_form [0.05; 0.1] 1 1).
  assert (Hbox : in_fit_bounds 1 1)
    by (unfold in_fit_bounds, fit_bounds; cbn [fst snd]; lra).
  apply Forall_cons; [| apply Forall_cons; [| apply Forall_nil]].
  - split; [unfold x_c; lra |].
    apply fit_bounds_in_range; [exact Hbox | left; reflexivity].
  - split; [unfold x_c; lra |].
    apply fit_bounds_in_range; [exact Hbox | right; unfold x_c; lra].
Defined.




(** C3 (as stated, refuted).  Without a sign condition on [A] the result
    need not be positive nor decreasing in [B]: for [A = -1] at [x = 0.1]
    it is negative, and it increases from [B = 1] to [B = 2]. *)
Lemma C3_counterexample :
  x_c < 0.1 /\
  (exists r, model 0.1 (-1) 1 = Fin r /\ r < 0) /\
  (exists r1 r2,
      model 0.1 (-1) 1 = Fin r1 /\ model 0.1 (-1) 2 = Fin r2 /\ r1 < r2).
Proof.
  assert (Hx : x_c < 0.1) by (unfold x_c; lra).
  assert (Hp : 0 < Rpower (0.1 - x_c) t_default) by (unfold Rpower; apply exp_pos).
  split; [exact Hx |]. split.
  - eexists. split; [apply model_above; exact Hx |].
    match goal with
    | |- _ * ?p * ?e < 0 =>
        assert (0 < p * e) by (apply Rmult_lt_0_compat; [exact Hp | apply exp_pos])
    end.
    lra.
  - do 2 eexists. split; [apply model_above; exact Hx |].
    split; [apply model_above; exact Hx |].
    match goal with
    | |- _ * ?p * ?e1 < _ * ?p * ?e2 =>
        assert (He : e2 < e1) by (apply exp_increasing; lra);
        assert (p * e2 < p * e1) by (apply Rmult_lt_compat_l; assumption)
    end.
    lra.
Qed.

(** C3 (amended).  For every [x] strictly above the threshold 0.05 and
    every [A > 0], with [x], [A] and [B] inside the range in which
    float64 neither overflows nor underflows, the result is finite and
    positive, a number that float64 holds as a normal number, and it
    does not increase when [B] increases.  The formula of the description
    decreases strictly in [B]; the results are its values up to the
    rounding of float64, which the embedding leaves out. *)
Theorem C3_positive_decreasing_in_B (x A B1 B2 : R) :
  x_c < x -> 0 < A ->
  float64_range x A B1 -> float64_range x A B2 -> B1 <= B2 ->
  exists r1 r2,
    model x A B1 = Fin r1 /\ model x A B2 = Fin r2 /\
    1e-300 <= r2 /\ r2 <= r1 /\ r1 <= 1e300 /\
    (B1 < B2 -> spec_closed_form x A B2 < spec_closed_form x A B1).
Proof.
  intros Hx HA H1 H2 HB.
  assert (Hp : 0 < A * ((x - 0.05) ^ 4 * sqrt (x - 0.05))).
  { change 0.05 with x_c. rewrite <- Rpower_t_default by lra.
    apply Rmult_lt_0_compat; [assumption |]. unfold Rpower. apply exp_pos. }
  assert (Hpos : forall B, 0 < spec_closed_form x A B)
    by (intros B; unfold spec_closed_form;
        apply Rmult_lt_0_compat; [exact Hp | apply exp_pos]).
  assert (Hstrict : forall Ba Bb,
             Ba < Bb -> spec_closed_form x A Bb < spec_closed_form x A Ba).
  { intros Ba Bb Hlt. unfold spec_closed_form.
    apply Rmult_lt_compat_l; [exact Hp |].
    apply exp_increasing. unfold x_c in Hx. nra. }
  assert (Hnormal : forall B,
             float64_range x A B ->
             1e-300 <= spec_closed_form x A B <= 1e300).
  { intros B HB'.
    destruct (float64_range_normal x A B) as (_ & _ & _ & [H0 | Hn]);
      [lra | assumption | |].
    - pose proof (Hpos B). lra.
    - rewrite Rabs_pos_eq in Hn by (left; apply Hpos). exact Hn. }
  exists (spec_closed_form x A B1), (spec_closed_form x A B2).
  split; [apply model_closed_form; lra |].
  split; [apply model_closed_form; lra |].
  split; [apply (Hnormal B2 H2) |].
  split; [| split; [apply (Hnormal B1 H1) | apply Hstrict]].
  destruct HB as [Hlt | ->]; [left; now apply Hstrict | right; reflexivity].
Qed.

(** Above the threshold with a positive prefactor: [x = 0.1], [A = 1],
    and [B] raised from 1 to 2. *)
Lemma C3_witness :
  exists r1 r2,
    model 0.1 1 1 = Fin r1 /\ model 0.1 1 2 = Fin r2 /\
    1e-300 <= r2 /\ r2 <= r1 /\ r1 <= 1e300 /\
    (1 < 2 -> spec_closed_form 0.1 1 2 < spec_closed_form 0.1 1 1).
Proof.
  apply (C3_positive_decreasing_in_B 0.1 1 1 2).
  - unfold x_c. lra.
  - lra.
  - apply fit_bounds_in_range;
      [unfold in_fit_bounds, fit_bounds; cbn [fst snd]; lra
      | right; unfold x_c; lra].
  - apply fit_bounds_in_range;
      [unfold in_fit_bounds, fit_bounds; cbn [fst snd]; lra
      | right; unfold x_c; lra].
  - lra.
Defined.

(** C4 (as stated, refuted).  With a solver that finds [A = 0.3] and
    [B = 0.1], the run finishes and the line of the first dataset in the
    parameters file reads [0.3000], [0.1000] and [0.33] for A, B and VPI:
    the VPI written is not the quotient of the A and B written. *)
Lemma C4_counterexample :
  exists w row,
    main Demo.ext_third = Finished w /\
    file_of w params_file
    = Some (SIExport.params_csv (table_of Demo.ext_third data_registry)) /\
    hd_error (table_of Demo.ext_third data_registry) = Some row /\
    SIExport.params_line row
    = ("LiCl (Li+),1,0.3000,0.1000,0.33,0.000e+00,1.000"
       ++ SIExport.newline)%string /\
    CsvReader.parse_float "0.3000" = Some (Fin 0.3) /\
    CsvReader.parse_float "0.1000" = Some (Fin 0.1) /\
    CsvReader.parse_float "0.33" = Some (Fin 0.33) /\
    0.33 <> 0.1 / 0.3.
Proof.
  eexists _, _.
  split.
  { apply script_all_ok; [apply all_ok_third |].
    apply data_registry_plot_ok, all_ok_third. }
  split; [reflexivity |].
  split.
  { unfold table_of, data_registry. cbn [flat_map entry_rows fit].
    rewrite fit_dataset_third. reflexivity. }
  split; [apply (third_line "LiCl (Li+)") |].
  destruct read_third_fields as (Ha & Hb & Hv).
  repeat split; try assumption. lra.
Qed.

(** C4 (amended).  In a run that finishes, the parameters file read back
    has one record per row of the table, in order, and for every row:
    [A] and [B] are the unrounded result of the solver on the dataset of
    that name, and the VPI of the row is [B / A] as numpy divides them;
    the columns A and B of the record are [A] and [B] rounded to 4
    decimals (within 0.00005 of them), and the column VPI is that
    quotient of the unrounded [A] and [B] rounded to 2 decimals: when
    [A] is not zero, a number within 0.005 of the real quotient
    [B / A]. *)
Theorem C4_vpi_quotient_then_rounded (ext : externals) (reg : registry)
  (w : world) :
  script ext reg = Finished w ->
  exists text recs,
    file_of w params_file = Some text /\
    ParamsReader.parse_params_csv text = Some recs /\
    Forall2
      (fun row rec =>
         (exists d,
             In (row_system row, d) reg /\
             curve_fit ext model_array (x d) (sigma d) p0 fit_bounds maxfev
             = Ok (row_A row, row_B row)) /\
         row_vpi row = np_divide (row_B row) (row_A row) /\
         record_system rec = row_system row /\
         (exists a b,
             record_A rec = Fin a /\ record_B rec = Fin b /\
             Rabs (a - row_A row) <= 0.00005 /\
             Rabs (b - row_B row) <= 0.00005) /\
         close_f 2 (np_divide (row_B row) (row_A row)) (record_VPI rec) /\
         (row_A row <> 0 ->
          exists v,
            record_VPI rec = Fin v /\
            Rabs (v - row_B row / row_A row) <= 0.005))
      (table_of ext reg) recs.
Proof.
  intros Hrun.
  destruct (finished_params_records ext reg w Hrun)
    as (text & recs & Hfile & Hparse & Hall).
  exists text, recs. split; [assumption |]. split; [assumption |].
  apply (Forall2_impl_in agrees_row); [| exact Hall].
  intros row rec Hrow Hagree.
  destruct (table_row_origin ext reg row Hrow) as (d & Hin & _ & Hcall).
  destruct (fit_dataset_row ext _ d row Hcall) as (Hsys & _ & Hvpi & Hfit).
  destruct rec as [[[[[[system chg] a] b] v] rm] r2].
  destruct Hagree as (Hname & _ & Ha & Hb & Hv & _).
  cbn [record_system record_A record_B record_VPI].
  rewrite Hvpi in Hv.
  split; [exists d; now split |].
  split; [exact Hvpi |]. split; [exact Hname |].
  split; [| split; [exact Hv |]].
  - destruct a as [a' | |]; try contradiction.
    destruct b as [b' | |]; try contradiction.
    exists a', b'. cbn [close_f] in Ha, Hb.
    repeat split; [eapply Rle_trans; [exact Ha | simpl; lra]
                  | eapply Rle_trans; [exact Hb | simpl; lra]].
  - intros HA. rewrite np_divide_nonzero in Hv by assumption.
    destruct v as [v' | |]; try contradiction.
    exists v'. cbn [close_f] in Hv.
    split; [reflexivity | eapply Rle_trans; [exact Hv | simpl; lra]].
Qed.

(** The run of the script on its registry with the clamping solver. *)
Lemma C4_witness :
  let ext := Demo.ext_clamp in
  let reg := data_registry in
  exists text recs,
    file_of (finished_world ext reg) params_file = Some text /\
    ParamsReader.parse_params_csv text = Some recs /\
    Forall2
      (fun row rec =>
         (exists d,
             In (row_system row, d) reg /\
             curve_fit ext model_array (x d) (sigma d) p0 fit_bounds maxfev
             = Ok (row_A row, row_B row)) /\
         row_vpi row = np_divide (row_B row) (row_A row) /\
         record_system rec = row_system row /\
         (exists a b,
             record_A rec = Fin a /\ record_B rec = Fin b /\
             Rabs (a - row_A row) <= 0.00005 /\
             Rabs (b - row_B row) <= 0.00005) /\
         close_f 2 (np_divide (row_B row) (row_A row)) (record_VPI rec) /\
         (row_A row <> 0 ->
          exists v,
            record_VPI rec = Fin v /\
            Rabs (v - row_B row / row_A row) <= 0.005))
      (table_of ext reg) recs.
Proof.
  exact (C4_vpi_quotient_then_rounded Demo.ext_clamp data_registry _
           script_clamp_registry).
Defined.

(** C5.  In a run that finishes, over a registry with distinct keys, the
    two CSV files can be read back, and for every dataset of the
    registry: each of its raw points has its line in the raw file and
    its record among those read back, whether the dataset is fitted or
    not.  A dataset whose fit flag is false is passed over by its
    iteration whatever the libraries would do (the table is left as it
    was and a placeholder line is printed), and no record of the
    parameters file carries its name; a dataset whose fit flag is true
    has exactly one record in the parameters file, written from the row
    of its own fit. *)
Theorem C5_skipped_and_fitted_rows (ext : externals) (reg : registry)
  (w : world) :
  dict_keys_unique reg ->
  script ext reg = Finished w ->
  exists raw_text raw_recs params_text params_recs,
    file_of w raw_file = Some raw_text /\
    CsvReader.parse_raw_csv raw_text = Some raw_recs /\
    file_of w params_file = Some params_text /\
    ParamsReader.parse_params_csv params_text = Some params_recs /\
    forall system d,
      In (system, d) reg ->
      (forall xi si,
          In (xi, si) (combine (x d) (sigma d)) ->
          In (raw_line_body system d xi si) (CsvReader.lines_of raw_text) /\
          exists rec, In rec raw_recs /\ agrees (system, d, xi, si) rec) /\
      (fit d = false ->
       (forall ext' st,
           fitting_loop ext' [(system, d)] st
           = Finished
               {| fit_table := fit_table st;
                  raw_data_table := raw_data_table st ++ raw_rows system d;
                  stdout := stdout st ++ [Console.placeholder_line system] |}) /\
       filter (fun rec => String.eqb (record_system rec) system) params_recs
       = []) /\
      (fit d = true ->
       exists row rec,
         fit_dataset ext system d = Ok row /\
         filter (fun rec => String.eqb (record_system rec) system) params_recs
         = [rec] /\
         agrees_row row rec).
Proof.
  intros Hkeys Hrun.
  destruct (finished_raw_file ext reg w Hrun) as (raw_text & Hraw & Hlines).
  destruct (finished_raw_records ext reg w Hrun)
    as (raw_text' & raw_recs & Hraw' & Hparse & Hpoints).
  rewrite Hraw in Hraw'. injection Hraw' as <-.
  destruct (finished_params_records ext reg w Hrun)
    as (params_text & params_recs & Hparams & Hparse' & Hrows).
  exists raw_text, raw_recs, params_text, params_recs.
  repeat (split; [assumption |]).
  apply script_finished_inv in Hrun as (Hok & _ & _).
  intros system d Hin.
  assert (Hfilter :
            Forall2 agrees_row (entry_rows ext (system, d))
              (filter (fun rec => String.eqb (record_system rec) system)
                 params_recs)).
  { rewrite <- (table_filter ext reg system d Hkeys Hin).
    apply Forall2_filter; [| exact Hrows].
    intros row rec Hagree. now rewrite (agrees_row_system row rec). }
  split; [| split].
  - intros xi si Hpoint.
    pose proof (point_in_points reg system d xi si Hin Hpoint) as Hpt.
    split.
    + rewrite Hlines. right.
      apply (in_map point_body) in Hpt. exact Hpt.
    + exact (Forall2_in_left _ _ _ _ Hpoints Hpt).
  - intros Hfit. split.
    + intros ext' st. cbn [fitting_loop]. rewrite Hfit. reflexivity.
    + rewrite entry_rows_unfitted in Hfilter by assumption.
      now apply Forall2_nil_left in Hfilter.
  - intros Hfit.
    assert (Hentry : entry_ok ext (system, d) = true)
      by (now apply (proj1 (forallb_forall _ _) Hok)).
    destruct (entry_rows_ok ext system d Hfit Hentry) as (row & Hcall & Hone).
    rewrite Hone in Hfilter.
    apply Forall2_one_left in Hfilter as (rec & Heq & Hagree).
    now exists row, rec.
Qed.

(** The run of the script on its registry with the clamping solver. *)
Lemma C5_witness :
  let ext := Demo.ext_clamp in
  let w := finished_world ext data_registry in
  exists raw_text raw_recs params_text params_recs,
    file_of w raw_file = Some raw_text /\
    CsvReader.parse_raw_csv raw_text = Some raw_recs /\
    file_of w params_file = Some params_text /\
    ParamsReader.parse_params_csv params_text = Some params_recs /\
    forall system d,
      In (system, d) data_registry ->
      (forall xi si,
          In (xi, si) (combine (x d) (sigma d)) ->
          In (raw_line_body system d xi si) (CsvReader.lines_of raw_text) /\
          exists rec, In rec raw_recs /\ agrees (system, d, xi, si) rec) /\
      (fit d = false ->
       (forall ext' st,
           fitting_loop ext' [(system, d)] st
           = Finished
               {| fit_table := fit_table st;
                  raw_data_table := raw_data_table st ++ raw_rows system d;
                  stdout := stdout st ++ [Console.placeholder_line system] |}) /\
       filter (fun rec => String.eqb (record_system rec) system) params_recs
       = []) /\
      (fit d = true ->
       exists row rec,
         fit_dataset ext system d = Ok row /\
         filter (fun rec => String.eqb (record_system rec) system) params_recs
         = [rec] /\
         agrees_row row rec).
Proof.
  exact (C5_skipped_and_fitted_rows Demo.ext_clamp data_registry _
           data_registry_keys_unique script_clamp_registry).
Defined.

(** C6.  The raw file starts with the header line
    [System,Charge,Salt_Weight_Fraction,Conductivity_S_cm] and has one
    line per (dataset, point) pair, in the order of the loop.  When no
    system name contains a comma or a newline, reading the file back
    gives one record per pair, with the fraction within 0.005 of the
    original (two decimals) and the conductivity within 0.0005 times the
    original (three decimals of the mantissa); the pairs of a dataset
    whose two arrays have the same length are its arrays. *)
Theorem C6_raw_csv_roundtrip (reg : registry) :
  Forall (fun entry => name_ok (fst entry) = true) reg ->
  SIExport.raw_csv reg
  = (("System,Charge,Salt_Weight_Fraction,Conductivity_S_cm"
      ++ SIExport.newline)
     ++ String.concat "" (SIExport.raw_lines reg))%string /\
  List.length (SIExport.raw_lines reg) = List.length (points reg) /\
  (exists records,
      CsvReader.parse_raw_csv (SIExport.raw_csv reg) = Some records /\
      Forall2 agrees (points reg) records) /\
  (forall system d,
      In (system, d) reg ->
      List.length (x d) = List.length (sigma d) ->
      map fst (combine (x d) (sigma d)) = x d /\
      map snd (combine (x d) (sigma d)) = sigma d) /\
  (forall ext w,
      script ext reg = Finished w ->
      file_of w raw_file = Some (SIExport.raw_csv reg)).
Proof.
  intros Hnames. split; [reflexivity |]. split; [| split; [| split]].
  - rewrite raw_lines_points. apply length_map.
  - unfold CsvReader.parse_raw_csv. rewrite raw_csv_lines by assumption.
    rewrite String.eqb_refl.
    apply parse_points. now apply points_names.
  - intros system d _ Hlen. now apply combine_arrays.
  - intros ext w Hrun. apply script_finished_inv in Hrun as (_ & _ & ->).
    reflexivity.
Qed.

(** The raw file of the registry of the script. *)
Lemma C6_witness :
  SIExport.raw_csv data_registry
  = (("System,Charge,Salt_Weight_Fraction,Conductivity_S_cm"
      ++ SIExport.newline)
     ++ String.concat "" (SIExport.raw_lines data_registry))%string /\
  List.length (SIExport.raw_lines data_registry)
  = List.length (points data_registry) /\
  (exists records,
      CsvReader.parse_raw_csv (SIExport.raw_csv data_registry)
      = Some records /\
      Forall2 agrees (points data_registry) records) /\
  (forall system d,
      In (system, d) data_registry ->
      List.length (x d) = List.length (sigma d) ->
      map fst (combine (x d) (sigma d)) = x d /\
      map snd (combine (x d) (sigma d)) = sigma d) /\
  (forall ext w,
      script ext data_registry = Finished w ->
      file_of w raw_file = Some (SIExport.raw_csv data_registry)).
Proof.
  exact (C6_raw_csv_roundtrip data_registry data_registry_names_ok).
Defined.

(** C7.  When the solver raises on a fitted dataset of the registry, the
    call is made with the cap of 30000 evaluations, the exception is the
    result of that dataset's iteration (no second call, no substitute
    parameters), and the run aborts: it ends with an exception of the
    first dataset whose fit raises, the datasets after that one have no
    influence on what is left, only the lines of the datasets before it
    were printed, and no file is written.  If every fit before the
    dataset succeeds, the exception the run ends with is the solver's. *)
Theorem C7_solver_failure_aborts_run (ext : externals) (reg : registry)
  (system : string) (d : dataset) (e : exception) :
  In (system, d) reg ->
  fit d = true ->
  curve_fit ext model_array (x d) (sigma d) p0 fit_bounds maxfev = Raise e ->
  maxfev = 30000%Z /\
  fit_dataset ext system d = Raise e /\
  (exists w e' pre system' d' post,
      reg = pre ++ (system', d') :: post /\
      forallb (entry_ok ext) pre = true /\
      fit d' = true /\ fit_dataset ext system' d' = Raise e' /\
      (forall post', script ext (pre ++ (system', d') :: post') = Aborted w e') /\
      printed w = stdout initial_state ++ flat_map (entry_lines ext) pre /\
      files w = []) /\
  (forall pre post,
      reg = pre ++ (system, d) :: post ->
      forallb (entry_ok ext) pre = true ->
      exists w, script ext reg = Aborted w e /\ files w = []).
Proof.
  intros Hin Hfit Hsolver.
  pose proof (fit_dataset_solver_raises ext system d e Hsolver) as Hraise.
  split; [reflexivity |]. split; [exact Hraise |]. split.
  - destruct (first_failure ext reg)
      as [Hok | (pre & s' & d' & post & e' & Hreg & Hpre & Hf & Hr)].
    + assert (Hentry : entry_ok ext (system, d) = true)
        by (now apply (proj1 (forallb_forall _ _) Hok)).
      unfold entry_ok in Hentry. rewrite Hfit, Hraise in Hentry.
      discriminate.
    + eexists _, e', pre, s', d', post.
      split; [exact Hreg |]. split; [exact Hpre |].
      split; [exact Hf |]. split; [exact Hr |]. split; [| split].
      * intros post'. now apply script_fit_failure.
      * reflexivity.
      * reflexivity.
  - intros pre post -> Hpre. eexists. split.
    + now apply script_fit_failure.
    + reflexivity.
Qed.

(** The run of the script with a solver that fails on the magnesium data. *)
Lemma C7_witness :
  let system := "Mg(NO3)2 (Mg2+)"%string in
  let e := LibraryError "Optimal parameters not found" in
  exists d,
  maxfev = 30000%Z /\
  fit_dataset Demo.ext_diverge system d = Raise e /\
  (exists w e' pre system' d' post,
      data_registry = pre ++ (system', d') :: post /\
      forallb (entry_ok Demo.ext_diverge) pre = true /\
      fit d' = true /\ fit_dataset Demo.ext_diverge system' d' = Raise e' /\
      (forall post',
          script Demo.ext_diverge (pre ++ (system', d') :: post')
          = Aborted w e') /\
      printed w
      = stdout initial_state ++ flat_map (entry_lines Demo.ext_diverge) pre /\
      files w = []) /\
  (forall pre post,
      data_registry = pre ++ (system, d) :: post ->
      forallb (entry_ok Demo.ext_diverge) pre = true ->
      exists w, script Demo.ext_diverge data_registry = Aborted w e /\
                files w = []).
Proof.
  intros system e. eexists.
  apply (C7_solver_failure_aborts_run Demo.ext_diverge data_registry system).
  - do 3 right. left. reflexivity.
  - reflexivity.
  - apply diverge_on_four_points. reflexivity.
Defined.

(** C8.  With a solver that keeps its result inside the bounds it is
    given, every row a fit produces has [A >= 1e-4], so the divisor of
    [B / A] is not zero and VPI is the finite quotient, not the infinity
    or NaN of a division by zero; this holds for every row of the table
    however the loop ends. *)
Theorem C8_vpi_division_safe (ext : externals) :
  respects_bounds ext ->
  (forall system d row,
      fit_dataset ext system d = Ok row ->
      1e-4 <= row_A row /\ row_A row <> 0 /\
      row_vpi row = Fin (row_B row / row_A row)) /\
  (forall reg st,
      (fitting_loop ext reg initial_state = Finished st \/
       exists e, fitting_loop ext reg initial_state = Aborted st e) ->
      Forall (fun row =>
                row_A row <> 0 /\ row_vpi row = Fin (row_B row / row_A row))
             (fit_table st)).
Proof.
  intros Hbounds.
  assert (Hrow : forall system d row,
             fit_dataset ext system d = Ok row ->
             1e-4 <= row_A row /\ row_A row <> 0 /\
             row_vpi row = Fin (row_B row / row_A row)).
  { intros system d row Hcall.
    destruct (fit_dataset_row ext system d row Hcall) as (_ & _ & Hvpi & Hfit).
    apply Hbounds in Hfit as [[HA _] _]. cbn [fit_bounds fst snd] in HA.
    assert (Hne : row_A row <> 0) by lra.
    repeat split; try assumption.
    rewrite Hvpi. unfold np_divide, Rzero.
    destruct (Req_dec_T (row_A row) 0); [contradiction | reflexivity]. }
  split; [exact Hrow |].
  assert (Htable : forall reg, Forall (fun row =>
              row_A row <> 0 /\ row_vpi row = Fin (row_B row / row_A row))
              (table_of ext reg)).
  { intros reg. apply Forall_forall. intros row Hin.
    destruct (table_row_origin ext reg row Hin) as (d & _ & _ & Hcall).
    now destruct (Hrow _ d row Hcall) as (_ & ? & ?). }
  intros reg st [Hfin | [e Habort]].
  - apply fitting_loop_finished_inv in Hfin as [_ ->].
    rewrite fit_table_after_initial. apply Htable.
  - destruct (first_failure ext reg)
      as [Hok | (pre & s & d & post & e' & -> & Hpre & Hf & Hr)].
    + rewrite fitting_loop_all_ok in Habort by assumption. discriminate.
    + rewrite (fitting_loop_failure ext pre post s d e') in Habort
        by assumption.
      injection Habort as <- _. cbn [stopped_at fit_table].
      rewrite fit_table_after_initial. apply Htable.
Qed.

(** The clamping solver keeps inside its bounds. *)
Lemma C8_witness :
  (forall system d row,
      fit_dataset Demo.ext_clamp system d = Ok row ->
      1e-4 <= row_A row /\ row_A row <> 0 /\
      row_vpi row = Fin (row_B row / row_A row)) /\
  (forall reg st,
      (fitting_loop Demo.ext_clamp reg initial_state = Finished st \/
       exists e, fitting_loop Demo.ext_clamp reg initial_state = Aborted st e) ->
      Forall (fun row =>
                row_A row <> 0 /\ row_vpi row = Fin (row_B row / row_A row))
             (fit_table st)).
Proof.
  exact (C8_vpi_division_safe Demo.ext_clamp ext_clamp_respects_bounds).
Defined.

(** C9 (as stated, refuted).  Order matters for more than the order of
    the rows when a run aborts.  With a solver that does not converge on
    data of four points, the run over the registry of the script has
    printed six lines when it ends at the magnesium dataset, the fourth,
    and the run over the same registry reversed has printed four when it
    ends there, the zinc dataset only before it: the output is not the
    same up to the order of its lines. *)
Lemma C9_counterexample :
  Permutation data_registry (rev data_registry) /\
  exists w w' e e',
    script Demo.ext_diverge data_registry = Aborted w e /\
    script Demo.ext_diverge (rev data_registry) = Aborted w' e' /\
    List.length (printed w) = 6%nat /\
    List.length (printed w') = 4%nat /\
    ~ Permutation (printed w) (printed w').
Proof.
  split; [apply Permutation_rev |].
  assert (Hrun :
            exists w e,
              script Demo.ext_diverge data_registry = Aborted w e /\
              List.length (printed w) = 6%nat).
  { eexists _, _. split.
    - unfold data_registry.
      apply (script_fit_failure Demo.ext_diverge
               [ (_, _); (_, _); (_, _) ] [ (_, _) ] "Mg(NO3)2 (Mg2+)").
      + cbn [forallb entry_ok fit]. unfold fit_dataset.
        cbn [curve_fit Demo.ext_diverge x List.length Nat.eqb
             mean_squared_error r2_score bind].
        rewrite !curve_fit_clamp_script. reflexivity.
      + reflexivity.
      + apply fit_dataset_solver_raises, diverge_on_four_points. reflexivity.
    - cbn [printed].
      cbn [flat_map entry_lines fit]. unfold fit_dataset.
      cbn [curve_fit Demo.ext_diverge x List.length Nat.eqb
           mean_squared_error r2_score bind].
      rewrite !curve_fit_clamp_script. reflexivity. }
  assert (Hrun' :
            exists w' e',
              script Demo.ext_diverge (rev data_registry) = Aborted w' e' /\
              List.length (printed w') = 4%nat).
  { eexists _, _. split.
    - unfold data_registry. cbn [rev app].
      apply (script_fit_failure Demo.ext_diverge
               [ (_, _) ] [ (_, _); (_, _); (_, _) ] "Mg(NO3)2 (Mg2+)").
      + cbn [forallb entry_ok fit]. unfold fit_dataset.
        cbn [curve_fit Demo.ext_diverge x List.length Nat.eqb
             mean_squared_error r2_score bind].
        rewrite !curve_fit_clamp_script. reflexivity.
      + reflexivity.
      + apply fit_dataset_solver_raises, diverge_on_four_points. reflexivity.
    - cbn [printed].
      cbn [flat_map entry_lines fit]. unfold fit_dataset.
      cbn [curve_fit Demo.ext_diverge x List.length Nat.eqb
           mean_squared_error r2_score bind].
      rewrite !curve_fit_clamp_script. reflexivity. }
  destruct Hrun as (w & e & Hw & Hlen).
  destruct Hrun' as (w' & e' & Hw' & Hlen').
  exists w, w', e, e'. repeat split; try assumption.
  intros Hperm. apply Permutation_length in Hperm. lia.
Qed.

(** C9 (amended).  In a run that finishes, the lines of the console table
    stand in the order of the registry, one per entry; the lines of the
    raw file after its header are those of the points of each entry in
    the order of the registry; the lines of the parameters file after
    its header are those of the rows of the table, the rows being those
    of the fitted entries in the order of the registry.  A run over any
    reordering of the registry finishes too, and prints the same lines,
    writes the same lines to the two files and draws the same points
    and curves, up to their order.  A run that aborts also aborts over
    any reordering; what it has printed by then depends on the order. *)
Theorem C9_order_follows_registry (ext : externals) (reg reg' : registry) :
  dict_keys_unique reg ->
  Permutation reg reg' ->
  (forall w,
      script ext reg = Finished w ->
      exists lines raw_text params_text table fig,
        printed w
        = (stdout initial_state ++ lines ++ [Console.rule "="])
          ++ SIExport.closing_lines /\
        Forall2
          (fun entry line =>
             (fit (snd entry) = false /\
              line = Console.placeholder_line (fst entry)) \/
             (exists row,
                 fit_dataset ext (fst entry) (snd entry) = Ok row /\
                 line = Console.fitted_line row))
          reg lines /\
        file_of w raw_file = Some raw_text /\
        CsvReader.lines_of raw_text
        = "System,Charge,Salt_Weight_Fraction,Conductivity_S_cm"%string
          :: map point_body (points reg) /\
        file_of w params_file = Some params_text /\
        CsvReader.lines_of params_text
        = "System,Charge,A,B,VPI,RMSE_S_cm,R2"%string
          :: map params_line_body table /\
        Forall2
          (fun entry row => fit_dataset ext (fst entry) (snd entry) = Ok row)
          (filter (fun entry => fit (snd entry)) reg) table /\
        lookup figure_file (files w) = Some (Figure fig) /\
        exists w' raw_text' params_text' fig',
          script ext reg' = Finished w' /\
          Permutation (printed w) (printed w') /\
          file_of w' raw_file = Some raw_text' /\
          Permutation (CsvReader.lines_of raw_text)
                      (CsvReader.lines_of raw_text') /\
          file_of w' params_file = Some params_text' /\
          Permutation (CsvReader.lines_of params_text)
                      (CsvReader.lines_of params_text') /\
          lookup figure_file (files w') = Some (Figure fig') /\
          Permutation fig fig') /\
  ((exists w e, script ext reg = Aborted w e) ->
   exists w' e', script ext reg' = Aborted w' e').
Proof.
  intros Hkeys Hperm. split.
  - intros w Hrun.
    pose proof (script_perm_finished ext reg reg' w Hperm Hrun) as Hrun'.
    destruct (finished_raw_file ext reg w Hrun) as (raw_text & Hraw & Hlines).
    destruct (finished_params_file ext reg w Hrun)
      as (params_text & Hparams & Hrows).
    destruct (finished_raw_file ext reg' _ Hrun')
      as (raw_text' & Hraw' & Hlines').
    destruct (finished_params_file ext reg' _ Hrun')
      as (params_text' & Hparams' & Hrows').
    apply script_finished_inv in Hrun as (Hok & Hplot & ->).
    exists (flat_map (entry_lines ext) reg), raw_text, params_text,
      (table_of ext reg), (flat_map (entry_plot (table_of ext reg)) reg).
    split; [reflexivity |].
    split; [now apply entry_lines_forall2 |].
    split; [assumption |]. split; [assumption |].
    split; [assumption |]. split; [assumption |].
    split; [now apply table_forall2 |].
    split; [reflexivity |].
    exists (finished_world ext reg'), raw_text', params_text',
      (flat_map (entry_plot (table_of ext reg')) reg').
    split; [exact Hrun' |].
    split.
    { unfold finished_world. cbn [printed].
      apply Permutation_app_tail, Permutation_app_head,
        Permutation_app_tail.
      now apply Permutation_flat_map. }
    split; [assumption |].
    split.
    { rewrite Hlines, Hlines'. apply perm_skip, Permutation_map.
      now apply points_perm. }
    split; [assumption |].
    split.
    { rewrite Hrows, Hrows'. apply perm_skip, Permutation_map.
      now apply table_perm. }
    split; [reflexivity |].
    rewrite (flat_map_ext_in _ (entry_plot (table_of ext reg')) reg)
      by (intros entry Hin; now apply entry_plot_perm).
    now apply Permutation_flat_map.
  - intros (w & e & Habort).
    destruct (script ext reg') as [w' | w' e'] eqn:Hrun'; [| now eexists _, _].
    apply (script_perm_finished ext reg' reg w') in Hrun';
      [congruence | now apply Permutation_sym].
Qed.

(** The registry of the script and the same registry reversed. *)
Lemma C9_witness :
  let ext := Demo.ext_clamp in
  let reg := data_registry in
  let reg' := rev data_registry in
  let w := finished_world ext reg in
  exists lines raw_text params_text table fig,
    printed w
    = (stdout initial_state ++ lines ++ [Console.rule "="])
      ++ SIExport.closing_lines /\
    Forall2
      (fun entry line =>
         (fit (snd entry) = false /\
          line = Console.placeholder_line (fst entry)) \/
         (exists row,
             fit_dataset ext (fst entry) (snd entry) = Ok row /\
             line = Console.fitted_line row))
      reg lines /\
    file_of w raw_file = Some raw_text /\
    CsvReader.lines_of raw_text
    = "System,Charge,Salt_Weight_Fraction,Conductivity_S_cm"%string
      :: map point_body (points reg) /\
    file_of w params_file = Some params_text /\
    CsvReader.lines_of params_text
    = "System,Charge,A,B,VPI,RMSE_S_cm,R2"%string
      :: map params_line_body table /\
    Forall2
      (fun entry row => fit_dataset ext (fst entry) (snd entry) = Ok row)
      (filter (fun entry => fit (snd entry)) reg) table /\
    lookup figure_file (files w) = Some (Figure fig) /\
    exists w' raw_text' params_text' fig',
      script ext reg' = Finished w' /\
      Permutation (printed w) (printed w') /\
      file_of w' raw_file = Some raw_text' /\
      Permutation (CsvReader.lines_of raw_text)
                  (CsvReader.lines_of raw_text') /\
      file_of w' params_file = Some params_text' /\
      Permutation (CsvReader.lines_of params_text)
                  (CsvReader.lines_of params_text') /\
      lookup figure_file (files w') = Some (Figure fig') /\
      Permutation fig fig'.
Proof.
  exact (proj1 (C9_order_follows_registry Demo.ext_clamp data_registry
                  (rev data_registry) data_registry_keys_unique
                  (Permutation_rev data_registry))
           _ script_clamp_registry).
Defined.

(** C10.  After a fitting loop that ran to its end over a registry (a
    dict, so with distinct keys), the table holds exactly one row whose
    first element is the system name of each fitted dataset, the row its
    own fit produced; the plotter's [next(...)] lookup returns that row
    and does not raise StopIteration. *)
Theorem C10_fitted_row_found (ext : externals) (reg : registry) (st : state) :
  dict_keys_unique reg ->
  fitting_loop ext reg initial_state = Finished st ->
  forall system d,
    In (system, d) reg -> fit d = true ->
    exists row,
      filter (fun r => String.eqb (row_system r) system) (fit_table st) = [row] /\
      fit_dataset ext system d = Ok row /\
      next_row system (fit_table st) = Ok row.
Proof.
  intros Hkeys Hloop system d Hin Hfit.
  apply fitting_loop_finished_inv in Hloop as [Hok ->].
  rewrite fit_table_after_initial.
  assert (Hentry : entry_ok ext (system, d) = true)
    by (now apply (proj1 (forallb_forall _ _) Hok)).
  destruct (entry_rows_ok ext system d Hfit Hentry) as (row & Hcall & Hrows).
  assert (Hfilter :
            filter (fun r => String.eqb (row_system r) system) (table_of ext reg)
            = [row])
    by (now rewrite (table_filter ext reg system d)).
  exists row. repeat split; try assumption.
  unfold next_row. now rewrite (find_filter_head _ _ row Hfilter).
Qed.

(** The first dataset of the script after the loop with the clamping solver. *)
Lemma C10_witness :
  let system := "LiCl (Li+)"%string in
  let st := after Demo.ext_clamp data_registry initial_state in
  exists d row,
    In (system, d) data_registry /\
    filter (fun r => String.eqb (row_system r) system) (fit_table st) = [row] /\
    fit_dataset Demo.ext_clamp system d = Ok row /\
    next_row system (fit_table st) = Ok row.
Proof.
  intros system st.
  destruct (C10_fitted_row_found Demo.ext_clamp data_registry st
              data_registry_keys_unique
              (fitting_loop_all_ok _ _ _ (all_ok_clamp data_registry))
              system _ (or_introl eq_refl) eq_refl) as (row & H).
  eexists. exists row. split; [left; reflexivity | exact H].
Defined.

(** ** Further properties *)

(** X1.  For a positive prefactor [A], a positive exponent [t] and a
    positive penalty [B], the curve of the model rises strictly from the
    threshold up to [x_c + t / B] and falls strictly from there on: its
    maximum over [x >= x_c] is at [x_c + t / B], which for the default
    exponent is [0.05 + 4.5 / B]. *)
Theorem X1_model_peak (A B t : R) :
  0 < A -> 0 < B -> 0 < t ->
  (forall x1 x2,
      x_c <= x1 -> x1 < x2 -> x2 <= peak t B ->
      value_of (percolation_model_fixed_t x1 A B t)
      < value_of (percolation_model_fixed_t x2 A B t)) /\
  (forall x1 x2,
      peak t B <= x1 -> x1 < x2 ->
      value_of (percolation_model_fixed_t x2 A B t)
      < value_of (percolation_model_fixed_t x1 A B t)) /\
  (forall x,
      x_c <= x ->
      value_of (percolation_model_fixed_t x A B t)
      <= value_of (percolation_model_fixed_t (peak t B) A B t)) /\
  peak t_default B = 0.05 + 4.5 / B.
Proof.
  intros HA HB Ht.
  assert (Hpeak : x_c < peak t B).
  { unfold peak. assert (0 < t / B) by (apply Rdiv_lt_0_compat; lra). lra. }
  assert (Hrise : forall x1 x2,
             x_c <= x1 -> x1 < x2 -> x2 <= peak t B ->
             value_of (percolation_model_fixed_t x1 A B t)
             < value_of (percolation_model_fixed_t x2 A B t)).
  { intros x1 x2 H1 Hlt H2. rewrite (value_above x2) by lra.
    destruct H1 as [H1 | <-].
    - rewrite (value_above x1) by lra.
      apply Rmult_lt_compat_l; [assumption |]. apply exp_increasing.
      assert (Hr := exponent_rises t B (x1 - x_c) (x2 - x_c) Ht HB).
      unfold peak in H2. lra.
    - rewrite percolation_at_threshold by assumption. cbn [value_of].
      apply Rmult_lt_0_compat; [assumption | apply exp_pos]. }
  assert (Hfall : forall x1 x2,
             peak t B <= x1 -> x1 < x2 ->
             value_of (percolation_model_fixed_t x2 A B t)
             < value_of (percolation_model_fixed_t x1 A B t)).
  { intros x1 x2 H1 Hlt. rewrite (value_above x1), (value_above x2) by lra.
    apply Rmult_lt_compat_l; [assumption |]. apply exp_increasing.
    assert (Hf := exponent_falls t B (x1 - x_c) (x2 - x_c) Ht HB).
    unfold peak in H1. lra. }
  split; [exact Hrise |]. split; [exact Hfall |]. split.
  - intros x Hx. destruct (Rtotal_order x (peak t B)) as [Hlt | [-> | Hgt]].
    + left. apply Hrise; lra.
    + right. reflexivity.
    + left. apply Hfall; lra.
  - unfold peak, t_default, x_c. reflexivity.
Qed.

(** The default exponent with [A = 1], [B = 9]: the peak is at 0.55. *)
Lemma X1_witness :
  (forall x1 x2,
      x_c <= x1 -> x1 < x2 -> x2 <= peak 4.5 9 ->
      value_of (percolation_model_fixed_t x1 1 9 4.5)
      < value_of (percolation_model_fixed_t x2 1 9 4.5)) /\
  (forall x1 x2,
      peak 4.5 9 <= x1 -> x1 < x2 ->
      value_of (percolation_model_fixed_t x2 1 9 4.5)
      < value_of (percolation_model_fixed_t x1 1 9 4.5)) /\
  (forall x,
      x_c <= x ->
      value_of (percolation_model_fixed_t x 1 9 4.5)
      <= value_of (percolation_model_fixed_t (peak 4.5 9) 1 9 4.5)) /\
  peak t_default 9 = 0.05 + 4.5 / 9.
Proof.
  apply (X1_model_peak 1 9 4.5); lra.
Defined.

(** X3.  The grid of the fitted curves has 400 points from 0.05 to 0.80,
    none below the threshold: for every [A] and [B] inside the bounds
    that the script gives the solver, the 400 values drawn are finite,
    each 0 or a number that float64 holds as a normal number, none NaN;
    the first is 0, at the threshold itself (a value the logarithmic
    axis cannot show), and all the others are positive. *)
Theorem X3_curve_on_grid_is_finite (A B : R) :
  in_fit_bounds A B ->
  List.length (model_array x_smooth A B) = 400%nat /\
  nth 0 x_smooth 0 = x_c /\ nth 399 x_smooth 0 = 0.80 /\
  Forall (fun v => exists r, v = Fin r /\ normal_or_zero r)
         (model_array x_smooth A B) /\
  nth 0 (model_array x_smooth A B) NaN = Fin 0 /\
  (forall i, (0 < i < 400)%nat ->
     exists r, nth i (model_array x_smooth A B) NaN = Fin r /\ 0 < r).
Proof.
  intros Hbox.
  assert (HA : 0 < A)
    by (unfold in_fit_bounds, fit_bounds in Hbox; cbn [fst snd] in Hbox; lra).
  assert (Hlen : List.length x_smooth = 400%nat) by apply linspace_length.
  assert (Hmap : forall i,
             (i < 400)%nat ->
             nth i (model_array x_smooth A B) NaN
             = model (nth i x_smooth 0) A B).
  { intros i Hi. unfold model_array, percolation_model_fixed_t_array.
    now rewrite (nth_map_in _ _ _ _ 0) by lia. }
  split; [| split; [| split; [| split; [| split]]]].
  - unfold model_array, percolation_model_fixed_t_array.
    now rewrite length_map.
  - rewrite x_smooth_nth by lia. unfold x_c. simpl. lra.
  - rewrite x_smooth_nth by lia. rewrite INR_399. lra.
  - unfold model_array, percolation_model_fixed_t_array.
    apply Forall_forall. intros v Hv.
    apply in_map_iff in Hv as (xv & <- & Hin).
    apply x_smooth_in in Hin as (i & Hi & ->).
    fold (model (0.05 + INR i * (0.75 / 399)) A B).
    assert (Hi' : INR i <= 399).
    { rewrite <- INR_399. apply le_INR. lia. }
    assert (Hcases : INR i = 0 \/ 1 <= INR i).
    { destruct i as [| i]; [now left | right].
      change 1 with (INR 1). apply le_INR. lia. }
    assert (Hx : x_c <= 0.05 + INR i * (0.75 / 399))
      by (unfold x_c; destruct Hcases as [-> | H1]; lra).
    assert (Hrange : float64_range (0.05 + INR i * (0.75 / 399)) A B).
    { apply fit_bounds_in_range; [exact Hbox |].
      unfold x_c. destruct Hcases as [-> | H1]; [left; lra | right; lra]. }
    exists (spec_closed_form (0.05 + INR i * (0.75 / 399)) A B).
    split; [now apply model_closed_form |].
    now apply float64_range_normal.
  - rewrite Hmap, x_smooth_nth by lia.
    replace (0.05 + INR 0 * (0.75 / 399)) with x_c
      by (unfold x_c; simpl; lra).
    apply model_at_threshold.
  - intros i Hi. rewrite Hmap, x_smooth_nth by lia.
    assert (Hpos : 1 <= INR i).
    { change 1 with (INR 1). apply le_INR. lia. }
    assert (Hx : x_c < 0.05 + INR i * (0.75 / 399)) by (unfold x_c; nra).
    eexists. split; [now apply model_above |].
    now apply model_value_pos.
Qed.

(** The upper corner of the bounds, and the last point of the grid. *)
Lemma X3_witness :
  exists r, nth 399 (model_array x_smooth 1 10) NaN = Fin r /\ 0 < r.
Proof.
  apply (proj2 (proj2 (proj2 (proj2 (proj2
           (X3_curve_on_grid_is_finite 1 10
              ltac:(unfold in_fit_bounds, fit_bounds; cbn [fst snd]; lra))))))).
  lia.
Defined.

(** X4.  When every fit succeeds and the plotting reaches a dataset whose
    valency has no marker, the run ends with [KeyError] of that valency;
    when the valency has a marker and the system has no color, with
    [KeyError] of the system name.  Either way the whole console table
    has been printed and no file is written, the two CSV files
    included. *)
Theorem X4_plot_key_error (ext : externals) (pre post : registry)
  (system : string) (d : dataset) :
  let reg := pre ++ (system, d) :: post in
  forallb (entry_ok ext) reg = true ->
  forallb (entry_plot_ok (table_of ext reg)) pre = true ->
  (lookup (valency d) markers = None ->
   script ext reg
   = Aborted {| printed := table_printed ext reg; files := [] |}
       (KeyError (valency d))) /\
  (lookup (valency d) markers <> None ->
   lookup system colors = None ->
   script ext reg
   = Aborted {| printed := table_printed ext reg; files := [] |}
       (KeyError system)).
Proof.
  intros reg Hok Hpre. split.
  - intros Hm. apply script_plot_failure; [assumption |].
    unfold reg. rewrite plot_loop_app by assumption.
    now apply plot_loop_no_marker.
  - intros Hm Hc. apply script_plot_failure; [assumption |].
    unfold reg. rewrite plot_loop_app by assumption.
    now apply plot_loop_no_color.
Qed.

(** A trivalent salt after a fitted one, and a salt that has no color. *)
Lemma X4_witness :
  script Demo.ext_third MoreDemo.reg_trivalent
  = Aborted
      {| printed := table_printed Demo.ext_third MoreDemo.reg_trivalent;
         files := [] |}
      (KeyError "Trivalent") /\
  script Demo.ext_third MoreDemo.reg_unlisted
  = Aborted
      {| printed := table_printed Demo.ext_third MoreDemo.reg_unlisted;
         files := [] |}
      (KeyError "KCl (K+)").
Proof.
  split.
  - apply (proj1 (X4_plot_key_error Demo.ext_third
                    [ ("LiCl (Li+)"%string, MoreDemo.licl_short) ] []
                    "AlCl3 (Al3+)" MoreDemo.alcl3
                    (all_ok_third _) eq_refl)).
    reflexivity.
  - apply (proj2 (X4_plot_key_error Demo.ext_third
                    [] [] "KCl (K+)" MoreDemo.kcl
                    (all_ok_third _) eq_refl)).
    + discriminate.
    + reflexivity.
Defined.

(** X5.  A run finishes exactly when, for every dataset of the registry,
    the fit succeeds if the dataset is fitted, the valency has a marker,
    the system has a color and the two arrays have the same length.  A
    finished run has written the figure, the raw file and the parameters
    file, in this order; a run that ends with an exception has written no
    file at all. *)
Theorem X5_run_finishes_iff (ext : externals) (reg : registry) :
  ((exists w, script ext reg = Finished w) <-> Forall (entry_runs ext) reg) /\
  (forall w,
      script ext reg = Finished w ->
      map fst (files w) = [figure_file; raw_file; params_file]) /\
  (forall w e, script ext reg = Aborted w e -> files w = []).
Proof.
  split; [split |].
  - intros (w & Hrun). apply script_finished_inv in Hrun as (Hok & Hplot & _).
    apply Forall_forall. intros entry Hin.
    apply (entry_ok_runs ext (table_of ext reg)).
    + now apply (proj1 (forallb_forall _ _) Hok).
    + now apply (proj1 (forallb_forall _ _) Hplot).
  - intros Hall. exists (finished_world ext reg). apply script_all_ok.
    + apply forallb_forall. intros entry Hin.
      apply entry_runs_ok. now apply (proj1 (Forall_forall _ _) Hall).
    + apply forallb_forall. intros entry Hin.
      apply entry_runs_plot_ok; [assumption |].
      now apply (proj1 (Forall_forall _ _) Hall).
  - split.
    + intros w Hrun. apply script_finished_inv in Hrun as (_ & _ & ->).
      reflexivity.
    + intros w e. unfold script.
      destruct (fitting_loop ext reg initial_state) as [st | st e'].
      * destruct (plot_loop reg (fit_table st) []); [discriminate |].
        now intros [= <- _].
      * now intros [= <- _].
Qed.

(** The registry of the script with the clamping solver. *)
Lemma X5_witness : exists w, script Demo.ext_clamp data_registry = Finished w.
Proof.
  apply (proj2 (proj1 (X5_run_finishes_iff Demo.ext_clamp data_registry))).
  apply Forall_forall. intros [system d] Hin.
  unfold entry_runs. split.
  - intros _. eexists. apply fit_dataset_clamp.
  - unfold data_registry in Hin. cbv [In] in Hin.
    repeat (destruct Hin as [Heq | Hin];
            [ injection Heq as <- <-; repeat split; discriminate | ]).
    contradiction.
Defined.

(** X6.  In a finished run over a registry with distinct keys, the figure
    holds, dataset by dataset in the order of the registry, the scatter
    of the dataset's own points with the marker of its valency, the color
    of its system and its name as label, followed for a fitted dataset by
    one curve: the model on the 400 points of the grid with the [A] and
    [B] of that dataset's own fit, in the same color.  A dataset that is
    not fitted gets its scatter and no curve. *)
Theorem X6_figure_contents (ext : externals) (reg : registry) (w : world) :
  dict_keys_unique reg ->
  script ext reg = Finished w ->
  exists parts,
    lookup figure_file (files w) = Some (Figure (List.concat parts)) /\
    Forall2
      (fun (entry : string * dataset) part =>
         let (system, d) := entry in
         exists marker color,
           lookup (valency d) markers = Some marker /\
           lookup system colors = Some color /\
           ((fit d = false /\
             part = [Scatter (x d) (sigma d) marker color system]) \/
            (exists row,
                fit d = true /\ fit_dataset ext system d = Ok row /\
                part = [ Scatter (x d) (sigma d) marker color system;
                         Curve x_smooth
                           (model_array x_smooth (row_A row) (row_B row))
                           color ])))
      reg parts.
Proof.
  intros Hkeys Hrun.
  apply script_finished_inv in Hrun as (Hok & Hplot & ->).
  exists (map (entry_plot (table_of ext reg)) reg). split.
  - rewrite <- flat_map_concat_map. reflexivity.
  - assert (Hall : forall entry, In entry reg ->
               entry_ok ext entry = true /\
               entry_plot_ok (table_of ext reg) entry = true).
    { intros entry Hin. split.
      - now apply (proj1 (forallb_forall _ _) Hok).
      - now apply (proj1 (forallb_forall _ _) Hplot). }
    assert (Hfilter : forall system d, In (system, d) reg ->
               find (fun r => String.eqb (row_system r) system)
                    (table_of ext reg)
               = hd_error (entry_rows ext (system, d))).
    { intros system d Hin. rewrite find_hd_filter.
      now rewrite (table_filter ext reg system d). }
    clear Hok Hplot. revert Hall Hfilter.
    generalize (table_of ext reg) as table. intros table.
    induction reg as [| [system d] reg IH]; intros Hall Hfilter;
      [constructor |].
    cbn [map]. constructor.
    + destruct (Hall (system, d) (or_introl eq_refl)) as [Hok Hplot].
      unfold entry_plot_ok in Hplot. unfold entry_plot.
      destruct (lookup (valency d) markers) as [marker |]; [| discriminate].
      destruct (lookup system colors) as [color |]; [| discriminate].
      exists marker, color. split; [reflexivity |]. split; [reflexivity |].
      destruct (fit d) eqn:Hfit.
      * right.
        destruct (entry_rows_ok ext system d Hfit Hok) as (row & Hcall & Hrows).
        exists row. split; [reflexivity |]. split; [assumption |].
        rewrite (Hfilter system d (or_introl eq_refl)), Hrows. reflexivity.
      * left. now split.
    + apply IH.
      * unfold dict_keys_unique in *. simpl in Hkeys. now inversion Hkeys.
      * intros entry Hin. apply Hall. now right.
      * intros s' d' Hin. apply Hfilter. now right.
Qed.

(** The registry of the script with the clamping solver. *)
Lemma X6_witness :
  exists parts,
    lookup figure_file
      (files (finished_world Demo.ext_clamp data_registry))
    = Some (Figure (List.concat parts)) /\
    List.length parts = 5%nat.
Proof.
  destruct (X6_figure_contents Demo.ext_clamp data_registry _
              data_registry_keys_unique script_clamp_registry)
    as (parts & Hfig & Hparts).
  exists parts. split; [exact Hfig |].
  apply Forall2_length in Hparts. now rewrite <- Hparts.
Defined.

(** X7.  [raw_data_table], which the loop fills and the script never
    reads, holds the rows that the raw file shows: in a run that
    finishes, the lines of the raw file after its header are the rows of
    the table that the loop left, formatted, in order.  The two arrays
    of every dataset have the same length in such a run, and the table
    has one row per element. *)
Theorem X7_raw_table_matches_file (ext : externals) (reg : registry)
  (w : world) :
  script ext reg = Finished w ->
  exists st text,
    fitting_loop ext reg initial_state = Finished st /\
    file_of w raw_file = Some text /\
    CsvReader.lines_of text
    = "System,Charge,Salt_Weight_Fraction,Conductivity_S_cm"%string
      :: map raw_row_body (raw_data_table st) /\
    Forall (fun entry =>
              List.length (x (snd entry)) = List.length (sigma (snd entry)))
           reg /\
    List.length (raw_data_table st)
    = list_sum (map (fun entry => List.length (x (snd entry))) reg).
Proof.
  intros Hrun.
  pose proof (finished_lengths ext reg w Hrun) as Hlen.
  destruct (finished_raw_file ext reg w Hrun) as (text & Hfile & Hlines).
  apply script_finished_inv in Hrun as (Hok & _ & _).
  exists (after ext reg initial_state), text.
  split; [now apply fitting_loop_all_ok |]. split; [assumption |].
  cbn [after raw_data_table initial_state app].
  split; [now rewrite raw_table_bodies |]. split; [assumption |].
  now apply raw_table_length_arrays.
Qed.

(** The registry of the script with the clamping solver: 21 rows. *)
Lemma X7_witness :
  exists st text,
    fitting_loop Demo.ext_clamp data_registry initial_state = Finished st /\
    file_of (finished_world Demo.ext_clamp data_registry) raw_file
    = Some text /\
    CsvReader.lines_of text
    = "System,Charge,Salt_Weight_Fraction,Conductivity_S_cm"%string
      :: map raw_row_body (raw_data_table st) /\
    List.length (raw_data_table st) = 21%nat.
Proof.
  destruct (X7_raw_table_matches_file Demo.ext_clamp data_registry _
              script_clamp_registry)
    as (st & text & Hloop & Hfile & Hlines & _ & Hlen).
  exists st, text.
  split; [assumption |]. split; [assumption |]. split; [assumption |].
  rewrite Hlen. reflexivity.
Defined.

(** X8.  The two files are written without quoting, and the script needs
    none: a run finishes only over a registry whose system names are
    keys of [colors] (the plotting ends the run with [KeyError] on any
    other name, before the export), and none of these contains a comma
    or a newline.  So every data line of the raw file of a finished run
    splits at its commas into exactly the four fields it was written
    from, and every data line of the parameters file into its seven. *)
Theorem X8_names_need_no_quoting (ext : externals) (reg : registry)
  (w : world) :
  script ext reg = Finished w ->
  Forall (fun entry =>
            lookup (fst entry) colors <> None /\
            name_ok (fst entry) = true)
         reg /\
  exists raw_text raw_rest params_text params_rest,
    file_of w raw_file = Some raw_text /\
    CsvReader.lines_of raw_text
    = "System,Charge,Salt_Weight_Fraction,Conductivity_S_cm"%string
      :: raw_rest /\
    Forall2
      (fun pt line =>
         let '(system, d, xi, si) := pt in
         CsvReader.split_on "," line
         = [system; str_int (charge d); format_f 2 (Fin xi);
            format_e 3 (Fin si)])
      (points reg) raw_rest /\
    file_of w params_file = Some params_text /\
    CsvReader.lines_of params_text
    = "System,Charge,A,B,VPI,RMSE_S_cm,R2"%string :: params_rest /\
    Forall2
      (fun row line =>
         CsvReader.split_on "," line
         = [ row_system row; str_int (row_charge row);
             format_f 4 (Fin (row_A row)); format_f 4 (Fin (row_B row));
             format_f 2 (row_vpi row); format_e 3 (row_rmse row);
             format_f 3 (row_r2 row) ])
      (table_of ext reg) params_rest.
Proof.
  intros Hrun.
  pose proof (finished_names_ok ext reg w Hrun) as Hnames.
  destruct (finished_raw_file ext reg w Hrun) as (raw_text & Hraw & Hlines).
  destruct (finished_params_file ext reg w Hrun)
    as (params_text & Hparams & Hrows).
  split.
  - apply script_finished_inv in Hrun as (_ & Hplot & _).
    apply Forall_forall. intros [system d] Hin. cbn [fst].
    split; [| exact (proj1 (Forall_forall _ _) Hnames _ Hin)].
    apply (entry_plot_ok_color (table_of ext reg) system d).
    exact (proj1 (forallb_forall _ _) Hplot _ Hin).
  - exists raw_text, (map point_body (points reg)),
      params_text, (map params_line_body (table_of ext reg)).
    split; [assumption |]. split; [assumption |].
    split; [| split; [assumption | split; [assumption |]]].
    + generalize (points_names reg Hnames). generalize (points reg).
      intros pts Hpts.
      induction Hpts as [| [[[system d] xi] si] pts Hpt Hrest IH];
        [constructor |].
      cbn [map]. constructor; [| exact IH].
      now apply raw_line_body_fields.
    + generalize (table_names ext reg Hnames). generalize (table_of ext reg).
      intros table Htable.
      induction Htable as [| row table Hrow Hrest IH]; [constructor |].
      cbn [map]. constructor; [| exact IH].
      now apply params_line_fields.
Qed.

(** The registry of the script with the clamping solver. *)
Lemma X8_witness :
  Forall (fun entry =>
            lookup (fst entry) colors <> None /\
            name_ok (fst entry) = true)
         data_registry.
Proof.
  exact (proj1 (X8_names_need_no_quoting Demo.ext_clamp data_registry _
                  script_clamp_registry)).
Defined.

(** X9.  The division [B / A] does not raise when the solver returns
    [A = 0]: the row is appended with a VPI of NaN ([B = 0]) or of an
    infinity with the sign of [B], and the console line and the
    parameters file show it as [nan], [inf] or [-inf]. *)
Theorem X9_zero_prefactor_gives_inf (ext : externals) (system : string)
  (d : dataset) (B : R) (mse r2 : npfloat) :
  curve_fit ext model_array (x d) (sigma d) p0 fit_bounds maxfev = Ok (0, B) ->
  mean_squared_error ext (sigma d) (model_array (x d) 0 B) = Ok mse ->
  r2_score ext (sigma d) (model_array (x d) 0 B) = Ok r2 ->
  exists row,
    fit_dataset ext system d = Ok row /\
    row_A row = 0 /\ row_B row = B /\
    ((B = 0 /\ row_vpi row = NaN /\
      format_f 2 (row_vpi row) = "nan"%string) \/
     (0 < B /\ row_vpi row = Inf false /\
      format_f 2 (row_vpi row) = "inf"%string) \/
     (B < 0 /\ row_vpi row = Inf true /\
      format_f 2 (row_vpi row) = "-inf"%string)).
Proof.
  intros Hfit Hmse Hr2. unfold fit_dataset.
  rewrite Hfit. cbn [bind]. rewrite Hmse. cbn [bind]. rewrite Hr2.
  cbn [bind]. eexists. split; [reflexivity |].
  cbn [row_A row_B row_vpi]. split; [reflexivity |]. split; [reflexivity |].
  destruct (np_divide_zero B) as [[HB ->] | [[HB ->] | [HB ->]]].
  - left. repeat split. exact HB.
  - right. left. repeat split. exact HB.
  - right. right. repeat split. exact HB.
Qed.

(** The solver that returns [A = 0], [B = 0.5]. *)
Lemma X9_witness :
  exists row,
    fit_dataset MoreDemo.ext_zero "LiCl (Li+)" MoreDemo.licl_short = Ok row /\
    row_vpi row = Inf false /\
    format_f 2 (row_vpi row) = "inf"%string.
Proof.
  destruct (X9_zero_prefactor_gives_inf MoreDemo.ext_zero "LiCl (Li+)"
              MoreDemo.licl_short 0.5 (Fin 0) (Fin 1)
              eq_refl eq_refl eq_refl)
    as (row & Hrow & _ & _ & [(HB & _) | [(_ & Hvpi & Htext) | (HB & _)]]).
  - exfalso. lra.
  - exists row. repeat split; assumption.
  - exfalso. lra.
Defined.

(** X10.  The metrics are not guarded either: when the solver returns and
    [mean_squared_error] raises, or it returns and [r2_score] raises,
    that exception is the result of the dataset's iteration; the run ends
    with it after the lines of the datasets before, and no file is
    written. *)
Theorem X10_metric_failure_aborts_run (ext : externals)
  (pre post : registry) (system : string) (d : dataset) (A B : R)
  (e : exception) :
  forallb (entry_ok ext) pre = true ->
  fit d = true ->
  curve_fit ext model_array (x d) (sigma d) p0 fit_bounds maxfev = Ok (A, B) ->
  (mean_squared_error ext (sigma d) (model_array (x d) A B) = Raise e \/
   (exists mse,
       mean_squared_error ext (sigma d) (model_array (x d) A B) = Ok mse /\
       r2_score ext (sigma d) (model_array (x d) A B) = Raise e)) ->
  fit_dataset ext system d = Raise e /\
  script ext (pre ++ (system, d) :: post)
  = Aborted
      {| printed := stdout initial_state ++ flat_map (entry_lines ext) pre;
         files := [] |} e.
Proof.
  intros Hpre Hfit Hsolver Hmetric.
  assert (Hraise : fit_dataset ext system d = Raise e).
  { unfold fit_dataset. rewrite Hsolver. cbn [bind].
    destruct Hmetric as [-> | (mse & -> & Hr2)]; [reflexivity |].
    cbn [bind]. now rewrite Hr2. }
  split; [exact Hraise |]. now apply script_fit_failure.
Qed.

(** Metrics that refuse their input, on the registry of the script. *)
Lemma X10_witness :
  exists w,
    main MoreDemo.ext_metric_fails
    = Aborted w (LibraryError "Input contains NaN.") /\
    files w = [].
Proof.
  pose proof (X10_metric_failure_aborts_run MoreDemo.ext_metric_fails
                [] (tl data_registry) "LiCl (Li+)"
                (snd (hd (EmptyString, MoreDemo.kcl) data_registry))
                0.3 0.1 (LibraryError "Input contains NaN.")
                eq_refl eq_refl eq_refl (or_introl eq_refl)) as [_ Hrun].
  eexists. split; [exact Hrun | reflexivity].
Defined.

(** X11.  When no system name contains a comma or a newline, every
    fraction has at most two decimals and every conductivity at most four
    significant digits, the raw file read back gives the points exactly:
    nothing is lost in the two decimals and the three decimals of the
    mantissa.  The data of the script are of this kind. *)
Theorem X11_raw_csv_exact (reg : registry) :
  Forall (fun entry => name_ok (fst entry) = true /\
                       Forall (decimals 2) (x (snd entry)) /\
                       Forall (significant 3) (sigma (snd entry))) reg ->
  CsvReader.parse_raw_csv (SIExport.raw_csv reg)
  = Some (map exact_record (points reg)).
Proof.
  intros Hreg.
  assert (Hnames : Forall (fun entry => name_ok (fst entry) = true) reg).
  { apply Forall_forall. intros entry Hin.
    now destruct (proj1 (Forall_forall _ _) Hreg entry Hin). }
  unfold CsvReader.parse_raw_csv. rewrite raw_csv_lines by assumption.
  rewrite String.eqb_refl. now apply parse_points_exact, points_values.
Qed.

(** The registry of the script. *)
Lemma X11_witness :
  CsvReader.parse_raw_csv (SIExport.raw_csv data_registry)
  = Some (map exact_record (points data_registry)).
Proof.
  exact (X11_raw_csv_exact data_registry data_registry_values).
Defined.

(** X12.  In a finished run over a registry whose system names contain no
    comma and no newline, the parameters file read back gives one record
    per row of the table, in order: the name and the charge exactly, [A]
    and [B] within 0.00005, VPI within 0.005 and R2 within 0.0005 of the
    values of the row, RMSE within 0.0005 times its value; a value that
    is NaN or an infinity is read back as the same. *)
Theorem X12_params_csv_roundtrip (ext : externals) (reg : registry)
  (w : world) :
  Forall (fun entry => name_ok (fst entry) = true) reg ->
  script ext reg = Finished w ->
  exists text recs,
    file_of w params_file = Some text /\
    ParamsReader.parse_params_csv text = Some recs /\
    Forall2 agrees_row (table_of ext reg) recs.
Proof.
  intros Hnames Hrun. apply script_finished_inv in Hrun as (_ & _ & ->).
  pose proof (table_names ext reg Hnames) as Htable.
  destruct (parse_rows (table_of ext reg) Htable) as (recs & Hrecs & Hall).
  exists (SIExport.params_csv (table_of ext reg)), recs.
  split; [reflexivity |]. split; [| exact Hall].
  unfold ParamsReader.parse_params_csv.
  rewrite params_csv_lines by assumption.
  now rewrite String.eqb_refl.
Qed.

(** The registry of the script with the clamping solver. *)
Lemma X12_witness :
  exists text recs,
    file_of (finished_world Demo.ext_clamp data_registry) params_file
    = Some text /\
    ParamsReader.parse_params_csv text = Some recs /\
    Forall2 agrees_row (table_of Demo.ext_clamp data_registry) recs.
Proof.
  exact (X12_params_csv_roundtrip Demo.ext_clamp data_registry _
           data_registry_names_ok script_clamp_registry).
Defined.

(** X13.  With a solver that keeps inside the bounds it is given, every
    row a fit produces has [A] between 0.0001 and 1 and [B] between 0.01
    and 10, so that VPI is a finite number between 0.01 and 100000, and
    the fitted curve peaks at [0.05 + 4.5 / B], not below 0.5. *)
Theorem X13_bounds_of_a_row (ext : externals) (system : string)
  (d : dataset) (row : fit_row) :
  respects_bounds ext ->
  fit_dataset ext system d = Ok row ->
  1e-4 <= row_A row <= 1 /\ 0.01 <= row_B row <= 10 /\
  (exists v, row_vpi row = Fin v /\ 0.01 <= v <= 100000) /\
  0.5 <= peak t_default (row_B row).
Proof.
  intros Hbounds Hcall.
  destruct (fit_row_bounds ext system d row Hbounds Hcall) as (HA & HB & Hv).
  split; [exact HA |]. split; [exact HB |]. split; [exact Hv |].
  unfold peak, t_default, x_c.
  assert (Hinv : / 10 <= / row_B row) by (apply Rinv_le_contravar; lra).
  unfold Rdiv. lra.
Qed.

(** The clamping solver. *)
Lemma X13_witness :
  exists row,
    fit_dataset Demo.ext_clamp "LiCl (Li+)" MoreDemo.licl_short = Ok row /\
    (exists v, row_vpi row = Fin v /\ 0.01 <= v <= 100000) /\
    0.5 <= peak t_default (row_B row).
Proof.
  eexists. split; [apply fit_dataset_clamp |].
  exact (proj2 (proj2 (X13_bounds_of_a_row Demo.ext_clamp "LiCl (Li+)"
                         MoreDemo.licl_short _ ext_clamp_respects_bounds
                         (fit_dataset_clamp _ _)))).
Defined.

(** X14.  The column widths of the console table suffice for what the
    bounds allow: with a solver that keeps inside its bounds and a system
    name of at most 18 ASCII characters, the name, [A], [B] and VPI of a
    fitted line fill exactly 18, 8, 6 and 10 characters, as the titles
    of the header and the dashes of a placeholder line do, so that the
    first four columns of all lines stand below one another; a
    placeholder line is 73 characters wide, all of them ASCII. *)
Theorem X14_console_columns_fit (ext : externals) (system : string)
  (d : dataset) (row : fit_row) :
  respects_bounds ext ->
  fit_dataset ext system d = Ok row ->
  ascii_only system = true ->
  (String.length system <= 18)%nat ->
  String.length (ljust 18 (row_system row)) = 18%nat /\
  String.length (ljust 8 (format_f 3 (Fin (row_A row)))) = 8%nat /\
  String.length (ljust 6 (format_f 2 (Fin (row_B row)))) = 6%nat /\
  String.length (ljust 10 (format_f 2 (row_vpi row))) = 10%nat /\
  String.length (Console.placeholder_line system) = 73%nat /\
  ascii_only (ljust 18 (row_system row)) = true /\
  ascii_only (Console.placeholder_line system) = true.
Proof.
  intros Hbounds Hcall Hascii Hname.
  destruct (fit_row_bounds ext system d row Hbounds Hcall)
    as (HA & HB & (v & Hv & Hvr)).
  destruct (fit_dataset_row ext system d row Hcall) as (Hsys & _).
  rewrite !ljust_length, Hsys, Hv.
  pose proof (format_f_length_le 2 0 (row_A row)) as H1.
  pose proof (format_f_length_le 1 1 (row_B row)) as H2.
  pose proof (format_f_length_le 1 5 v) as H3.
  change (IZR (10 ^ Z.of_nat 1 - 1)) with 9 in H1.
  change (IZR (10 ^ Z.of_nat 2 - 1)) with 99 in H2.
  change (IZR (10 ^ Z.of_nat 6 - 1)) with 999999 in H3.
  specialize (H1 ltac:(lra)). specialize (H2 ltac:(lra)).
  specialize (H3 ltac:(lra)).
  split; [lia |]. split; [lia |]. split; [lia |]. split; [lia |].
  split; [| split].
  - unfold Console.placeholder_line, Console.sep.
    rewrite !str_length_app, !ljust_length. cbn [String.length]. lia.
  - now apply ascii_only_ljust.
  - unfold Console.placeholder_line.
    rewrite ascii_only_app, (ascii_only_ljust 18 system Hascii).
    reflexivity.
Qed.

(** The clamping solver and the first system of the script. *)
Lemma X14_witness :
  exists row,
    fit_dataset Demo.ext_clamp "LiCl (Li+)" MoreDemo.licl_short = Ok row /\
    String.length (ljust 10 (format_f 2 (row_vpi row))) = 10%nat.
Proof.
  eexists. split; [apply fit_dataset_clamp |].
  refine (proj1 (proj2 (proj2 (proj2
            (X14_console_columns_fit Demo.ext_clamp "LiCl (Li+)"
               MoreDemo.licl_short _ ext_clamp_respects_bounds
               (fit_dataset_clamp _ _) eq_refl _))))).
  cbn. lia.
Defined.
